(** * Block storage engine of wasql ([block.c]): model and properties

    The engine shards a virtual file into 4096-byte blocks, each stored as
    a file [<name>.blocks/block_NNNNNN].  This development embeds
    [block.c] function by function over a small model of the C library
    calls it makes ([snprintf], [stat], [mkdir], [fopen], [fseek],
    [fread], [fwrite], [unlink]) and proves the properties of the
    engine's specification against that embedding. *)

From Stdlib Require Import ZArith Lia Ascii String.
From Stdlib.Strings Require Import Byte.
From stdpp Require Import gmap strings list.

Local Open Scope Z_scope.

(** ** Machine integers

    [int] is 32 bits and [long long] 64 bits, both two's complement.  A
    conversion to a narrower signed type keeps the low bits
    (implementation-defined in C, and what the usual compilers do).  The
    same wrap-around is written out for [long long] arithmetic, where C
    leaves overflow undefined: the only addition that can overflow is
    the advance of [offset] past [LLONG_MAX]. *)

Definition wrap (bits : Z) (z : Z) : Z :=
  (z + 2 ^ (bits - 1)) mod 2 ^ bits - 2 ^ (bits - 1).

Definition to_int (z : Z) : Z := wrap 32 z.
Definition to_llong (z : Z) : Z := wrap 64 z.

Definition INT_MAX : Z := 2 ^ 31 - 1.
Definition LLONG_MAX : Z := 2 ^ 63 - 1.

(** C's [/] and [%] truncate towards zero: [Z.quot] and [Z.rem]. *)
Definition c_div (a b : Z) : Z := Z.quot a b.
Definition c_mod (a b : Z) : Z := Z.rem a b.

(** ** Constants of [block.c]

    [SCAN_LIMIT] is the literal 10000 that bounds the two [for] loops
    over block numbers. *)

Definition BLOCK_SIZE : Z := 4096.
Definition MAX_PATH_LEN : Z := 1024.
Definition SCAN_LIMIT : Z := 10000.

(** ** Strings and [snprintf] *)

Fixpoint str_take (n : nat) (s : string) : string :=
  match n, s with
  | S n', String c r => String c (str_take n' r)
  | _, _ => EmptyString
  end.

Definition strlen (s : string) : Z := Z.of_nat (String.length s).

(** [snprintf(dst, size, ...)] where the full expansion of the format is
    [s]: at most [size - 1] characters are stored, and the length the
    full expansion has is returned. *)
Definition snprintf (size : Z) (s : string) : string * Z :=
  (str_take (Z.to_nat (size - 1)) s, strlen s).

Definition digit_char (d : Z) : ascii := ascii_of_nat (48 + Z.to_nat d).

(** The [w] low-order decimal digits of [n], most significant first,
    in front of [acc]. *)
Fixpoint digits_w (w : nat) (n : Z) (acc : string) : string :=
  match w with
  | O => acc
  | S w' => digits_w w' (n / 10) (String (digit_char (n mod 10)) acc)
  end.

(** Number of decimal digits of [n >= 0] (at least one). *)
Fixpoint ndigits (fuel : nat) (n : Z) : nat :=
  match fuel with
  | O => 1%nat
  | S f => if n <? 10 then 1%nat else S (ndigits f (n / 10))
  end.

(** [%0<w>u]-style conversion: decimal, zero-padded to at least [w]. *)
Definition fmt_unsigned (w : nat) (n : Z) : string :=
  digits_w (Nat.max w (ndigits 10 n)) n EmptyString.

(** [%06d] on an [int]: the sign counts towards the field width. *)
Definition fmt_06d (n : Z) : string :=
  if n <? 0 then String "-" (fmt_unsigned 5 (- n)) else fmt_unsigned 6 n.

(** ** Paths *)

Record block_file_t := { filename : string }.

(* static void get_block_dir(const char *filename, char *block_dir) *)
Definition get_block_dir (filename : string) : string :=
  fst (snprintf MAX_PATH_LEN (filename +:+ ".blocks")).

(* static int get_block_path(const char *filename, int block_num,
                             char *block_path)
   The status and the characters left in [block_path]. *)
Definition get_block_path (filename : string) (block_num : Z) : Z * string :=
  let block_dir := get_block_dir filename in
  let '(block_path, result) :=
    snprintf MAX_PATH_LEN (block_dir +:+ "/block_" +:+ fmt_06d block_num) in
  (if result >=? MAX_PATH_LEN then -1 else 0, block_path).

(** ** The file system the engine runs on

    A path names a regular file (with its bytes) or a directory; the
    working directory and the root always exist.  The calls below are the
    ones [block.c] makes, with the outcomes it distinguishes: a call
    fails for a missing file, a missing parent directory, or a directory
    where a file is expected; permissions and full disks are left out.
    Paths are taken as they are written: ["."], [".."] and repeated
    ['/'] are not resolved, two different strings are two different
    files, and no limit is put on the length of a path component. *)

Inductive node :=
  | File (data : list byte)
  | Dir.

Abbreviation filesys := (gmap string node).

Definition ENOENT : Z := 2.
Definition EISDIR : Z := 21.

(** What [stat] reports as [st_size] for a directory (one file-system
    block); the engine never asks for it on a path of its own making. *)
Definition DIR_ST_SIZE : Z := 4096.

(** The path up to its last ['/'], if it has one. *)
Fixpoint dirname (p : string) : option string :=
  match p with
  | EmptyString => None
  | String c r =>
      match dirname r with
      | Some d => Some (String c d)
      | None => if Ascii.eqb c "/" then Some EmptyString else None
      end
  end.

Definition parent_exists (fs : filesys) (p : string) : bool :=
  match dirname p with
  | None => true
  | Some EmptyString => true
  | Some d => match fs !! d with Some Dir => true | _ => false end
  end.

(* stat(path, &st) == 0, with st.st_size *)
Definition stat (fs : filesys) (p : string) : option Z :=
  match fs !! p with
  | Some (File d) => Some (Z.of_nat (length d))
  | Some Dir => Some DIR_ST_SIZE
  | None => None
  end.

(* mkdir(path, 0755) *)
Definition mkdir (fs : filesys) (p : string) : option filesys :=
  match fs !! p with
  | Some _ => None
  | None => if parent_exists fs p then Some (<[p := Dir]> fs) else None
  end.

(* fopen(path, "rb"): the bytes the stream will deliver.  A directory
   opens, and every read from it fails with no bytes. *)
Definition fopen_rb (fs : filesys) (p : string) : option (list byte) :=
  match fs !! p with
  | Some (File d) => Some d
  | Some Dir => Some []
  | None => None
  end.

(* fopen(path, "wb"): creates the file or truncates it to length zero. *)
Definition fopen_wb (fs : filesys) (p : string) : option filesys :=
  match fs !! p with
  | Some Dir => None
  | Some (File _) => Some (<[p := File []]> fs)
  | None => if parent_exists fs p then Some (<[p := File []]> fs) else None
  end.

(* fseek(stream, off, SEEK_SET) *)
Definition fseek (off : Z) : Z := if off <? 0 then -1 else 0.

(* fread(dst, 1, n, stream) at stream position [pos]: the bytes read. *)
Definition fread (stream : list byte) (pos n : Z) : list byte :=
  take (Z.to_nat n) (drop (Z.to_nat pos) stream).

(* fwrite(src, 1, n, stream) on a stream opened on [p]: the count written. *)
Definition fwrite (fs : filesys) (p : string) (src : list byte) (n : Z)
  : Z * filesys :=
  let w := take (Z.to_nat n) src in
  match fs !! p with
  | Some (File d) => (Z.of_nat (length w), <[p := File (d ++ w)]> fs)
  | _ => (0, fs)
  end.

(* unlink(path): return value, errno, file system *)
Definition unlink (fs : filesys) (p : string) : Z * Z * filesys :=
  match fs !! p with
  | Some (File _) => (0, 0, delete p fs)
  | Some Dir => (-1, EISDIR, fs)
  | None => (-1, ENOENT, fs)
  end.

(** ** Memory buffers *)

(* memset(dst, 0, n) on a fresh array *)
Definition zeros (n : Z) : list byte := replicate (Z.to_nat n) x00.

(* The array [dst] after [src] was stored at its index [off]. *)
Definition store_at (dst : list byte) (off : Z) (src : list byte) : list byte :=
  take (Z.to_nat off) dst ++ src ++ drop (Z.to_nat off + length src) dst.

(** ** [block.c] *)

(* static int ensure_block_dir(const char *filename) *)
Definition ensure_block_dir (fs : filesys) (filename : string) : Z * filesys :=
  let block_dir := get_block_dir filename in
  match stat fs block_dir with
  | None =>
      match mkdir fs block_dir with
      | None => (-1, fs)
      | Some fs' => (0, fs')
      end
  | Some _ => (0, fs)
  end.

(* int block_open(const char *filename, block_file_t **bf)
   [malloc] and [strdup] succeed; on failure the handle the caller is
   left with has been freed, and is modelled as no handle. *)
Definition block_open (fs : filesys) (fname : string)
  : Z * option block_file_t * filesys :=
  let '(rc, fs') := ensure_block_dir fs fname in
  if rc =? 0 then (0, Some {| filename := fname |}, fs')
  else (-1, None, fs').

(* int block_close(block_file_t *bf) *)
Definition block_close (bf : option block_file_t) : Z :=
  match bf with
  | None => 0
  | Some _ => 0
  end.

(** The body of the [while (size > 0)] loop of [block_read]; [out] holds
    the bytes stored through [buf] so far.  Every turn takes at least one
    byte off [size], so [fuel = size] turns are enough. *)
Fixpoint read_loop (fuel : nat) (fs : filesys) (fname : string)
    (out : list byte) (size offset total_read : Z) : Z * list byte :=
  match fuel with
  | O => (total_read, out)
  | S fuel' =>
      if size >? 0 then
        let block_num := to_int (c_div offset BLOCK_SIZE) in
        let block_offset := to_int (c_mod offset BLOCK_SIZE) in
        let to_read :=
          if size <? BLOCK_SIZE - block_offset then size
          else BLOCK_SIZE - block_offset in
        let '(rc, block_path) := get_block_path fname block_num in
        if negb (rc =? 0) then (-1, out)
        else
          match fopen_rb fs block_path with
          | None =>
              read_loop fuel' fs fname (out ++ zeros to_read)
                (size - to_read) (to_llong (offset + to_read))
                (to_int (total_read + to_read))
          | Some stream =>
              if negb (fseek block_offset =? 0) then (-1, out)
              else
                let got := fread stream block_offset to_read in
                let bytes_read := Z.of_nat (length got) in
                let chunk :=
                  if bytes_read <? to_read
                  then got ++ zeros (to_read - bytes_read) else got in
                read_loop fuel' fs fname (out ++ chunk)
                  (size - to_read) (to_llong (offset + to_read))
                  (to_int (total_read + to_read))
          end
      else (total_read, out)
  end.

(* int block_read(block_file_t *bf, void *buffer, int size, long long offset)
   The return value and the caller's buffer afterwards. *)
Definition block_read (fs : filesys) (bf : option block_file_t)
    (buffer : option (list byte)) (size offset : Z)
  : Z * option (list byte) :=
  match bf, buffer with
  | Some h, Some buf =>
      if (size <? 0) || (offset <? 0) then (-1, buffer)
      else
        let '(rc, out) :=
          read_loop (Z.to_nat size) fs (filename h) [] size offset 0 in
        (rc, Some (out ++ drop (length out) buf))
  | _, _ => (-1, buffer)
  end.

(** The body of the [while (size > 0)] loop of [block_write]; [buf] is
    what the advancing source pointer still has in front of it. *)
Fixpoint write_loop (fuel : nat) (fs : filesys) (fname : string)
    (buf : list byte) (size offset total_written : Z) : Z * filesys :=
  match fuel with
  | O => (total_written, fs)
  | S fuel' =>
      if size >? 0 then
        let block_num := to_int (c_div offset BLOCK_SIZE) in
        let block_offset := to_int (c_mod offset BLOCK_SIZE) in
        let to_write :=
          if size <? BLOCK_SIZE - block_offset then size
          else BLOCK_SIZE - block_offset in
        let '(rc, block_path) := get_block_path fname block_num in
        if negb (rc =? 0) then (-1, fs)
        else
          let next fs' :=
            write_loop fuel' fs' fname (drop (Z.to_nat to_write) buf)
              (size - to_write) (to_llong (offset + to_write))
              (to_int (total_written + to_write)) in
          if negb (block_offset =? 0) || negb (to_write =? BLOCK_SIZE) then
            (* read-modify-write *)
            let block_data := zeros BLOCK_SIZE in
            let block_data :=
              match fopen_rb fs block_path with
              | Some existing =>
                  store_at block_data 0 (fread existing 0 BLOCK_SIZE)
              | None => block_data
              end in
            let block_data :=
              store_at block_data block_offset
                (take (Z.to_nat to_write) buf) in
            match fopen_wb fs block_path with
            | None => (-1, fs)
            | Some fs1 =>
                let '(n, fs2) := fwrite fs1 block_path block_data BLOCK_SIZE in
                if negb (n =? BLOCK_SIZE) then (-1, fs2) else next fs2
            end
          else
            (* full block write *)
            match fopen_wb fs block_path with
            | None => (-1, fs)
            | Some fs1 =>
                let '(n, fs2) := fwrite fs1 block_path buf to_write in
                if negb (n =? to_write) then (-1, fs2) else next fs2
            end
      else (total_written, fs)
  end.

(* int block_write(block_file_t *bf, const void *buffer, int size,
                   long long offset) *)
Definition block_write (fs : filesys) (bf : option block_file_t)
    (buffer : option (list byte)) (size offset : Z) : Z * filesys :=
  match bf, buffer with
  | Some h, Some buf =>
      if (size <? 0) || (offset <? 0) then (-1, fs)
      else write_loop (Z.to_nat size) fs (filename h) buf size offset 0
  | _, _ => (-1, fs)
  end.

(** The [for (block_num = last_block; block_num < 10000; block_num++)]
    loop of [block_truncate].  The flag tells whether the function
    returned -1 from inside the loop. *)
Fixpoint truncate_loop (fuel : nat) (fs : filesys) (fname : string)
    (block_num : Z) : bool * filesys :=
  match fuel with
  | O => (false, fs)
  | S fuel' =>
      if block_num <? SCAN_LIMIT then
        let '(rc, block_path) := get_block_path fname block_num in
        if negb (rc =? 0) then (true, fs)
        else
          let '(urc, errno, fs') := unlink fs block_path in
          if negb (urc =? 0) && negb (errno =? ENOENT) then (false, fs')
          else truncate_loop fuel' fs' fname (to_int (block_num + 1))
      else (false, fs)
  end.

(* int block_truncate(block_file_t *bf, long long size) *)
Definition block_truncate (fs : filesys) (bf : option block_file_t)
    (size : Z) : Z * filesys :=
  match bf with
  | None => (-1, fs)
  | Some h =>
      if size <? 0 then (-1, fs)
      else
        let last_block :=
          to_int (c_div (to_llong (to_llong (size + BLOCK_SIZE) - 1))
                        BLOCK_SIZE) in
        let '(returned, fs1) :=
          truncate_loop (Z.to_nat (SCAN_LIMIT - last_block)) fs
            (filename h) last_block in
        if returned then (-1, fs1)
        else if (size >? 0) && negb (c_mod size BLOCK_SIZE =? 0) then
          let last_block_num := to_int (c_div (size - 1) BLOCK_SIZE) in
          let last_block_size := to_int (c_mod size BLOCK_SIZE) in
          let '(_, block_path) := get_block_path (filename h) last_block_num in
          let block_data := zeros BLOCK_SIZE in
          let block_data :=
            match fopen_rb fs1 block_path with
            | Some existing =>
                store_at block_data 0 (fread existing 0 BLOCK_SIZE)
            | None => block_data
            end in
          match fopen_wb fs1 block_path with
          | Some fs2 =>
              (0, snd (fwrite fs2 block_path block_data last_block_size))
          | None => (0, fs1)
          end
        else (0, fs1)
  end.

(** The [for (block_num = 0; block_num < 10000; block_num++)] loop of
    [block_file_size]. *)
Fixpoint size_loop (fuel : nat) (fs : filesys) (fname : string)
    (block_num max_size : Z) : Z :=
  match fuel with
  | O => max_size
  | S fuel' =>
      if block_num <? SCAN_LIMIT then
        let '(rc, block_path) := get_block_path fname block_num in
        if negb (rc =? 0) then -1
        else
          match stat fs block_path with
          | Some st_size =>
              let block_end := to_llong (to_int (block_num + 1) * BLOCK_SIZE) in
              let block_end :=
                if st_size <? BLOCK_SIZE
                then to_llong (block_num * BLOCK_SIZE + st_size)
                else block_end in
              let max_size :=
                if block_end >? max_size then block_end else max_size in
              size_loop fuel' fs fname (to_int (block_num + 1)) max_size
          | None => size_loop fuel' fs fname (to_int (block_num + 1)) max_size
          end
      else max_size
  end.

(* long long block_file_size(block_file_t *bf) *)
Definition block_file_size (fs : filesys) (bf : option block_file_t) : Z :=
  match bf with
  | None => -1
  | Some h => size_loop (Z.to_nat SCAN_LIMIT) fs (filename h) 0 0
  end.


(** ** Notions used to state the properties *)

(** Reading a decimal numeral back. *)
Fixpoint dec_value (acc : Z) (s : string) : Z :=
  match s with
  | EmptyString => acc
  | String c r => dec_value (acc * 10 + (Z.of_nat (nat_of_ascii c) - 48)) r
  end.

(** The path [get_block_path] leaves in [block_path], and whether it
    reported success. *)
Definition block_path (fname : string) (n : Z) : string :=
  snd (get_block_path fname n).
Definition path_ok (fname : string) (n : Z) : Prop :=
  fst (get_block_path fname n) = 0.

(** ** Logical content

    The byte the data model assigns to a position of the virtual file:
    the byte of the block file at that place, zero where the block file
    is absent or too short. *)

Definition byte_at (l : list byte) (i : Z) : byte :=
  default x00 (l !! Z.to_nat i).

Definition block_byte (fs : filesys) (p : string) (i : Z) : byte :=
  match fopen_rb fs p with
  | Some d => byte_at d i
  | None => x00
  end.

Definition logical_byte (fs : filesys) (fname : string) (pos : Z) : byte :=
  block_byte fs (block_path fname (to_int (pos / BLOCK_SIZE)))
    (pos mod BLOCK_SIZE).

(** The same by the words of the data model: byte [pos mod 4096] of the
    block file with index [pos / 4096].  [logical_byte] has the index
    as the code computes it, in an [int]; the two agree on the
    positions below [2^31 * 4096] and part from there on. *)
Definition spec_byte (fs : filesys) (fname : string) (pos : Z) : byte :=
  block_byte fs (block_path fname (pos / BLOCK_SIZE)) (pos mod BLOCK_SIZE).

(** Every block path of the span [offset, offset + size) fits. *)
Definition paths_ok (fname : string) (offset size : Z) : Prop :=
  forall pos, offset <= pos < offset + size ->
    path_ok fname (to_int (pos / BLOCK_SIZE)).

(** [x] lies in the span [offset, offset + size). *)
Definition in_span (offset size x : Z) : bool :=
  (offset <=? x) && (x <? offset + size).

(** The loops of [block_read] and [block_write] keep their position in
    a [long long].  [v] is the position a loop has reached, counted
    without wrap-around: with bytes left to transfer it is either still
    a [long long] or, once the addition has wrapped, block-aligned. *)
Definition cursor_ok (v size : Z) : Prop :=
  size = 0 \/ v <= LLONG_MAX \/ v mod BLOCK_SIZE = 0.

(** ** Logical size

    What block [k] contributes to the logical size: its index times the
    block size plus its length, the length counted up to one block. *)
Definition extent (fs : filesys) (fname : string) (k : Z) : option Z :=
  (fun st_size => k * BLOCK_SIZE + Z.min st_size BLOCK_SIZE)
    <$> stat fs (block_path fname k).

(** [r] is the largest contribution of the blocks [lo <= k < hi], and
    zero if none of them exists (no contribution is negative). *)
Definition is_max_extent (fs : filesys) (fname : string) (lo hi r : Z) : Prop :=
  (forall k e, lo <= k < hi -> extent fs fname k = Some e -> e <= r)
  /\ (r = 0 \/ exists k, lo <= k < hi /\ extent fs fname k = Some r).

(** ** Reachable states

    The operations a caller can perform, with arbitrary arguments, and
    the on-disk states they lead to from the empty file system. *)
Inductive op :=
  | OpOpen (fname : string)
  | OpRead (bf : option block_file_t) (buffer : option (list byte))
           (size offset : Z)
  | OpWrite (bf : option block_file_t) (buffer : option (list byte))
            (size offset : Z)
  | OpTruncate (bf : option block_file_t) (size : Z).

Definition run_op (fs : filesys) (o : op) : filesys :=
  match o with
  | OpOpen fname => snd (block_open fs fname)
  | OpRead _ _ _ _ => fs
  | OpWrite bf buffer size offset => snd (block_write fs bf buffer size offset)
  | OpTruncate bf size => snd (block_truncate fs bf size)
  end.

Inductive reachable : filesys -> Prop :=
  | reach_empty : reachable ∅
  | reach_step fs o : reachable fs -> reachable (run_op fs o).

(** Every regular file holds at most one block. *)
Definition bounded_blocks (fs : filesys) : Prop :=
  forall p d, fs !! p = Some (File d) ->
    0 <= Z.of_nat (length d) <= BLOCK_SIZE.

(** ** States used in the examples

    The virtual file of [test_block.c], freshly opened on an empty file
    system, and states made from it. *)

Definition bytes_of (s : string) : list byte := String.list_byte_of_string s.

Definition TEST_FILE : string := "test_block_file".

Definition fresh_open : Z * option block_file_t * filesys :=
  block_open ∅ TEST_FILE.
Definition fresh_bf : option block_file_t := snd (fst fresh_open).
Definition fresh_fs : filesys := snd fresh_open.
(** "Hello, World!" written at offset 0 of the fresh virtual file. *)
Definition hello : list byte := bytes_of "Hello, World!".
Definition hello_fs : filesys :=
  snd (block_write fresh_fs fresh_bf (Some hello) 13 0).

(** One byte written into block 10000 of the fresh virtual file. *)
Definition far_fs : filesys :=
  snd (block_write fresh_fs fresh_bf (Some [x41]) 1 40960000).


(** Long names: a directory path of 1003 characters, a file name of
    1020 characters in it, and one of 1005 characters. *)
Definition seg250 : string := string_of_list_ascii (replicate 250 "d"%char).
Definition deep_dir : string :=
  seg250 +:+ "/" +:+ seg250 +:+ "/" +:+ seg250 +:+ "/" +:+ seg250.
Definition long_name : string := deep_dir +:+ "/sixteen_chars.db".
Definition edge_name : string := deep_dir +:+ "/e".
Definition deep_fs : filesys := {[ deep_dir := Dir ]}.

(** ** Footprint

    [p] is one of the block paths of the virtual file [fname] that
    [get_block_path] accepts. *)
Definition own_path (fname p : string) : Prop :=
  exists k, path_ok fname k /\ p = block_path fname k.

(** [p] is what [get_block_path] leaves in its buffer for some block
    of [fname], whole or cut short. *)
Definition buffer_path (fname p : string) : Prop :=
  exists k, p = block_path fname k.

(** From [fs] to [fs'] nothing changed but paths in [own], and none of
    those was or has become a directory. *)
Definition touched_within (own : string -> Prop) (fs fs' : filesys) : Prop :=
  forall p, fs' !! p = fs !! p
    \/ (own p /\ fs !! p <> Some Dir /\ fs' !! p <> Some Dir).

(** What a read that follows a write of [buf] at [offset] is to see at
    [pos]: the byte written there, or the byte [fs] had. *)
Definition overlay (fs : filesys) (fname : string) (buf : list byte)
    (size offset pos : Z) : byte :=
  if in_span offset size pos then byte_at buf (pos - offset)
  else logical_byte fs fname pos.

(** * [logging_vfs.c]: the VFS methods that call [block.c]

    The log stream is left out: [logVfsOperation] prints a line and
    returns nothing, and no method looks at the log.  The global
    [useBlockStorage] is an argument; the default VFS and the methods of
    its files, which the methods call through function pointers, are
    section variables.  A method that would dereference a null [pReal]
    has no result ([None]). *)

(* sqlite3.h *)
Definition SQLITE_OK : Z := 0.
Definition SQLITE_IOERR : Z := 10.
Definition SQLITE_CANTOPEN : Z := 14.
Definition SQLITE_IOERR_READ : Z := Z.lor SQLITE_IOERR (Z.shiftl 1 8).
Definition SQLITE_IOERR_WRITE : Z := Z.lor SQLITE_IOERR (Z.shiftl 3 8).
Definition SQLITE_IOERR_TRUNCATE : Z := Z.lor SQLITE_IOERR (Z.shiftl 6 8).
Definition SQLITE_IOERR_FSTAT : Z := Z.lor SQLITE_IOERR (Z.shiftl 7 8).
Definition SQLITE_IOERR_DELETE : Z := Z.lor SQLITE_IOERR (Z.shiftl 10 8).
Definition SQLITE_IOERR_CLOSE : Z := Z.lor SQLITE_IOERR (Z.shiftl 16 8).

(** ** Directories

    The entries [readdir] delivers for [path], after ["."] and [".."]:
    the last components of the paths directly below it, in the order
    the file system keeps them.  The loop of
    [remove_directory_recursive] gets them as they were when the
    directory was opened. *)
Fixpoint str_drop (n : nat) (s : string) : string :=
  match n, s with
  | O, _ => s
  | S _, EmptyString => EmptyString
  | S n', String _ r => str_drop n' r
  end.

Definition d_name_of (path k : string) : option string :=
  if decide (dirname k = Some path)
  then Some (str_drop (S (String.length path)) k) else None.

Definition dir_entries (fs : filesys) (path : string) : list string :=
  omap (fun kv => d_name_of path (fst kv)) (map_to_list fs).

(* opendir(path), then every readdir(d) up to NULL *)
Definition opendir (fs : filesys) (path : string) : option (list string) :=
  match fs !! path with
  | Some Dir => Some ("." :: ".." :: dir_entries fs path)
  | _ => None
  end.

(* rmdir(path): only an empty directory goes *)
Definition rmdir (fs : filesys) (path : string) : option filesys :=
  match fs !! path with
  | Some Dir =>
      match dir_entries fs path with
      | [] => Some (delete path fs)
      | _ => None
      end
  | _ => None
  end.

(** The [while ((entry = readdir(d)) != NULL)] loop of
    [remove_directory_recursive]. *)
Fixpoint remove_entries (fs : filesys) (path : string) (entries : list string)
    (result : Z) : Z * filesys :=
  match entries with
  | [] => (result, fs)
  | d_name :: rest =>
      if String.eqb d_name "." || String.eqb d_name ".." then
        remove_entries fs path rest result
      else
        let full_path := fst (snprintf 1024 (path +:+ "/" +:+ d_name)) in
        let '(urc, _, fs') := unlink fs full_path in
        remove_entries fs' path rest (if negb (urc =? 0) then -1 else result)
  end.

(* static int remove_directory_recursive(const char *path) *)
Definition remove_directory_recursive (fs : filesys) (path : string)
  : Z * filesys :=
  match opendir fs path with
  | None => (0, fs)
  | Some entries =>
      let '(result, fs1) := remove_entries fs path entries 0 in
      match rmdir fs1 path with
      | None => (-1, fs1)
      | Some fs2 => (result, fs2)
      end
  end.

(* struct LoggingFile, without the base class *)
Record LoggingFile (real_file : Type) := {
  pReal : option real_file;
  pBlock : option block_file_t;
  zName : option string
}.
Arguments pReal {real_file} _.
Arguments pBlock {real_file} _.
Arguments zName {real_file} _.

Section LoggingVfs.
Variable real_file : Type.
(* p->pReal->pMethods *)
Variable xClose : filesys -> real_file -> Z * filesys.
Variable xRead :
  filesys -> real_file -> option (list byte) -> Z -> Z -> Z * option (list byte).
Variable xWrite :
  filesys -> real_file -> option (list byte) -> Z -> Z -> Z * filesys.
Variable xTruncate : filesys -> real_file -> Z -> Z * filesys.
Variable xFileSize : filesys -> real_file -> Z -> Z * Z.
(* pDefaultVfs *)
Variable xOpen :
  filesys -> option string -> Z -> option Z
  -> Z * real_file * option Z * filesys.
Variable xDelete : filesys -> string -> Z -> Z * filesys.
(* what "temp_file_%p" gives for the file being opened *)
Variable temp_file_name : string.

(* useBlockStorage && p->pBlock *)
Definition block_mode (useBlockStorage : bool) (p : LoggingFile real_file)
  : bool :=
  useBlockStorage && bool_decide (is_Some (pBlock p)).

(* static int loggingClose(sqlite3_file *pFile) *)
Definition loggingClose (useBlockStorage : bool) (fs : filesys)
    (p : LoggingFile real_file) : Z * filesys :=
  if block_mode useBlockStorage p then
    let rc := block_close (pBlock p) in
    (if negb (rc =? 0) then SQLITE_IOERR_CLOSE else rc, fs)
  else
    match pReal p with
    | Some real => xClose fs real
    | None => (SQLITE_OK, fs)
    end.

(* static int loggingRead(sqlite3_file *pFile, void *zBuf, int iAmt,
                          sqlite3_int64 iOfst)
   The return value and the caller's buffer afterwards. *)
Definition loggingRead (useBlockStorage : bool) (fs : filesys)
    (p : LoggingFile real_file) (zBuf : option (list byte)) (iAmt iOfst : Z)
  : option (Z * option (list byte)) :=
  if block_mode useBlockStorage p then
    let '(bytes_read, zBuf') := block_read fs (pBlock p) zBuf iAmt iOfst in
    Some (if bytes_read <? 0 then SQLITE_IOERR_READ else SQLITE_OK, zBuf')
  else
    match pReal p with
    | Some real => Some (xRead fs real zBuf iAmt iOfst)
    | None => None
    end.

(* static int loggingWrite(sqlite3_file *pFile, const void *zBuf, int iAmt,
                           sqlite3_int64 iOfst) *)
Definition loggingWrite (useBlockStorage : bool) (fs : filesys)
    (p : LoggingFile real_file) (zBuf : option (list byte)) (iAmt iOfst : Z)
  : option (Z * filesys) :=
  if block_mode useBlockStorage p then
    let '(bytes_written, fs') := block_write fs (pBlock p) zBuf iAmt iOfst in
    Some (if bytes_written =? iAmt then SQLITE_OK else SQLITE_IOERR_WRITE, fs')
  else
    match pReal p with
    | Some real => Some (xWrite fs real zBuf iAmt iOfst)
    | None => None
    end.

(* static int loggingTruncate(sqlite3_file *pFile, sqlite3_int64 size) *)
Definition loggingTruncate (useBlockStorage : bool) (fs : filesys)
    (p : LoggingFile real_file) (size : Z) : option (Z * filesys) :=
  if block_mode useBlockStorage p then
    let '(rc, fs') := block_truncate fs (pBlock p) size in
    Some (if negb (rc =? 0) then SQLITE_IOERR_TRUNCATE else rc, fs')
  else
    match pReal p with
    | Some real => Some (xTruncate fs real size)
    | None => None
    end.

(* static int loggingFileSize(sqlite3_file *pFile, sqlite3_int64 *pSize)
   The return value and [*pSize] afterwards. *)
Definition loggingFileSize (useBlockStorage : bool) (fs : filesys)
    (p : LoggingFile real_file) (pSize : Z) : option (Z * Z) :=
  if block_mode useBlockStorage p then
    let size := block_file_size fs (pBlock p) in
    Some (if size >=? 0 then (SQLITE_OK, size) else (SQLITE_IOERR_FSTAT, 0))
  else
    match pReal p with
    | Some real => Some (xFileSize fs real pSize)
    | None => None
    end.

(* static int loggingOpen(sqlite3_vfs *pVfs, const char *zName,
                          sqlite3_file *pFile, int flags, int *pOutFlags)
   The return value, [*pFile] and [*pOutFlags] afterwards, and the file
   system; [sqlite3_malloc] and [sqlite3_mprintf] succeed.  A handle or a
   real file that has been freed on the way out is no handle and no real
   file. *)
Definition loggingOpen (useBlockStorage : bool) (fs : filesys)
    (zName0 : option string) (p : LoggingFile real_file) (flags : Z)
    (pOutFlags : option Z)
  : Z * LoggingFile real_file * option Z * filesys :=
  let name := Some (default temp_file_name zName0) in
  if useBlockStorage then
    let filename := default temp_file_name zName0 in
    let '(rc, bf, fs') := block_open fs filename in
    if negb (rc =? 0) then
      (SQLITE_CANTOPEN,
       {| pReal := None; pBlock := bf; zName := zName p |}, pOutFlags, fs')
    else
      (SQLITE_OK, {| pReal := None; pBlock := bf; zName := name |},
       (fun _ => flags) <$> pOutFlags, fs')
  else
    let '(rc, real, out, fs') := xOpen fs zName0 flags pOutFlags in
    if negb (rc =? SQLITE_OK) then
      (rc, {| pReal := None; pBlock := None; zName := zName p |}, out, fs')
    else
      (SQLITE_OK, {| pReal := Some real; pBlock := None; zName := name |},
       out, fs').

(* static int loggingDelete(sqlite3_vfs *pVfs, const char *zPath,
                            int syncDir) *)
Definition loggingDelete (useBlockStorage : bool) (fs : filesys)
    (zPath : string) (syncDir : Z) : Z * filesys :=
  if useBlockStorage then
    let block_dir := fst (snprintf 1024 (zPath +:+ ".blocks")) in
    let '(dir_rc, fs1) := remove_directory_recursive fs block_dir in
    let '(_, fs2) := xDelete fs1 zPath syncDir in
    (if dir_rc =? 0 then SQLITE_OK else SQLITE_IOERR_DELETE, fs2)
  else xDelete fs zPath syncDir.

End LoggingVfs.

Arguments block_mode {real_file} _ _.
Arguments loggingClose {real_file} _ _ _ _.
Arguments loggingRead {real_file} _ _ _ _ _ _ _.
Arguments loggingWrite {real_file} _ _ _ _ _ _ _.
Arguments loggingTruncate {real_file} _ _ _ _ _.
Arguments loggingFileSize {real_file} _ _ _ _ _.
Arguments loggingOpen {real_file} _ _ _ _ _ _ _ _.

(** A default VFS for the examples: its [xDelete] unlinks the path. *)
Definition unlink_xDelete (fs : filesys) (zPath : string) (syncDir : Z)
  : Z * filesys :=
  let '(rc, _, fs') := unlink fs zPath in
  (if rc =? 0 then SQLITE_OK else SQLITE_IOERR_DELETE, fs').

(** * Properties *)

(** ** Formatting and paths *)

Example fmt_06d_7 : fmt_06d 7 = "000007". Proof. reflexivity. Qed.
Example fmt_06d_neg : fmt_06d (-1) = "-00001". Proof. reflexivity. Qed.
Example fmt_06d_big : fmt_06d 1234567 = "1234567". Proof. reflexivity. Qed.
Example fmt_06d_min : fmt_06d (-2147483648) = "-2147483648". Proof. reflexivity. Qed.
Example get_block_path_ex :
  get_block_path "test.db" 12 = (0, "test.db.blocks/block_000012").
Proof. reflexivity. Qed.

Lemma to_int_id z : - 2 ^ 31 <= z < 2 ^ 31 -> to_int z = z.
Proof.
  intros Hz. unfold to_int, wrap.
  change (2 ^ (32 - 1)) with 2147483648 in *. change (2 ^ 32) with 4294967296.
  change (2 ^ 31) with 2147483648 in Hz.
  rewrite Z.mod_small by lia. lia.
Qed.

Lemma to_llong_id z : - 2 ^ 63 <= z < 2 ^ 63 -> to_llong z = z.
Proof.
  intros Hz. unfold to_llong, wrap.
  change (2 ^ (64 - 1)) with 9223372036854775808 in *.
  change (2 ^ 64) with 18446744073709551616.
  change (2 ^ 63) with 9223372036854775808 in Hz.
  rewrite Z.mod_small by lia. lia.
Qed.

Lemma to_int_range z : - 2 ^ 31 <= to_int z < 2 ^ 31.
Proof.
  unfold to_int, wrap.
  change (2 ^ (32 - 1)) with 2147483648. change (2 ^ 32) with 4294967296.
  change (2 ^ 31) with 2147483648.
  pose proof (Z.mod_pos_bound (z + 2147483648) 4294967296). lia.
Qed.

(** Two block indices less than [2^32] apart stay distinct as [int]s. *)
Lemma to_int_inj_near a b :
  to_int a = to_int b -> - 2 ^ 32 < a - b < 2 ^ 32 -> a = b.
Proof.
  unfold to_int, wrap.
  change (2 ^ (32 - 1)) with 2147483648. change (2 ^ 32) with 4294967296.
  intros Heq Hd.
  pose proof (Z.div_mod (a + 2147483648) 4294967296).
  pose proof (Z.div_mod (b + 2147483648) 4294967296).
  lia.
Qed.

Lemma c_div_nonneg a b : 0 <= a -> 0 < b -> c_div a b = a / b.
Proof. intros. unfold c_div. apply Z.quot_div_nonneg; lia. Qed.

Lemma c_mod_nonneg a b : 0 <= a -> 0 < b -> c_mod a b = a mod b.
Proof. intros. unfold c_mod. apply Z.rem_mod_nonneg; lia. Qed.

Lemma c_mod_bound a : - BLOCK_SIZE < c_mod a BLOCK_SIZE < BLOCK_SIZE.
Proof.
  unfold c_mod, BLOCK_SIZE.
  pose proof (Z.rem_bound_abs a 4096). lia.
Qed.

Lemma to_llong_add_l a b : to_llong (to_llong a + b) = to_llong (a + b).
Proof.
  unfold to_llong, wrap.
  change (2 ^ (64 - 1)) with 9223372036854775808.
  change (2 ^ 64) with 18446744073709551616.
  f_equal.
  replace ((a + 9223372036854775808) mod 18446744073709551616
           - 9223372036854775808 + b + 9223372036854775808)
    with ((a + 9223372036854775808) mod 18446744073709551616 + b) by lia.
  rewrite Zplus_mod_idemp_l. f_equal. lia.
Qed.

(** Where the position the loop has reached still is a [long long], or
    is block-aligned after the addition has wrapped, the block number
    and the block offset the code computes are those of the position. *)
Lemma cursor_block v :
  0 <= v <= LLONG_MAX + INT_MAX ->
  v <= LLONG_MAX \/ v mod BLOCK_SIZE = 0 ->
  to_int (c_div (to_llong v) BLOCK_SIZE) = to_int (v / BLOCK_SIZE)
  /\ c_mod (to_llong v) BLOCK_SIZE = v mod BLOCK_SIZE.
Proof.
  change LLONG_MAX with 9223372036854775807. change INT_MAX with 2147483647.
  change BLOCK_SIZE with 4096. intros Hv [Hs|Ha].
  - rewrite to_llong_id by lia.
    by rewrite c_div_nonneg, c_mod_nonneg by lia.
  - destruct (Z.le_gt_cases v 9223372036854775807) as [Hs|Hb].
    { rewrite to_llong_id by lia.
      by rewrite c_div_nonneg, c_mod_nonneg by lia. }
    pose proof (Z.div_mod v 4096 ltac:(lia)) as Hdm. rewrite Ha in Hdm.
    assert (Hw : to_llong v = (v / 4096 - 2 ^ 52) * 4096).
    { unfold to_llong, wrap.
      change (2 ^ (64 - 1)) with 9223372036854775808.
      change (2 ^ 64) with 18446744073709551616.
      change (2 ^ 52) with 4503599627370496.
      replace (v + 9223372036854775808)
        with (v - 9223372036854775808 + 1 * 18446744073709551616) by lia.
      rewrite Z_mod_plus_full. rewrite Z.mod_small by lia. lia. }
    rewrite Hw. unfold c_div, c_mod.
    rewrite Z.quot_mul by lia. rewrite Z.rem_mul by lia. rewrite Ha.
    split; [|done].
    unfold to_int, wrap. f_equal.
    change (2 ^ (32 - 1)) with 2147483648. change (2 ^ 32) with 4294967296.
    change (2 ^ 52) with 4503599627370496.
    replace (v / 4096 - 4503599627370496 + 2147483648)
      with (v / 4096 + 2147483648 + (- 1048576) * 4294967296) by lia.
    by rewrite Z_mod_plus_full.
Qed.

Lemma cursor_ok_next v size :
  0 <= v -> 0 < size ->
  cursor_ok (v + Z.min size (BLOCK_SIZE - v mod BLOCK_SIZE))
            (size - Z.min size (BLOCK_SIZE - v mod BLOCK_SIZE)).
Proof.
  intros Hv Hs. unfold cursor_ok. change BLOCK_SIZE with 4096.
  pose proof (Z.div_mod v 4096 ltac:(lia)) as Hdm.
  pose proof (Z.mod_pos_bound v 4096 ltac:(lia)) as Hmb.
  destruct (Z.le_gt_cases size (4096 - v mod 4096)) as [Hle|Hgt].
  - left. lia.
  - right. right. rewrite Z.min_r by lia.
    replace (v + (4096 - v mod 4096)) with ((v / 4096 + 1) * 4096) by lia.
    apply Z_mod_mult.
Qed.

(** *** Strings *)

Lemma str_length_app (a b : string) :
  String.length (a +:+ b) = (String.length a + String.length b)%nat.
Proof. induction a as [|c a IH]; simpl; [done | by rewrite IH]. Qed.

Lemma strlen_app (a b : string) : strlen (a +:+ b) = strlen a + strlen b.
Proof. unfold strlen. rewrite str_length_app. lia. Qed.

Lemma strlen_nonneg s : 0 <= strlen s.
Proof. unfold strlen. lia. Qed.

Lemma str_take_all n s : (String.length s <= n)%nat -> str_take n s = s.
Proof.
  revert n. induction s as [|c s IH]; intros [|n] Hn; simpl in *; try done; try lia.
  f_equal. apply IH. lia.
Qed.

Lemma str_take_length n s :
  String.length (str_take n s) = Nat.min n (String.length s).
Proof.
  revert n. induction s as [|c s IH]; intros [|n]; simpl; try done.
  by rewrite IH.
Qed.

Lemma str_app_inv_head (a b c : string) : a +:+ b = a +:+ c -> b = c.
Proof. induction a as [|x a IH]; simpl; [done|]. intros [= H]. auto. Qed.

Lemma str_app_assoc (a b c : string) : (a +:+ b) +:+ c = a +:+ b +:+ c.
Proof.
  induction a as [|x a IH]; [done|].
  change (String x ((a +:+ b) +:+ c) = String x (a +:+ b +:+ c)).
  by rewrite IH.
Qed.

(** *** Decimal conversion *)

Lemma digits_w_length w n acc :
  String.length (digits_w w n acc) = (w + String.length acc)%nat.
Proof.
  revert n acc. induction w as [|w IH]; intros n acc; simpl; [done|].
  rewrite IH. simpl. lia.
Qed.

Lemma ndigits_pos f n : (1 <= ndigits f n)%nat.
Proof. revert n. induction f; intros n; simpl; [lia|]. destruct (n <? 10); lia. Qed.

Lemma ndigits_le f n k :
  (1 <= k)%nat -> 0 <= n < 10 ^ Z.of_nat k -> (ndigits f n <= k)%nat.
Proof.
  revert n k. induction f as [|f IH]; intros n k Hk Hn; simpl; [lia|].
  destruct (Z.ltb_spec n 10); [lia|].
  destruct k as [|k]; [lia|].
  destruct k as [|k]; [simpl in Hn; lia|].
  apply le_n_S, IH; [lia|].
  rewrite Nat2Z.inj_succ, Z.pow_succ_r in Hn by lia.
  split; [apply Z.div_pos; lia|].
  apply Z.div_lt_upper_bound; lia.
Qed.

Lemma ndigits_bound f n :
  0 <= n < 10 ^ Z.of_nat (S f) -> n < 10 ^ Z.of_nat (ndigits f n).
Proof.
  revert n. induction f as [|f IH]; intros n Hn.
  - simpl in *. lia.
  - cbn [ndigits]. destruct (Z.ltb_spec n 10); [simpl; lia|].
    rewrite Nat2Z.inj_succ, Z.pow_succ_r in Hn by lia.
    assert (Hq : 0 <= n / 10 < 10 ^ Z.of_nat (S f)).
    { split; [apply Z.div_pos; lia|]. apply Z.div_lt_upper_bound; lia. }
    specialize (IH _ Hq).
    rewrite Nat2Z.inj_succ, Z.pow_succ_r by lia.
    pose proof (Z.div_mod n 10). pose proof (Z.mod_pos_bound n 10). lia.
Qed.

Lemma nat_of_digit_char d :
  0 <= d < 10 -> Z.of_nat (nat_of_ascii (digit_char d)) - 48 = d.
Proof.
  intros Hd. unfold digit_char. rewrite nat_ascii_embedding; lia.
Qed.

Lemma dec_value_digits_w w n acc s :
  0 <= n ->
  dec_value acc (digits_w w n s)
  = dec_value (acc * 10 ^ Z.of_nat w + n mod 10 ^ Z.of_nat w) s.
Proof.
  revert n s. induction w as [|w IH]; intros n s Hn.
  - simpl. rewrite Z.mod_1_r. f_equal. lia.
  - cbn [digits_w]. rewrite IH by (apply Z.div_pos; lia).
    cbn [dec_value]. rewrite nat_of_digit_char by (apply Z.mod_pos_bound; lia).
    f_equal. rewrite Nat2Z.inj_succ, Z.pow_succ_r by lia.
    assert (0 < 10 ^ Z.of_nat w) by (apply Z.pow_pos_nonneg; lia).
    rewrite (Z.rem_mul_r n 10 (10 ^ Z.of_nat w)) by lia. lia.
Qed.

Lemma dec_value_fmt_unsigned w n :
  0 <= n < 10 ^ 11 -> dec_value 0 (fmt_unsigned w n) = n.
Proof.
  intros Hn. unfold fmt_unsigned. rewrite dec_value_digits_w by lia.
  cbn [dec_value]. rewrite Z.mod_small; [lia|].
  split; [lia|].
  pose proof (ndigits_bound 10 n Hn).
  eapply Z.lt_le_trans; [eassumption|].
  apply Z.pow_le_mono_r; lia.
Qed.

Lemma digits_w_head w n acc :
  (0 < w)%nat -> exists d r, 0 <= d < 10 /\ digits_w w n acc = String (digit_char d) r.
Proof.
  revert n acc. induction w as [|w IH]; intros n acc Hw; [lia|].
  destruct w as [|w].
  - simpl. exists (n mod 10), acc. split; [apply Z.mod_pos_bound; lia | done].
  - cbn [digits_w]. apply (IH (n / 10)). lia.
Qed.

Lemma digit_char_cases d :
  0 <= d < 10 ->
  digit_char d <> "-"%char /\ digit_char d <> "/"%char.
Proof.
  intros Hd.
  assert (d = 0 \/ d = 1 \/ d = 2 \/ d = 3 \/ d = 4 \/ d = 5 \/ d = 6
          \/ d = 7 \/ d = 8 \/ d = 9) as Hc by lia.
  repeat destruct Hc as [-> | Hc]; try subst d; split; discriminate.
Qed.

Lemma fmt_unsigned_head w n :
  exists d r, 0 <= d < 10 /\ fmt_unsigned w n = String (digit_char d) r.
Proof.
  unfold fmt_unsigned. apply digits_w_head.
  pose proof (ndigits_pos 10 n). lia.
Qed.

(** [%06d] never prints two [int]s the same way. *)
Lemma fmt_06d_inj a b :
  - 2 ^ 31 <= a < 2 ^ 31 -> - 2 ^ 31 <= b < 2 ^ 31 ->
  fmt_06d a = fmt_06d b -> a = b.
Proof.
  intros Ha Hb. unfold fmt_06d.
  destruct (Z.ltb_spec a 0), (Z.ltb_spec b 0); intros Heq.
  - injection Heq as Heq.
    apply (f_equal (dec_value 0)) in Heq.
    rewrite !dec_value_fmt_unsigned in Heq by lia. lia.
  - destruct (fmt_unsigned_head 6 b) as (d & r & Hd & Hr).
    rewrite Hr in Heq. injection Heq as Hc _.
    destruct (digit_char_cases d Hd) as [Hm _]. congruence.
  - destruct (fmt_unsigned_head 6 a) as (d & r & Hd & Hr).
    rewrite Hr in Heq. injection Heq as Hc _.
    destruct (digit_char_cases d Hd) as [Hm _]. congruence.
  - apply (f_equal (dec_value 0)) in Heq.
    rewrite !dec_value_fmt_unsigned in Heq by lia. lia.
Qed.

Lemma fmt_06d_length_le n : (String.length (fmt_06d n) <= 12)%nat.
Proof.
  unfold fmt_06d, fmt_unsigned.
  assert (Hnd : forall f m, (ndigits f m <= S f)%nat).
  { induction f as [|f IH]; intros m; simpl; [lia|].
    destruct (m <? 10); [lia|]. specialize (IH (m / 10)). lia. }
  destruct (n <? 0); cbn [String.length]; rewrite digits_w_length;
    cbn [String.length].
  - specialize (Hnd 10%nat (- n)). lia.
  - specialize (Hnd 10%nat n). lia.
Qed.

Lemma fmt_06d_length_6 n :
  0 <= n < 10 ^ 6 -> String.length (fmt_06d n) = 6%nat.
Proof.
  intros Hn. unfold fmt_06d, fmt_unsigned.
  destruct (Z.ltb_spec n 0); [lia|].
  rewrite digits_w_length. simpl String.length.
  assert (H6 : 0 <= n < 10 ^ Z.of_nat 6) by (exact Hn).
  pose proof (ndigits_le 10 n 6 ltac:(lia) H6). lia.
Qed.


(** *** Block paths *)

Lemma get_block_path_eta fname n :
  get_block_path fname n
  = (if strlen (get_block_dir fname +:+ "/block_" +:+ fmt_06d n) >=? MAX_PATH_LEN
     then -1 else 0, block_path fname n).
Proof. reflexivity. Qed.

Lemma strlen_get_block_dir fname :
  strlen (get_block_dir fname) = Z.min 1023 (strlen fname + 7).
Proof.
  unfold get_block_dir, snprintf, strlen. cbn [fst].
  rewrite str_take_length, str_length_app.
  change (Z.to_nat (MAX_PATH_LEN - 1)) with 1023%nat.
  change (String.length ".blocks") with 7%nat. lia.
Qed.

Lemma get_block_dir_short fname :
  strlen fname + 7 < MAX_PATH_LEN -> get_block_dir fname = fname +:+ ".blocks".
Proof.
  intros H. unfold get_block_dir, snprintf. cbn [fst].
  apply str_take_all. unfold strlen in H.
  change (Z.to_nat (MAX_PATH_LEN - 1)) with 1023%nat.
  change MAX_PATH_LEN with 1024 in H.
  rewrite str_length_app. change (String.length ".blocks") with 7%nat. lia.
Qed.

Lemma path_ok_iff fname n :
  path_ok fname n <-> strlen fname + 14 + strlen (fmt_06d n) < MAX_PATH_LEN.
Proof.
  unfold path_ok. rewrite get_block_path_eta. cbn [fst].
  rewrite !strlen_app, strlen_get_block_dir.
  change (strlen "/block_") with 7. unfold MAX_PATH_LEN.
  pose proof (strlen_nonneg (fmt_06d n)). pose proof (strlen_nonneg fname).
  destruct (Z.geb_spec (Z.min 1023 (strlen fname + 7) + (7 + strlen (fmt_06d n))) 1024);
    split; intros; lia.
Qed.

Lemma path_ok_eq fname n :
  path_ok fname n ->
  block_path fname n = (fname +:+ ".blocks") +:+ "/block_" +:+ fmt_06d n.
Proof.
  intros Hok. apply path_ok_iff in Hok.
  pose proof (strlen_nonneg (fmt_06d n)).
  unfold block_path, get_block_path, snprintf. cbn [snd].
  rewrite get_block_dir_short by lia.
  apply str_take_all. rewrite !str_length_app.
  change (Z.to_nat (MAX_PATH_LEN - 1)) with 1023%nat.
  change MAX_PATH_LEN with 1024 in Hok. unfold strlen in *.
  change (String.length ".blocks") with 7%nat.
  change (String.length "/block_") with 7%nat. lia.
Qed.

Lemma get_block_path_ok fname n :
  path_ok fname n -> get_block_path fname n = (0, block_path fname n).
Proof.
  unfold path_ok, block_path. destruct (get_block_path fname n). cbn. by intros ->.
Qed.

Lemma get_block_path_not_ok fname n :
  ~ path_ok fname n -> fst (get_block_path fname n) = -1.
Proof.
  unfold path_ok. rewrite get_block_path_eta. cbn [fst].
  destruct (_ >=? _); [done|]. intros []. done.
Qed.

(** Distinct [int] block numbers have distinct paths. *)
Lemma block_path_inj fname a b :
  - 2 ^ 31 <= a < 2 ^ 31 -> - 2 ^ 31 <= b < 2 ^ 31 ->
  path_ok fname a -> path_ok fname b ->
  block_path fname a = block_path fname b -> a = b.
Proof.
  intros Ha Hb Hoa Hob. rewrite !path_ok_eq by done.
  intros Heq. apply str_app_inv_head in Heq.
  apply (str_app_inv_head "/block_") in Heq.
  by apply fmt_06d_inj.
Qed.

Lemma short_name_ok fname n : strlen fname <= 997 -> path_ok fname n.
Proof.
  intros H. apply path_ok_iff.
  pose proof (fmt_06d_length_le n). unfold strlen, MAX_PATH_LEN in *. lia.
Qed.

Lemma short_name_ok6 fname n :
  strlen fname <= 1003 -> 0 <= n < 10 ^ 6 -> path_ok fname n.
Proof.
  intros H Hn. apply path_ok_iff.
  pose proof (fmt_06d_length_6 n Hn). unfold strlen, MAX_PATH_LEN in *. lia.
Qed.

Lemma dirname_digits_w w n acc :
  dirname acc = None -> dirname (digits_w w n acc) = None.
Proof.
  revert n acc. induction w as [|w IH]; intros n acc Hacc; [done|].
  cbn [digits_w]. apply IH. cbn [dirname]. rewrite Hacc.
  destruct (digit_char_cases (n mod 10)) as [_ Hs];
    [apply Z.mod_pos_bound; lia|].
  apply Ascii.eqb_neq in Hs. by rewrite Hs.
Qed.

Lemma dirname_fmt_06d n : dirname (fmt_06d n) = None.
Proof.
  unfold fmt_06d, fmt_unsigned. destruct (n <? 0).
  - cbn [dirname]. by rewrite dirname_digits_w.
  - by apply dirname_digits_w.
Qed.

Lemma dirname_app_slash d s :
  dirname s = None -> dirname (d +:+ String "/" s) = Some d.
Proof.
  intros Hs. induction d as [|c d IH].
  - change (dirname (String "/" s) = Some EmptyString).
    cbn [dirname]. by rewrite Hs.
  - change (dirname (String c (d +:+ String "/" s)) = Some (String c d)).
    cbn [dirname]. by rewrite IH.
Qed.

Lemma dirname_block_path fname n :
  path_ok fname n -> dirname (block_path fname n) = Some (get_block_dir fname).
Proof.
  intros Hok. rewrite path_ok_eq by done.
  apply path_ok_iff in Hok. pose proof (strlen_nonneg (fmt_06d n)).
  rewrite get_block_dir_short by lia.
  apply (dirname_app_slash (fname +:+ ".blocks") ("block_" +:+ fmt_06d n)).
  change (dirname (String "b" (String "l" (String "o" (String "c"
    (String "k" (String "_" (fmt_06d n))))))) = None).
  cbn [dirname]. by rewrite dirname_fmt_06d.
Qed.

(** Once the block directory exists, any block file can be created. *)
Lemma parent_exists_block_path (fs : filesys) fname n :
  path_ok fname n -> fs !! get_block_dir fname = Some Dir ->
  parent_exists fs (block_path fname n) = true.
Proof.
  intros Hok Hdir. unfold parent_exists.
  rewrite dirname_block_path by done.
  destruct (get_block_dir fname); [done|]. by rewrite Hdir.
Qed.


(** *** Buffers *)

Lemma length_zeros n : length (zeros n) = Z.to_nat n.
Proof. apply length_replicate. Qed.

Lemma byte_at_zeros n i : byte_at (zeros n) i = x00.
Proof.
  unfold byte_at, zeros.
  destruct (replicate _ _ !! _) eqn:E; [|done].
  apply lookup_replicate in E as [-> _]. done.
Qed.

Lemma byte_at_ge l i : Z.of_nat (length l) <= i -> byte_at l i = x00.
Proof.
  intros H. unfold byte_at. rewrite lookup_ge_None_2; [done | lia].
Qed.

Lemma byte_at_app_l l1 l2 i :
  0 <= i < Z.of_nat (length l1) -> byte_at (l1 ++ l2) i = byte_at l1 i.
Proof. intros H. unfold byte_at. rewrite lookup_app_l; [done | lia]. Qed.

Lemma byte_at_app_r l1 l2 i :
  Z.of_nat (length l1) <= i ->
  byte_at (l1 ++ l2) i = byte_at l2 (i - Z.of_nat (length l1)).
Proof.
  intros H. unfold byte_at. rewrite lookup_app_r by lia.
  do 2 f_equal. lia.
Qed.

Lemma byte_at_take l n i : 0 <= i < n -> byte_at (take (Z.to_nat n) l) i = byte_at l i.
Proof. intros H. unfold byte_at. rewrite lookup_take_lt; [done | lia]. Qed.

Lemma byte_at_drop l n i :
  0 <= n -> 0 <= i -> byte_at (drop (Z.to_nat n) l) i = byte_at l (n + i).
Proof.
  intros Hn Hi. unfold byte_at. rewrite lookup_drop. do 2 f_equal. lia.
Qed.

Lemma length_store_at dst off src :
  0 <= off -> off + Z.of_nat (length src) <= Z.of_nat (length dst) ->
  length (store_at dst off src) = length dst.
Proof.
  intros Ho Hl. unfold store_at.
  rewrite !length_app, length_take, length_drop. lia.
Qed.

Lemma byte_at_store_at dst off src i :
  0 <= off -> off + Z.of_nat (length src) <= Z.of_nat (length dst) -> 0 <= i ->
  byte_at (store_at dst off src) i
  = if (off <=? i) && (i <? off + Z.of_nat (length src))
    then byte_at src (i - off) else byte_at dst i.
Proof.
  intros Ho Hl Hi. unfold store_at.
  destruct (Z.leb_spec off i); cbn [andb].
  - rewrite byte_at_app_r by (rewrite length_take; lia).
    rewrite length_take.
    replace (Z.of_nat (Z.to_nat off `min` length dst)) with off by lia.
    destruct (Z.ltb_spec i (off + Z.of_nat (length src))).
    + rewrite byte_at_app_l by lia. done.
    + rewrite byte_at_app_r by lia.
      unfold byte_at. rewrite lookup_drop. do 2 f_equal. lia.
  - rewrite byte_at_app_l by (rewrite length_take; lia).
    unfold byte_at. rewrite lookup_take_lt; [done | lia].
Qed.

Lemma byte_at_map_seqZ (f : Z -> byte) m n i :
  0 <= i < n -> byte_at (f <$> seqZ m n) i = f (m + i).
Proof.
  intros H. unfold byte_at. rewrite list_lookup_fmap.
  rewrite lookup_seqZ_lt by lia. cbn. f_equal. lia.
Qed.

(** A list of bytes is determined by its length and its bytes. *)
Lemma bytes_eq (l1 l2 : list byte) :
  length l1 = length l2 ->
  (forall i, 0 <= i < Z.of_nat (length l1) -> byte_at l1 i = byte_at l2 i) ->
  l1 = l2.
Proof.
  intros Hlen Hb. apply list_eq. intros i.
  destruct (decide (i < length l1)%nat) as [Hi|Hi].
  - specialize (Hb (Z.of_nat i) ltac:(lia)). unfold byte_at in Hb.
    rewrite Nat2Z.id in Hb.
    destruct (lookup_lt_is_Some_2 l1 i Hi) as [x Hx].
    destruct (lookup_lt_is_Some_2 l2 i ltac:(lia)) as [y Hy].
    rewrite Hx, Hy in *. cbn in Hb. by subst.
  - rewrite !lookup_ge_None_2; [done | lia | lia].
Qed.

(** What one turn of [block_read] stores: the stream's bytes from
    [block_offset] on, then zeros. *)
Lemma read_chunk stream boff n :
  0 <= boff -> 0 <= n ->
  (let got := fread stream boff n in
   if Z.of_nat (length got) <? n
   then got ++ zeros (n - Z.of_nat (length got)) else got)
  = (fun i => byte_at stream i) <$> seqZ boff n.
Proof.
  intros Hb Hn. cbv zeta. set (got := fread stream boff n).
  assert (Hgl : Z.of_nat (length got) <= n).
  { unfold got, fread. rewrite length_take. lia. }
  assert (Hgb : forall i, 0 <= i < Z.of_nat (length got) ->
                          byte_at got i = byte_at stream (boff + i)).
  { intros i Hi. unfold got, fread. rewrite byte_at_take by lia.
    by rewrite byte_at_drop by lia. }
  assert (Hge : Z.of_nat (length got) < n ->
                Z.of_nat (length stream) <= boff + Z.of_nat (length got)).
  { unfold got, fread. rewrite length_take, length_drop. lia. }
  apply bytes_eq.
  - rewrite length_fmap, length_seqZ.
    destruct (Z.ltb_spec (Z.of_nat (length got)) n).
    + rewrite length_app, length_zeros. lia.
    + lia.
  - intros i Hi. rewrite byte_at_map_seqZ.
    2:{ destruct (Z.ltb_spec (Z.of_nat (length got)) n).
        - rewrite length_app, length_zeros in Hi. lia.
        - lia. }
    destruct (Z.ltb_spec (Z.of_nat (length got)) n).
    + destruct (Z.lt_ge_cases i (Z.of_nat (length got))).
      * rewrite byte_at_app_l by lia. apply Hgb. lia.
      * rewrite byte_at_app_r by lia. rewrite byte_at_zeros.
        symmetry. apply byte_at_ge. lia.
    + apply Hgb. lia.
Qed.


(** ** [block_read] *)

Lemma chunk_pos offset pos :
  0 <= offset ->
  offset <= pos < offset + (BLOCK_SIZE - offset mod BLOCK_SIZE) ->
  pos / BLOCK_SIZE = offset / BLOCK_SIZE
  /\ pos mod BLOCK_SIZE = offset mod BLOCK_SIZE + (pos - offset).
Proof.
  change BLOCK_SIZE with 4096. intros Ho Hp.
  pose proof (Z.div_mod offset 4096 ltac:(lia)) as Hdm.
  pose proof (Z.mod_pos_bound offset 4096 ltac:(lia)) as Hmb.
  assert (Hpos : pos = 4096 * (offset / 4096)
                       + (offset mod 4096 + (pos - offset))) by lia.
  split.
  - symmetry. eapply Z.div_unique_pos; [|exact Hpos]. lia.
  - symmetry. eapply Z.mod_unique_pos; [|exact Hpos]. lia.
Qed.

Lemma path_ok_dec fname n : {path_ok fname n} + {~ path_ok fname n}.
Proof. unfold path_ok. apply Z.eq_dec. Qed.

Section Read.
Variable fs : filesys.
Variable fname : string.

(** One turn of the loop stores the logical bytes of its sub-span. *)
Lemma read_turn_bytes offset n :
  0 <= offset -> 0 <= n <= BLOCK_SIZE - offset mod BLOCK_SIZE ->
  match fopen_rb fs (block_path fname (to_int (offset / BLOCK_SIZE))) with
  | None => zeros n
  | Some stream =>
      let got := fread stream (offset mod BLOCK_SIZE) n in
      if Z.of_nat (length got) <? n
      then got ++ zeros (n - Z.of_nat (length got)) else got
  end = logical_byte fs fname <$> seqZ offset n.
Proof.
  intros Ho Hn.
  pose proof (Z.mod_pos_bound offset BLOCK_SIZE ltac:(done)) as Hmb.
  assert (Hlb : forall i, 0 <= i < n ->
    logical_byte fs fname (offset + i)
    = block_byte fs (block_path fname (to_int (offset / BLOCK_SIZE)))
        (offset mod BLOCK_SIZE + i)).
  { intros i Hi. unfold logical_byte.
    destruct (chunk_pos offset (offset + i) Ho ltac:(lia)) as [-> ->].
    do 2 f_equal. lia. }
  destruct (fopen_rb fs _) as [stream|] eqn:Hopen.
  - rewrite read_chunk by lia. apply bytes_eq.
    + by rewrite !length_fmap, !length_seqZ.
    + intros i Hi. rewrite length_fmap, length_seqZ in Hi.
      rewrite !byte_at_map_seqZ by lia. rewrite Hlb by lia.
      unfold block_byte. by rewrite Hopen.
  - apply bytes_eq.
    + by rewrite length_zeros, length_fmap, length_seqZ.
    + intros i Hi. rewrite length_zeros in Hi.
      rewrite byte_at_zeros, byte_at_map_seqZ by lia. rewrite Hlb by lia.
      unfold block_byte. by rewrite Hopen.
Qed.

Lemma read_loop_spec fuel : forall out size v total,
  (Z.to_nat size <= fuel)%nat -> 0 <= size -> 0 <= v ->
  v + size <= LLONG_MAX + INT_MAX -> cursor_ok v size ->
  0 <= total -> total + size <= INT_MAX ->
  (paths_ok fname v size
   /\ read_loop fuel fs fname out size (to_llong v) total
      = (total + size, out ++ (logical_byte fs fname <$> seqZ v size)))
  \/ (~ paths_ok fname v size
      /\ fst (read_loop fuel fs fname out size (to_llong v) total) = -1).
Proof.
  induction fuel as [|fuel IH];
    intros out size v total Hf Hs Hv Hmax Hcur Ht Hint.
  { left. assert (size = 0) as -> by lia. split.
    - intros pos Hp. lia.
    - cbn. rewrite seqZ_nil by lia. rewrite app_nil_r. do 2 f_equal. lia. }
  cbn [read_loop]. destruct (Z.gtb_spec size 0) as [Hpos|Hz].
  2:{ left. assert (size = 0) as -> by lia. split.
      - intros pos Hp. lia.
      - rewrite seqZ_nil by lia. rewrite app_nil_r. do 2 f_equal. lia. }
  pose proof (Z.mod_pos_bound v BLOCK_SIZE ltac:(done)) as Hmb.
  destruct (cursor_block v) as [Hdiv Hmod]; [lia | |].
  { destruct Hcur as [|]; [lia | done]. }
  rewrite Hdiv, Hmod.
  rewrite (to_int_id (v mod BLOCK_SIZE))
    by (change BLOCK_SIZE with 4096 in *; lia).
  set (boff := v mod BLOCK_SIZE) in *.
  assert (Htr : (if size <? BLOCK_SIZE - boff then size
                 else BLOCK_SIZE - boff) = Z.min size (BLOCK_SIZE - boff)).
  { destruct (Z.ltb_spec size (BLOCK_SIZE - boff)); lia. }
  rewrite Htr.
  pose proof (cursor_ok_next v size Hv Hpos) as Hnext. fold boff in Hnext.
  set (tr := Z.min size (BLOCK_SIZE - boff)) in *.
  assert (Htrb : 0 < tr <= size /\ tr <= BLOCK_SIZE - boff) by (unfold tr; lia).
  destruct (path_ok_dec fname (to_int (v / BLOCK_SIZE))) as [Hok|Hbad].
  2:{ right. split.
      - intros Hall. apply Hbad, Hall. lia.
      - rewrite (surjective_pairing (get_block_path _ _)).
        rewrite get_block_path_not_ok by done. done. }
  rewrite get_block_path_ok by done.
  change (negb (0 =? 0)) with false. cbv iota.
  assert (Hseek : fseek boff = 0).
  { unfold fseek. destruct (Z.ltb_spec boff 0); [lia | done]. }
  rewrite Hseek. change (negb (0 =? 0)) with false.
  assert (INT_MAX = 2147483647) as HIM by reflexivity.
  rewrite to_llong_add_l.
  rewrite (to_int_id (total + tr)) by lia.
  pose proof (read_turn_bytes v tr Hv ltac:(fold boff; lia)) as Hturn.
  fold boff in Hturn.
  assert (Hsplit :
    out ++ (logical_byte fs fname <$> seqZ v size)
    = (out ++ (logical_byte fs fname <$> seqZ v tr))
        ++ (logical_byte fs fname <$> seqZ (v + tr) (size - tr))).
  { replace size with (tr + (size - tr)) at 1 by lia.
    rewrite seqZ_app by lia. by rewrite fmap_app, app_assoc. }
  assert (Hpaths : paths_ok fname v size
                   <-> paths_ok fname (v + tr) (size - tr)).
  { split; intros Hall pos Hp.
    - apply Hall. lia.
    - destruct (Z.lt_ge_cases pos (v + tr)).
      + destruct (chunk_pos v pos Hv ltac:(fold boff; lia)) as [-> _].
        done.
      + apply Hall. lia. }
  specialize (IH (out ++ (logical_byte fs fname <$> seqZ v tr))
                (size - tr) (v + tr) (total + tr)
                ltac:(lia) ltac:(lia) ltac:(lia) ltac:(lia) Hnext
                ltac:(lia) ltac:(lia)).
  rewrite Hpaths, Hsplit.
  replace (total + size) with (total + tr + (size - tr)) by lia.
  destruct (fopen_rb fs _) as [stream|]; cbv zeta in *; rewrite Hturn;
    exact IH.
Qed.
End Read.


(** ** [block_write] *)

Lemma fopen_wb_eq (fs fs1 : filesys) p :
  fopen_wb fs p = Some fs1 -> fs1 = <[p := File []]> fs.
Proof.
  unfold fopen_wb. destruct (fs !! p) as [[d|]|]; [| done |].
  - by intros [= <-].
  - destruct (parent_exists fs p); [by intros [= <-] | done].
Qed.

Lemma fopen_wb_fwrite (fs fs1 : filesys) p src n :
  fopen_wb fs p = Some fs1 ->
  fwrite fs1 p src n
  = (Z.of_nat (length (take (Z.to_nat n) src)),
     <[p := File (take (Z.to_nat n) src)]> fs).
Proof.
  intros ->%fopen_wb_eq. unfold fwrite.
  rewrite lookup_insert_eq. cbn [app]. by rewrite insert_insert_eq.
Qed.

(** The scratch block of a read-modify-write: the block file's bytes,
    zero-padded to a whole block. *)
Lemma scratch_block (fs : filesys) p :
  let block_data :=
    match fopen_rb fs p with
    | Some existing => store_at (zeros BLOCK_SIZE) 0 (fread existing 0 BLOCK_SIZE)
    | None => zeros BLOCK_SIZE
    end in
  length block_data = Z.to_nat BLOCK_SIZE
  /\ forall i, 0 <= i < BLOCK_SIZE -> byte_at block_data i = block_byte fs p i.
Proof.
  cbv zeta. change BLOCK_SIZE with 4096.
  unfold block_byte. destruct (fopen_rb fs p) as [ex|].
  - assert (Hl : Z.of_nat (length (fread ex 0 4096)) <= 4096).
    { unfold fread. rewrite length_take. lia. }
    split.
    + rewrite length_store_at; rewrite ?length_zeros; lia.
    + intros i Hi. rewrite byte_at_store_at by (rewrite ?length_zeros; lia).
      destruct (Z.leb_spec 0 i); [|lia]. cbn [andb].
      destruct (Z.ltb_spec i (0 + Z.of_nat (length (fread ex 0 4096)))).
      * unfold fread. rewrite byte_at_take by lia.
        change (Z.to_nat 0) with 0%nat. rewrite drop_0. f_equal. lia.
      * rewrite byte_at_zeros. symmetry. apply byte_at_ge.
        unfold fread in *. rewrite length_take, length_drop in *. lia.
  - split; [apply length_zeros | intros; apply byte_at_zeros].
Qed.

Section Write.
Variable fname : string.

Lemma write_loop_bad_path fuel (fs : filesys) buf size v total :
  0 < size -> 0 <= v -> v + size <= LLONG_MAX + INT_MAX -> cursor_ok v size ->
  ~ path_ok fname (to_int (v / BLOCK_SIZE)) ->
  write_loop (S fuel) fs fname buf size (to_llong v) total = (-1, fs).
Proof.
  intros Hs Hv Hmax Hcur Hbad. cbn [write_loop].
  destruct (Z.gtb_spec size 0) as [_|]; [|lia].
  destruct (cursor_block v) as [Hdiv _]; [lia | |].
  { destruct Hcur as [|]; [lia | done]. }
  rewrite Hdiv.
  rewrite (surjective_pairing (get_block_path _ _)).
  rewrite get_block_path_not_ok by done. done.
Qed.

(** One turn of the loop of [block_write], once the block path fits:
    unless the block file cannot be opened for writing, the block file
    is replaced by a whole block, the bytes of the sub-span overlaid on
    what the block held, and the loop goes on behind the sub-span. *)
Lemma write_loop_step fuel (fs : filesys) buf size v total :
  0 < size -> 0 <= v -> v + size <= LLONG_MAX + INT_MAX -> cursor_ok v size ->
  0 <= total -> total + size <= INT_MAX -> size <= Z.of_nat (length buf) ->
  path_ok fname (to_int (v / BLOCK_SIZE)) ->
  let boff := v mod BLOCK_SIZE in
  let tw := Z.min size (BLOCK_SIZE - boff) in
  let p0 := block_path fname (to_int (v / BLOCK_SIZE)) in
  exists D,
    length D = Z.to_nat BLOCK_SIZE
    /\ (forall i, 0 <= i < BLOCK_SIZE ->
          byte_at D i = if (boff <=? i) && (i <? boff + tw)
                        then byte_at buf (i - boff)
                        else block_byte fs p0 i)
    /\ write_loop (S fuel) fs fname buf size (to_llong v) total
       = match fopen_wb fs p0 with
         | Some _ =>
             write_loop fuel (<[p0 := File D]> fs) fname
               (drop (Z.to_nat tw) buf) (size - tw) (to_llong (v + tw))
               (total + tw)
         | None => (-1, fs)
         end.
Proof.
  intros Hs Hv Hmax Hcur Ht Hint Hbuf Hok boff tw p0.
  cbn [write_loop].
  destruct (Z.gtb_spec size 0) as [_|]; [|lia].
  pose proof (Z.mod_pos_bound v BLOCK_SIZE ltac:(done)) as Hmb.
  destruct (cursor_block v) as [Hdiv Hmod]; [lia | |].
  { destruct Hcur as [|]; [lia | done]. }
  rewrite Hdiv, Hmod.
  rewrite (to_int_id (v mod BLOCK_SIZE))
    by (change BLOCK_SIZE with 4096 in *; lia).
  fold boff. fold boff in Hmb.
  assert (Htw : (if size <? BLOCK_SIZE - boff then size
                 else BLOCK_SIZE - boff) = tw).
  { unfold tw. destruct (Z.ltb_spec size (BLOCK_SIZE - boff)); lia. }
  rewrite Htw.
  assert (Htwb : 0 < tw <= size /\ tw <= BLOCK_SIZE - boff) by (unfold tw; lia).
  rewrite get_block_path_ok by done. fold p0.
  change (negb (0 =? 0)) with false. cbv iota.
  assert (INT_MAX = 2147483647) as HIM by reflexivity.
  rewrite to_llong_add_l.
  rewrite (to_int_id (total + tw)) by lia.
  destruct (scratch_block fs p0) as [Hsl Hsb]. cbv zeta in Hsl, Hsb.
  assert (Hsrc : Z.of_nat (length (take (Z.to_nat tw) buf)) = tw)
    by (rewrite length_take; lia).
  destruct (negb (boff =? 0) || negb (tw =? BLOCK_SIZE)) eqn:Hpart.
  - (* read-modify-write *)
    set (scratch := match fopen_rb fs p0 with
                    | Some existing =>
                        store_at (zeros BLOCK_SIZE) 0 (fread existing 0 BLOCK_SIZE)
                    | None => zeros BLOCK_SIZE
                    end) in *.
    set (D := store_at scratch boff (take (Z.to_nat tw) buf)) in *.
    assert (HDl : length D = Z.to_nat BLOCK_SIZE).
    { unfold D. rewrite length_store_at; [done | lia | lia]. }
    exists D. split; [done|]. split.
    + intros i Hi. unfold D.
      rewrite byte_at_store_at by lia. rewrite Hsrc.
      destruct ((boff <=? i) && (i <? boff + tw)) eqn:Hin.
      * apply byte_at_take. lia.
      * by apply Hsb.
    + destruct (fopen_wb fs p0) as [fs1|] eqn:Hwb; [|done].
      rewrite (fopen_wb_fwrite _ _ _ _ _ Hwb).
      rewrite firstn_all2 by lia. rewrite HDl.
      replace (Z.of_nat (Z.to_nat BLOCK_SIZE)) with BLOCK_SIZE by done.
      rewrite Z.eqb_refl. done.
  - (* full block write *)
    apply orb_false_iff in Hpart as [Hb0 Htw0].
    apply negb_false_iff, Z.eqb_eq in Hb0, Htw0.
    exists (take (Z.to_nat tw) buf). split; [|split].
    + rewrite <- Htw0. lia.
    + intros i Hi. rewrite Hb0.
      destruct (Z.leb_spec 0 i); [|lia].
      destruct (Z.ltb_spec i (0 + tw)); [|lia]. cbn [andb].
      rewrite byte_at_take by lia. f_equal. lia.
    + destruct (fopen_wb fs p0) as [fs1|] eqn:Hwb; [|done].
      rewrite (fopen_wb_fwrite _ _ _ _ _ Hwb).
      rewrite Hsrc, Z.eqb_refl. done.
Qed.

(** The same, read off a turn that did not return -1. *)
Lemma write_turn fuel (fs : filesys) buf size v total r fs' :
  0 < size -> 0 <= v -> v + size <= LLONG_MAX + INT_MAX -> cursor_ok v size ->
  0 <= total -> total + size <= INT_MAX -> size <= Z.of_nat (length buf) ->
  write_loop (S fuel) fs fname buf size (to_llong v) total = (r, fs') ->
  r <> -1 ->
  let boff := v mod BLOCK_SIZE in
  let tw := Z.min size (BLOCK_SIZE - boff) in
  let p0 := block_path fname (to_int (v / BLOCK_SIZE)) in
  exists D,
    path_ok fname (to_int (v / BLOCK_SIZE))
    /\ length D = Z.to_nat BLOCK_SIZE
    /\ (forall i, 0 <= i < BLOCK_SIZE ->
          byte_at D i = if (boff <=? i) && (i <? boff + tw)
                        then byte_at buf (i - boff)
                        else block_byte fs p0 i)
    /\ write_loop fuel (<[p0 := File D]> fs) fname
         (drop (Z.to_nat tw) buf) (size - tw) (to_llong (v + tw)) (total + tw)
       = (r, fs').
Proof.
  intros Hs Hv Hmax Hcur Ht Hint Hbuf Hrun Hr boff tw p0.
  destruct (path_ok_dec fname (to_int (v / BLOCK_SIZE))) as [Hok|Hbad].
  2:{ rewrite write_loop_bad_path in Hrun by done. congruence. }
  destruct (write_loop_step fuel fs buf size v total)
    as (D & HDl & HDb & Hstep); try done.
  rewrite Hstep in Hrun. fold p0 tw in Hrun.
  destruct (fopen_wb fs p0); [|congruence].
  exists D. done.
Qed.
End Write.


Section WriteSpec.
Variable fname : string.

Local Abbreviation bpath pos := (block_path fname (to_int (pos / BLOCK_SIZE))).

(** Two positions of one request that lie in different blocks use
    different block files. *)
Lemma span_paths_differ offset size pos pos' :
  0 <= offset -> size <= INT_MAX ->
  offset <= pos < offset + size -> offset <= pos' < offset + size ->
  path_ok fname (to_int (pos / BLOCK_SIZE)) ->
  path_ok fname (to_int (pos' / BLOCK_SIZE)) ->
  pos / BLOCK_SIZE <> pos' / BLOCK_SIZE -> bpath pos <> bpath pos'.
Proof.
  intros Ho Hs Hp Hp' Hok Hok' Hne Heq. apply Hne.
  apply block_path_inj in Heq; [| apply to_int_range .. | done | done].
  apply to_int_inj_near; [done|].
  change BLOCK_SIZE with 4096 in *. change INT_MAX with 2147483647 in Hs.
  pose proof (Z.div_le_mono offset pos 4096 ltac:(lia) ltac:(lia)).
  pose proof (Z.div_le_mono offset pos' 4096 ltac:(lia) ltac:(lia)).
  pose proof (Z.div_le_mono pos (offset + 2147483647) 4096 ltac:(lia) ltac:(lia)).
  pose proof (Z.div_le_mono pos' (offset + 2147483647) 4096 ltac:(lia) ltac:(lia)).
  pose proof (Z.div_mod offset 4096 ltac:(lia)).
  pose proof (Z.mod_pos_bound offset 4096 ltac:(lia)).
  pose proof (Z.div_mod (offset + 2147483647) 4096 ltac:(lia)).
  pose proof (Z.mod_pos_bound (offset + 2147483647) 4096 ltac:(lia)).
  lia.
Qed.

Lemma write_loop_spec fuel : forall (fs : filesys) buf size offset total r fs',
  (Z.to_nat size <= fuel)%nat -> 0 <= size -> 0 <= offset ->
  offset + size <= LLONG_MAX + INT_MAX -> cursor_ok offset size ->
  0 <= total -> total + size <= INT_MAX ->
  size <= Z.of_nat (length buf) ->
  write_loop fuel fs fname buf size (to_llong offset) total = (r, fs') ->
  r <> -1 ->
  r = total + size
  /\ paths_ok fname offset size
  /\ (forall p, (forall pos, offset <= pos < offset + size -> p <> bpath pos) ->
        fs' !! p = fs !! p)
  /\ (forall pos, offset <= pos < offset + size ->
        exists d, fs' !! bpath pos = Some (File d)
          /\ length d = Z.to_nat BLOCK_SIZE
          /\ forall i, 0 <= i < BLOCK_SIZE ->
               byte_at d i
               = if in_span offset size (pos / BLOCK_SIZE * BLOCK_SIZE + i)
                 then byte_at buf (pos / BLOCK_SIZE * BLOCK_SIZE + i - offset)
                 else block_byte fs (bpath pos) i).
Proof.
  induction fuel as [|fuel IH];
    intros fs buf size offset total r fs' Hf Hs Ho Hll Hcur Ht Hint Hbuf Hrun Hr.
  { assert (size = 0) as -> by lia. cbn in Hrun. injection Hrun as <- <-.
    repeat split; try lia; try done; intros pos Hp; lia. }
  destruct (Z.eq_dec size 0) as [->|Hnz].
  { cbn in Hrun. injection Hrun as <- <-.
    repeat split; try lia; try done; intros pos Hp; lia. }
  destruct (write_turn fname fuel fs buf size offset total r fs')
    as (D & Hok & HDl & HDb & Hrest); try done; try lia.
  set (boff := offset mod BLOCK_SIZE) in *.
  set (tw := Z.min size (BLOCK_SIZE - boff)) in *.
  set (p0 := bpath offset) in *.
  pose proof (Z.mod_pos_bound offset BLOCK_SIZE ltac:(done)) as Hmb.
  fold boff in Hmb.
  pose proof (Z.div_mod offset BLOCK_SIZE ltac:(done)) as Hdm. fold boff in Hdm.
  assert (Htwb : 0 < tw <= size /\ tw <= BLOCK_SIZE - boff) by (unfold tw; lia).
  assert (Hfirst : forall pos, offset <= pos < offset + tw ->
                     pos / BLOCK_SIZE = offset / BLOCK_SIZE).
  { intros pos Hp. apply chunk_pos; [done|]. fold boff. lia. }
  assert (Hlater : forall pos, offset + tw <= pos < offset + size ->
                     offset / BLOCK_SIZE < pos / BLOCK_SIZE
                     /\ tw = BLOCK_SIZE - boff).
  { intros pos Hp. assert (tw = BLOCK_SIZE - boff) as Htw by (unfold tw; lia).
    split; [|done].
    assert (offset / BLOCK_SIZE + 1 <= pos / BLOCK_SIZE); [|lia].
    apply Z.div_le_lower_bound; [done|]. lia. }
  apply IH in Hrest as (Hr' & Hpok & Hframe & Hblocks);
    [| lia | lia | lia | lia | | lia | lia | | done].
  2:{ apply cursor_ok_next; lia. }
  2:{ rewrite length_drop. lia. }
  assert (Hall : paths_ok fname offset size).
  { intros pos Hp. destruct (Z.lt_ge_cases pos (offset + tw)).
    - by rewrite Hfirst by lia.
    - apply Hpok. lia. }
  assert (Hp0 : forall pos, offset + tw <= pos < offset + size ->
                  p0 <> bpath pos).
  { intros pos Hp. destruct (Hlater pos Hp) as [Hlt _].
    unfold p0.
    apply (span_paths_differ offset size offset pos);
      [done | lia | lia | lia | apply Hall; lia | apply Hall; lia | lia]. }
  split; [lia|]. split; [done|]. split.
  - intros p Hp. rewrite Hframe.
    + apply lookup_insert_ne. intros <-. by apply (Hp offset ltac:(lia)).
    + intros pos Hpos. apply Hp. lia.
  - intros pos Hpos. destruct (Z.lt_ge_cases pos (offset + tw)) as [Hlt|Hge].
    + rewrite (Hfirst pos) by lia. fold p0.
      exists D. split; [|split; [done|]].
      * rewrite Hframe; [apply lookup_insert_eq|].
        intros pos' Hpos'. apply Hp0. lia.
      * intros i Hi. rewrite HDb by done. unfold in_span.
        replace (offset / BLOCK_SIZE * BLOCK_SIZE + i - offset)
          with (i - boff) by lia.
        assert (((boff <=? i) && (i <? boff + tw))
                = ((offset <=? offset / BLOCK_SIZE * BLOCK_SIZE + i)
                   && (offset / BLOCK_SIZE * BLOCK_SIZE + i <? offset + size)))
          as ->; [|done].
        destruct (Z.leb_spec boff i), (Z.ltb_spec i (boff + tw)),
          (Z.leb_spec offset (offset / BLOCK_SIZE * BLOCK_SIZE + i)),
          (Z.ltb_spec (offset / BLOCK_SIZE * BLOCK_SIZE + i) (offset + size));
          cbn; try done; lia.
    + destruct (Hlater pos ltac:(lia)) as [Hq Htw].
      destruct (Hblocks pos ltac:(lia)) as (d & Hd & Hdl & Hdb).
      exists d. split; [done|]. split; [done|].
      intros i Hi. rewrite Hdb by done. unfold in_span.
      assert (Hx : offset + tw <= pos / BLOCK_SIZE * BLOCK_SIZE + i) by nia.
      replace (offset + tw + (size - tw)) with (offset + size) by lia.
      destruct (Z.leb_spec (offset + tw) (pos / BLOCK_SIZE * BLOCK_SIZE + i));
        [|lia].
      destruct (Z.leb_spec offset (pos / BLOCK_SIZE * BLOCK_SIZE + i)); [|lia].
      cbn [andb].
      destruct (Z.ltb_spec (pos / BLOCK_SIZE * BLOCK_SIZE + i) (offset + size)).
      * rewrite byte_at_drop by lia. f_equal. lia.
      * unfold block_byte, fopen_rb.
        rewrite lookup_insert_ne; [done|]. apply Hp0. lia.
Qed.
End WriteSpec.

(** *** When a write succeeds *)

Lemma block_path_ne_dir fname k :
  path_ok fname k -> block_path fname k <> get_block_dir fname.
Proof.
  intros Hok Heq. rewrite path_ok_eq in Heq by done.
  apply path_ok_iff in Hok. pose proof (strlen_nonneg (fmt_06d k)).
  rewrite get_block_dir_short in Heq by lia.
  apply (f_equal String.length) in Heq.
  rewrite !str_length_app in Heq.
  change (String.length "/block_") with 7%nat in Heq. lia.
Qed.

Lemma fopen_wb_is_Some (fs : filesys) fname k :
  path_ok fname k -> fs !! get_block_dir fname = Some Dir ->
  fs !! block_path fname k <> Some Dir ->
  is_Some (fopen_wb fs (block_path fname k)).
Proof.
  intros Hok Hdir Hnd. unfold fopen_wb.
  destruct (fs !! block_path fname k) as [[d|]|]; [done | done |].
  by rewrite parent_exists_block_path.
Qed.

Section WriteSucceeds.
Variable fname : string.

Local Abbreviation bpath pos := (block_path fname (to_int (pos / BLOCK_SIZE))).

(** With the block directory in place, block paths that fit and no
    directory in the way of a block file, the loop writes the whole
    request. *)
Lemma write_loop_succeeds fuel : forall (fs : filesys) buf size offset total,
  (Z.to_nat size <= fuel)%nat -> 0 <= size -> 0 <= offset ->
  offset + size <= LLONG_MAX + INT_MAX -> cursor_ok offset size ->
  0 <= total -> total + size <= INT_MAX ->
  size <= Z.of_nat (length buf) ->
  paths_ok fname offset size -> fs !! get_block_dir fname = Some Dir ->
  (forall pos, offset <= pos < offset + size -> fs !! bpath pos <> Some Dir) ->
  fst (write_loop fuel fs fname buf size (to_llong offset) total) = total + size.
Proof.
  induction fuel as [|fuel IH];
    intros fs buf size offset total Hf Hs Ho Hll Hcur Ht Hint Hbuf Hok Hdir Hnd.
  { assert (size = 0) as -> by lia. cbn. lia. }
  destruct (Z.eq_dec size 0) as [->|Hnz]; [cbn; lia|].
  destruct (write_loop_step fname fuel fs buf size offset total)
    as (D & HDl & _ & Hstep); try done; try lia.
  { apply Hok. lia. }
  rewrite Hstep. clear Hstep.
  set (boff := offset mod BLOCK_SIZE) in *.
  set (tw := Z.min size (BLOCK_SIZE - boff)) in *.
  set (p0 := bpath offset) in *.
  pose proof (Z.mod_pos_bound offset BLOCK_SIZE ltac:(done)) as Hmb.
  fold boff in Hmb.
  assert (Htwb : 0 < tw <= size) by (unfold tw; lia).
  destruct (fopen_wb_is_Some fs fname (to_int (offset / BLOCK_SIZE)))
    as [fs1 Hwb]; [apply Hok; lia | done | apply Hnd; lia |].
  fold p0 in Hwb. rewrite Hwb.
  rewrite IH; try lia.
  - apply cursor_ok_next; lia.
  - rewrite length_drop. lia.
  - intros pos Hp. apply Hok. lia.
  - rewrite lookup_insert_ne; [done|].
    apply block_path_ne_dir, Hok. lia.
  - intros pos Hp. rewrite lookup_insert. case_decide; [done|].
    apply Hnd. lia.
Qed.
End WriteSucceeds.

Lemma block_write_succeeds (fs : filesys) h buf size offset :
  0 <= size <= INT_MAX -> 0 <= offset <= LLONG_MAX ->
  size <= Z.of_nat (length buf) ->
  paths_ok (filename h) offset size ->
  fs !! get_block_dir (filename h) = Some Dir ->
  (forall pos, offset <= pos < offset + size ->
     fs !! block_path (filename h) (to_int (pos / BLOCK_SIZE)) <> Some Dir) ->
  fst (block_write fs (Some h) (Some buf) size offset) = size.
Proof.
  intros Hs Ho Hbuf Hok Hdir Hnd. unfold block_write.
  destruct (Z.ltb_spec size 0); [lia|]. destruct (Z.ltb_spec offset 0); [lia|].
  cbn [orb].
  rewrite <- (to_llong_id offset) at 1
    by (change LLONG_MAX with (2 ^ 63 - 1) in Ho; lia).
  rewrite write_loop_succeeds; try done; try lia.
  unfold cursor_ok. lia.
Qed.

(** *** A freshly opened virtual file *)

Lemma block_open_handle (fs : filesys) fname :
  fst (fst (block_open fs fname)) = 0 ->
  snd (fst (block_open fs fname)) = Some {| filename := fname |}
  /\ snd (block_open fs fname) !! get_block_dir fname <> None.
Proof.
  unfold block_open, ensure_block_dir, stat, mkdir.
  destruct (fs !! get_block_dir fname) as [[d|]|] eqn:Hd; cbn -[get_block_dir].
  - intros _. by rewrite Hd.
  - intros _. by rewrite Hd.
  - destruct (parent_exists fs (get_block_dir fname)); cbn -[get_block_dir];
      [|done].
    intros _. by rewrite lookup_insert_eq.
Qed.

Lemma block_open_empty (fname : string) k :
  path_ok fname k -> snd (block_open ∅ fname) !! block_path fname k = None.
Proof.
  intros Hok. unfold block_open, ensure_block_dir, stat, mkdir.
  rewrite lookup_empty.
  destruct (parent_exists ∅ _); cbn -[get_block_dir block_path];
    [|apply lookup_empty].
  rewrite lookup_insert_ne; [apply lookup_empty|].
  intros Heq. by apply (block_path_ne_dir fname k).
Qed.


(** ** [block_file_size] *)

Lemma stat_nonneg (fs : filesys) p st : stat fs p = Some st -> 0 <= st.
Proof.
  unfold stat. destruct (fs !! p) as [[d|]|]; intros [= <-]; [lia | done].
Qed.

Lemma extent_file (fs : filesys) fname k d :
  fs !! block_path fname k = Some (File d) ->
  extent fs fname k = Some (k * BLOCK_SIZE + Z.min (Z.of_nat (length d)) BLOCK_SIZE).
Proof. intros H. unfold extent, stat. by rewrite H. Qed.

Lemma extent_absent (fs : filesys) fname k :
  fs !! block_path fname k = None -> extent fs fname k = None.
Proof. intros H. unfold extent, stat. by rewrite H. Qed.

Section Size.
Variable fs : filesys.
Variable fname : string.

Lemma size_loop_spec fuel : forall n m,
  0 <= n -> n + Z.of_nat fuel = SCAN_LIMIT -> 0 <= m ->
  (forall k, n <= k < SCAN_LIMIT -> path_ok fname k) ->
  let r := size_loop fuel fs fname n m in
  m <= r
  /\ (forall k e, n <= k < SCAN_LIMIT -> extent fs fname k = Some e -> e <= r)
  /\ (r = m \/ exists k, n <= k < SCAN_LIMIT /\ extent fs fname k = Some r).
Proof.
  change SCAN_LIMIT with 10000.
  induction fuel as [|fuel IH]; intros n m Hn Hf Hm Hok; cbv zeta.
  { cbn. split; [lia|]. split; [intros; lia | by left]. }
  cbn [size_loop]. change SCAN_LIMIT with 10000.
  destruct (Z.ltb_spec n 10000) as [_|]; [|lia].
  rewrite get_block_path_ok by (apply Hok; lia).
  change (negb (0 =? 0)) with false. cbv iota.
  rewrite (to_int_id (n + 1)) by lia.
  specialize (IH (n + 1)).
  destruct (stat fs (block_path fname n)) as [st|] eqn:Hst.
  - pose proof (stat_nonneg _ _ _ Hst) as Hst0.
    set (e := n * BLOCK_SIZE + Z.min st BLOCK_SIZE).
    assert (He : extent fs fname n = Some e) by (unfold extent; by rewrite Hst).
    assert (Hend : (if st <? BLOCK_SIZE then to_llong (n * BLOCK_SIZE + st)
                    else to_llong ((n + 1) * BLOCK_SIZE)) = e).
    { unfold e. change BLOCK_SIZE with 4096.
      destruct (Z.ltb_spec st 4096); rewrite to_llong_id; lia. }
    rewrite Hend.
    set (m' := if e >? m then e else m).
    assert (Hm' : m' = Z.max e m).
    { unfold m'. destruct (Z.gtb_spec e m); lia. }
    destruct (IH m' ltac:(lia) ltac:(lia) ltac:(unfold e in *; lia))
      as (Hle & Hub & Hatt); [intros; apply Hok; lia|].
    split; [lia|]. split.
    + intros k e' Hk He'. destruct (Z.eq_dec k n) as [->|].
      * rewrite He in He'. injection He' as <-. lia.
      * apply (Hub k); [lia | done].
    + destruct Hatt as [->|(k & Hk & Hke)].
      * destruct (Z.max_spec e m) as [[_ Hmx]|[_ Hmx]]; rewrite Hm', Hmx.
        -- by left.
        -- right. exists n. split; [lia | done].
      * right. exists k. split; [lia | done].
  - destruct (IH m ltac:(lia) ltac:(lia) Hm) as (Hle & Hub & Hatt);
      [intros; apply Hok; lia|].
    split; [done|]. split.
    + intros k e' Hk He'. destruct (Z.eq_dec k n) as [->|].
      * unfold extent in He'. by rewrite Hst in He'.
      * apply (Hub k); [lia | done].
    + destruct Hatt as [->|(k & Hk & Hke)]; [by left|].
      right. exists k. split; [lia | done].
Qed.

(** With every scanned path in range, [block_file_size] is the largest
    contribution among the blocks below the scan limit. *)
Lemma block_file_size_spec h :
  filename h = fname ->
  (forall k, 0 <= k < SCAN_LIMIT -> path_ok fname k) ->
  is_max_extent fs fname 0 SCAN_LIMIT (block_file_size fs (Some h)).
Proof.
  intros Hh Hok. unfold block_file_size. rewrite Hh.
  destruct (size_loop_spec (Z.to_nat SCAN_LIMIT) 0 0) as (Hle & Hub & Hatt);
    [done | done | done | done |].
  split; [done|]. destruct Hatt as [Hz|Hex]; [by left | by right].
Qed.
End Size.

Lemma scanned_paths_ok fname k :
  strlen fname <= 1003 -> 0 <= k < SCAN_LIMIT -> path_ok fname k.
Proof.
  intros Hlen Hk. apply short_name_ok6; [done|].
  change SCAN_LIMIT with 10000 in Hk. lia.
Qed.

Lemma block_file_size_no_blocks (fs : filesys) h :
  strlen (filename h) <= 1003 ->
  (forall k, 0 <= k < SCAN_LIMIT -> fs !! block_path (filename h) k = None) ->
  block_file_size fs (Some h) = 0.
Proof.
  intros Hlen Hnone.
  destruct (block_file_size_spec fs (filename h) h eq_refl)
    as [_ [Hz|(k & Hk & He)]]; [by intros; apply scanned_paths_ok | done |].
  rewrite extent_absent in He by auto. done.
Qed.


(** ** Argument checks (C5) *)

(** C5, as the code has it: a null handle makes [block_read],
    [block_write], [block_truncate] and [block_file_size] return -1, a
    negative size or offset (or a null buffer) makes [block_read] and
    [block_write] return -1, a negative size makes [block_truncate]
    return -1, all without touching the file system or the buffer;
    [block_close] of a null handle returns 0. *)
Theorem invalid_arguments_rejected :
  (forall fs buffer size offset,
     block_read fs None buffer size offset = (-1, buffer)
     /\ block_write fs None buffer size offset = (-1, fs))
  /\ (forall fs size, block_truncate fs None size = (-1, fs))
  /\ (forall fs, block_file_size fs None = -1)
  /\ block_close None = 0
  /\ (forall fs bf buffer size offset,
        size < 0 \/ offset < 0 \/ buffer = None ->
        block_read fs bf buffer size offset = (-1, buffer)
        /\ block_write fs bf buffer size offset = (-1, fs))
  /\ (forall fs bf size, size < 0 -> block_truncate fs bf size = (-1, fs)).
Proof.
  split; [done|]. split; [done|]. split; [done|]. split; [done|]. split.
  - intros fs bf buffer size offset H. unfold block_read, block_write.
    destruct bf as [h|], buffer as [buf|]; try done.
    destruct (Z.ltb_spec size 0), (Z.ltb_spec offset 0); try done.
    destruct H as [|[|]]; (lia || done).
  - intros fs bf size H. unfold block_truncate.
    destruct bf as [h|]; [|done].
    destruct (Z.ltb_spec size 0); [done | lia].
Qed.

Lemma invalid_arguments_rejected_witness :
  (-1 < 0 \/ 0 < 0 \/ Some hello = None)
  /\ block_read hello_fs fresh_bf (Some hello) (-1) 0 = (-1, Some hello)
  /\ block_write hello_fs fresh_bf (Some hello) (-1) 0 = (-1, hello_fs).
Proof.
  assert (H : -1 < 0 \/ 0 < 0 \/ Some hello = None) by (left; lia).
  split; [exact H|].
  destruct invalid_arguments_rejected as (_ & _ & _ & _ & Hneg & _).
  exact (Hneg hello_fs fresh_bf (Some hello) (-1) 0 H).
Defined.

(** C5 as stated fails for [block_close]: a null handle is accepted and
    0 is returned, not an error. *)
Lemma block_close_null_succeeds : block_close None = 0 /\ block_close None <> -1.
Proof. split; [reflexivity | discriminate]. Qed.

(** ** Logical size (C3) *)

(** C3, as the code has it: [block_file_size] is the largest
    [index * 4096 + min(length, 4096)] over the block files with index
    below 10000, and 0 if there is none; block files from index 10000 on
    are not looked at. *)
Theorem block_file_size_scans_10000 (fs : filesys) h :
  strlen (filename h) <= 1003 ->
  is_max_extent fs (filename h) 0 SCAN_LIMIT (block_file_size fs (Some h))
  /\ (forall k d, fs !! block_path (filename h) k = Some (File d) ->
        extent fs (filename h) k
        = Some (k * BLOCK_SIZE + Z.min (Z.of_nat (length d)) BLOCK_SIZE))
  /\ (forall k, fs !! block_path (filename h) k = None ->
        extent fs (filename h) k = None)
  /\ ((forall k, 0 <= k < SCAN_LIMIT -> fs !! block_path (filename h) k = None) ->
      block_file_size fs (Some h) = 0).
Proof.
  intros Hlen. split.
  { apply block_file_size_spec; [done|]. intros; by apply scanned_paths_ok. }
  split; [apply extent_file|]. split; [apply extent_absent|].
  by apply block_file_size_no_blocks.
Qed.

Lemma block_file_size_scans_10000_witness :
  strlen TEST_FILE <= 1003
  /\ is_max_extent hello_fs TEST_FILE 0 SCAN_LIMIT
       (block_file_size hello_fs fresh_bf).
Proof.
  assert (H : strlen TEST_FILE <= 1003) by (vm_compute; discriminate).
  split; [exact H|].
  exact (proj1 (block_file_size_scans_10000 hello_fs
                  {| filename := TEST_FILE |} H)).
Defined.

(** C3 as stated fails: block 10000 exists and contributes 40964096,
    yet the reported size is 0. *)
Lemma block_file_size_misses_block_10000 :
  (exists d, far_fs !! block_path TEST_FILE 10000 = Some (File d)
             /\ length d = 4096%nat)
  /\ extent far_fs TEST_FILE 10000 = Some 40964096
  /\ block_file_size far_fs fresh_bf = 0.
Proof.
  split; [|split].
  - eexists. split; [vm_compute; reflexivity | reflexivity].
  - vm_compute. reflexivity.
  - vm_compute. reflexivity.
Qed.


(** ** The read contract (C2) *)

Lemma logical_byte_absent (fs : filesys) fname pos :
  fs !! block_path fname (to_int (pos / BLOCK_SIZE)) = None ->
  logical_byte fs fname pos = x00.
Proof. intros H. unfold logical_byte, block_byte, fopen_rb. by rewrite H. Qed.

Lemma logical_byte_file (fs : filesys) fname pos d :
  fs !! block_path fname (to_int (pos / BLOCK_SIZE)) = Some (File d) ->
  logical_byte fs fname pos
  = if pos mod BLOCK_SIZE <? Z.of_nat (length d)
    then byte_at d (pos mod BLOCK_SIZE) else x00.
Proof.
  intros H. unfold logical_byte, block_byte, fopen_rb. rewrite H.
  destruct (Z.ltb_spec (pos mod BLOCK_SIZE) (Z.of_nat (length d))); [done|].
  by apply byte_at_ge.
Qed.

Lemma block_read_run (fs : filesys) h buf size offset :
  0 <= size <= INT_MAX -> 0 <= offset <= LLONG_MAX ->
  (paths_ok (filename h) offset size
   /\ block_read fs (Some h) (Some buf) size offset
      = (size, Some ((logical_byte fs (filename h) <$> seqZ offset size)
                     ++ drop (Z.to_nat size) buf)))
  \/ (~ paths_ok (filename h) offset size
      /\ fst (block_read fs (Some h) (Some buf) size offset) = -1).
Proof.
  intros Hs Ho. unfold block_read.
  destruct (Z.ltb_spec size 0); [lia|]. destruct (Z.ltb_spec offset 0); [lia|].
  cbn [orb].
  pose proof (read_loop_spec fs (filename h) (Z.to_nat size) [] size offset 0)
    as Hloop.
  rewrite (to_llong_id offset) in Hloop
    by (change LLONG_MAX with (2 ^ 63 - 1) in Ho; lia).
  destruct Hloop as [[Hok Hrun]|[Hbad Hrun]]; try lia.
  - unfold cursor_ok. lia.
  - left. split; [done|]. rewrite Hrun. cbn [app].
    rewrite length_fmap, length_seqZ. reflexivity.
  - right. split; [done|].
    destruct (read_loop _ _ _ _ _ _ _) as [rc out]. exact Hrun.
Qed.

(** With no block file at all, a read returns zeros and the size is 0. *)
Lemma read_no_blocks (fs : filesys) h buf size offset :
  0 <= size <= INT_MAX -> 0 <= offset <= LLONG_MAX ->
  strlen (filename h) <= 997 ->
  (forall k, fs !! block_path (filename h) k = None) ->
  block_read fs (Some h) (Some buf) size offset
  = (size, Some (zeros size ++ drop (Z.to_nat size) buf))
  /\ block_file_size fs (Some h) = 0.
Proof.
  intros Hs Ho Hlen Hnone. split.
  - destruct (block_read_run fs h buf size offset Hs Ho)
      as [[_ ->]|[Hbad _]].
    2:{ exfalso. apply Hbad. intros pos _. by apply short_name_ok. }
    do 3 f_equal. apply bytes_eq.
    + by rewrite length_fmap, length_seqZ, length_zeros.
    + intros i Hi. rewrite length_fmap, length_seqZ in Hi.
      rewrite byte_at_map_seqZ, byte_at_zeros by lia.
      by apply logical_byte_absent.
  - apply block_file_size_no_blocks; [lia|]. intros k _. apply Hnone.
Qed.

Lemma spec_byte_logical (fs : filesys) fname pos :
  0 <= pos < 2 ^ 31 * BLOCK_SIZE ->
  logical_byte fs fname pos = spec_byte fs fname pos.
Proof.
  intros Hp. unfold logical_byte, spec_byte. rewrite to_int_id; [done|].
  change BLOCK_SIZE with 4096 in *. split.
  - assert (0 <= pos / 4096) by (apply Z.div_pos; lia). lia.
  - apply Z.div_lt_upper_bound; lia.
Qed.

Lemma spec_bytes_logical (fs : filesys) fname offset size :
  0 <= offset -> offset + size <= 2 ^ 31 * BLOCK_SIZE ->
  logical_byte fs fname <$> seqZ offset size
  = spec_byte fs fname <$> seqZ offset size.
Proof.
  intros Ho Hend. apply Forall_fmap_ext, Forall_forall. intros pos Hpos.
  apply elem_of_seqZ in Hpos. apply spec_byte_logical. lia.
Qed.

Lemma paths_ok_spec fname offset size :
  0 <= offset -> offset + size <= 2 ^ 31 * BLOCK_SIZE ->
  paths_ok fname offset size
  <-> forall pos, offset <= pos < offset + size ->
        path_ok fname (pos / BLOCK_SIZE).
Proof.
  intros Ho Hend.
  assert (Hint : forall pos, offset <= pos < offset + size ->
            to_int (pos / BLOCK_SIZE) = pos / BLOCK_SIZE).
  { intros pos Hp. apply to_int_id. change BLOCK_SIZE with 4096 in *. split.
    - assert (0 <= pos / 4096) by (apply Z.div_pos; lia). lia.
    - apply Z.div_lt_upper_bound; lia. }
  unfold paths_ok. split; intros H pos Hp.
  - rewrite <- Hint by done. by apply H.
  - rewrite Hint by done. by apply H.
Qed.

(** C2, amended: on a valid handle, for [size >= 0] and [offset >= 0]
    with the span within the first [2^31] blocks, [block_read] returns
    [size] when every block path of the span fits (as for every name of
    at most 997 characters) and -1 when one does not.  When it returns
    [size] it has filled exactly the first [size] bytes of the buffer
    with the content of the data model, block [pos / 4096] for the
    position [pos]: zero throughout an absent block file and, for a
    block file that is present, its bytes followed by zeros.  With no
    block files at all, as right after [block_open] on an empty file
    system, every such read whose paths fit returns zeros, and
    [block_file_size] returns 0 for a name of at most 1003 characters. *)
Theorem block_read_contract (fs : filesys) h buf size offset :
  0 <= size <= INT_MAX -> 0 <= offset ->
  offset + size <= 2 ^ 31 * BLOCK_SIZE ->
  size <= Z.of_nat (length buf) ->
  let fname := filename h in
  let res := block_read fs (Some h) (Some buf) size offset in
  let fits := forall pos, offset <= pos < offset + size ->
                path_ok fname (pos / BLOCK_SIZE) in
  (fst res <> -1 ->
   res = (size, Some ((spec_byte fs fname <$> seqZ offset size)
                      ++ drop (Z.to_nat size) buf)))
  /\ (fits -> fst res = size)
  /\ (~ fits -> fst res = -1)
  /\ (strlen fname <= 997 -> fits)
  /\ (forall pos,
        fs !! block_path fname (pos / BLOCK_SIZE) = None ->
        spec_byte fs fname pos = x00)
  /\ (forall pos d,
        fs !! block_path fname (pos / BLOCK_SIZE) = Some (File d) ->
        spec_byte fs fname pos
        = if pos mod BLOCK_SIZE <? Z.of_nat (length d)
          then byte_at d (pos mod BLOCK_SIZE) else x00)
  /\ ((forall k, fs !! block_path fname k = None) ->
      (fits -> res = (size, Some (zeros size ++ drop (Z.to_nat size) buf)))
      /\ (strlen fname <= 1003 -> block_file_size fs (Some h) = 0))
  /\ (forall name,
        strlen name <= 997 -> fst (fst (block_open ∅ name)) = 0 ->
        let bf := snd (fst (block_open ∅ name)) in
        let fs0 := snd (block_open ∅ name) in
        block_read fs0 bf (Some buf) size offset
        = (size, Some (zeros size ++ drop (Z.to_nat size) buf))
        /\ block_file_size fs0 bf = 0).
Proof.
  intros Hs Ho Hend Hbuf fname res fits.
  assert (Hll : 0 <= offset <= LLONG_MAX).
  { change BLOCK_SIZE with 4096 in Hend. change LLONG_MAX with (2 ^ 63 - 1).
    lia. }
  pose proof (block_read_run fs h buf size offset Hs Hll) as Hrun.
  fold fname res in Hrun.
  rewrite (spec_bytes_logical fs fname offset size Ho Hend) in Hrun.
  pose proof (paths_ok_spec fname offset size Ho Hend) as Hfits.
  fold fits in Hfits.
  assert (Hgood : fits ->
            res = (size, Some ((spec_byte fs fname <$> seqZ offset size)
                               ++ drop (Z.to_nat size) buf))).
  { intros Hok. destruct Hrun as [[_ ?]|[Hbad _]]; [done|].
    destruct Hbad. by apply Hfits. }
  split; [|split; [|split; [|split; [|split; [|split; [|split]]]]]].
  - intros Hne. destruct Hrun as [[_ ?]|[_ ?]]; [done | congruence].
  - intros Hok. by rewrite (Hgood Hok).
  - intros Hbad. destruct Hrun as [[Hok _]|[_ ?]]; [|done].
    destruct Hbad. by apply Hfits.
  - intros Hlen pos _. by apply short_name_ok.
  - intros pos Hnone. unfold spec_byte, block_byte, fopen_rb. by rewrite Hnone.
  - intros pos d Hd. unfold spec_byte, block_byte, fopen_rb. rewrite Hd.
    destruct (Z.ltb_spec (pos mod BLOCK_SIZE) (Z.of_nat (length d))); [done|].
    by apply byte_at_ge.
  - intros Hnone. split.
    + intros Hok. rewrite (Hgood Hok). do 3 f_equal. apply bytes_eq.
      * by rewrite length_fmap, length_seqZ, length_zeros.
      * intros i Hi. rewrite length_fmap, length_seqZ in Hi.
        rewrite byte_at_map_seqZ, byte_at_zeros by lia.
        unfold spec_byte, block_byte, fopen_rb. by rewrite Hnone.
    + intros Hlen. apply block_file_size_no_blocks; [done|].
      intros k _. apply Hnone.
  - intros name Hlen Hopen bf fs0.
    destruct (block_open_handle ∅ name Hopen) as [Hbf _].
    subst bf. rewrite Hbf.
    apply read_no_blocks; try done.
    intros k. apply block_open_empty. by apply short_name_ok.
Qed.

Lemma block_read_contract_witness :
  (0 <= 50 <= INT_MAX) /\ 0 <= 0 /\ 0 + 50 <= 2 ^ 31 * BLOCK_SIZE
  /\ 50 <= Z.of_nat (length (replicate 60 xff))
  /\ block_read hello_fs fresh_bf (Some (replicate 60 xff)) 50 0
     = (50, Some (hello ++ zeros 37 ++ replicate 10 xff)).
Proof.
  assert (H1 : 0 <= 50 <= INT_MAX) by (vm_compute; split; discriminate).
  assert (H2 : 0 <= 0) by lia.
  assert (H3 : 0 + 50 <= 2 ^ 31 * BLOCK_SIZE) by (vm_compute; discriminate).
  assert (H4 : 50 <= Z.of_nat (length (replicate 60 xff)))
    by (vm_compute; discriminate).
  split; [exact H1|]. split; [exact H2|]. split; [exact H3|].
  split; [exact H4|].
  pose proof (block_read_contract hello_fs {| filename := TEST_FILE |}
                (replicate 60 xff) 50 0 H1 H2 H3 H4) as (Hres & _).
  cbv zeta in Hres.
  change fresh_bf with (Some {| filename := TEST_FILE |}).
  rewrite Hres; [vm_compute; reflexivity|].
  vm_compute. discriminate.
Defined.

(** C2 as it was stated fails at two inputs.  A store freshly opened
    under a name of 1005 characters has no block files, yet
    [block_read] returns -1 and [block_file_size] returns -1: no block
    path fits, and [get_block_path] says so by design.  And in the
    store that holds "Hello, World!" in block 0, where block [2^32] has
    no file, reading one byte at offset [2^44] gives ['H'] and not
    zero: the block number is cut to an [int], the slip of C7. *)
Theorem block_read_contract_fails :
  (let opened := block_open deep_fs edge_name in
   let bf := snd (fst opened) in
   let fs := snd opened in
   fst (fst opened) = 0
   /\ strlen edge_name = 1005
   /\ fst (block_read fs bf (Some [xff]) 1 0) = -1
   /\ block_file_size fs bf = -1)
  /\ (hello_fs !! block_path TEST_FILE (2 ^ 44 / BLOCK_SIZE) = None
      /\ spec_byte hello_fs TEST_FILE (2 ^ 44) = x00
      /\ block_read hello_fs fresh_bf (Some [x00]) 1 (2 ^ 44)
         = (1, Some [x48])).
Proof.
  split.
  - cbv zeta.
    split; [vm_compute; reflexivity|]. split; [vm_compute; reflexivity|].
    split; vm_compute; reflexivity.
  - split; [vm_compute; reflexivity|]. split; [vm_compute; reflexivity|].
    vm_compute. reflexivity.
Qed.



(** ** What a successful write leaves behind (C1, C6, C7) *)

Lemma block_write_spec (fs : filesys) h buf size offset r fs' :
  0 <= size <= INT_MAX -> 0 <= offset <= LLONG_MAX ->
  size <= Z.of_nat (length buf) ->
  block_write fs (Some h) (Some buf) size offset = (r, fs') -> r <> -1 ->
  let fname := filename h in
  r = size
  /\ paths_ok fname offset size
  /\ (forall p,
        (forall pos, offset <= pos < offset + size ->
           p <> block_path fname (to_int (pos / BLOCK_SIZE))) ->
        fs' !! p = fs !! p)
  /\ (forall pos, offset <= pos < offset + size ->
        exists d,
          fs' !! block_path fname (to_int (pos / BLOCK_SIZE)) = Some (File d)
          /\ length d = Z.to_nat BLOCK_SIZE
          /\ forall i, 0 <= i < BLOCK_SIZE ->
               byte_at d i
               = if in_span offset size (pos / BLOCK_SIZE * BLOCK_SIZE + i)
                 then byte_at buf (pos / BLOCK_SIZE * BLOCK_SIZE + i - offset)
                 else block_byte fs
                        (block_path fname (to_int (pos / BLOCK_SIZE))) i).
Proof.
  intros Hs Ho Hbuf Hrun Hr fname. unfold block_write in Hrun.
  destruct (Z.ltb_spec size 0); [lia|]. destruct (Z.ltb_spec offset 0); [lia|].
  cbn [orb] in Hrun.
  rewrite <- (to_llong_id offset) in Hrun
    by (change LLONG_MAX with (2 ^ 63 - 1) in Ho; lia).
  apply write_loop_spec in Hrun;
    [| lia | lia | lia | lia | unfold cursor_ok; lia | lia | lia | lia | done].
  destruct Hrun as (-> & Hrest). split; [lia | exact Hrest].
Qed.

(** After a successful write the logical content of the span is the
    buffer. *)
Lemma written_bytes (fs : filesys) h buf size offset r fs' :
  0 <= size <= INT_MAX -> 0 <= offset <= LLONG_MAX ->
  size <= Z.of_nat (length buf) ->
  block_write fs (Some h) (Some buf) size offset = (r, fs') -> r <> -1 ->
  forall i, 0 <= i < size ->
    logical_byte fs' (filename h) (offset + i) = byte_at buf i.
Proof.
  intros Hs Ho Hbuf Hrun Hr i Hi.
  destruct (block_write_spec fs h buf size offset r fs')
    as (_ & _ & _ & Hblocks); try done.
  destruct (Hblocks (offset + i) ltac:(lia)) as (d & Hd & Hdl & Hdb).
  pose proof (Z.mod_pos_bound (offset + i) BLOCK_SIZE ltac:(done)) as Hmb.
  pose proof (Z.div_mod (offset + i) BLOCK_SIZE ltac:(done)) as Hdm.
  unfold logical_byte, block_byte, fopen_rb. rewrite Hd.
  rewrite Hdb by done.
  replace ((offset + i) / BLOCK_SIZE * BLOCK_SIZE + (offset + i) mod BLOCK_SIZE)
    with (offset + i) by lia.
  unfold in_span.
  destruct (Z.leb_spec offset (offset + i)); [|lia].
  destruct (Z.ltb_spec (offset + i) (offset + size)); [|lia].
  cbn [andb]. f_equal. lia.
Qed.

(** C1: for every [size >= 0] and [offset >= 0] (an [int] and a
    [long long]), if [block_write] of the [size] bytes of [b] at
    [offset] succeeds, the following [block_read] of [size] bytes at
    [offset] returns [size] and fills the buffer with exactly the bytes
    of [b]. *)
Theorem write_read_round_trip (fs : filesys) h b out size offset r fs' :
  0 <= size <= INT_MAX -> Z.of_nat (length b) = size ->
  0 <= offset <= LLONG_MAX ->
  size <= Z.of_nat (length out) ->
  block_write fs (Some h) (Some b) size offset = (r, fs') -> r <> -1 ->
  r = size
  /\ block_read fs' (Some h) (Some out) size offset
     = (size, Some (b ++ drop (Z.to_nat size) out)).
Proof.
  intros Hs Hb Ho Hout Hrun Hr.
  destruct (block_write_spec fs h b size offset r fs')
    as (Hrs & Hok & _); try done; try lia.
  split; [done|].
  destruct (block_read_run fs' h out size offset Hs Ho)
    as [[_ Hread]|[Hbad _]]; [|done].
  rewrite Hread. do 3 f_equal. apply bytes_eq.
  - rewrite length_fmap, length_seqZ. lia.
  - intros i Hi. rewrite length_fmap, length_seqZ in Hi.
    rewrite byte_at_map_seqZ by lia.
    apply (written_bytes fs h b size offset r fs'); try done; lia.
Qed.

Lemma write_read_round_trip_witness :
  (0 <= 13 <= INT_MAX) /\ Z.of_nat (length hello) = 13
  /\ (0 <= 0 <= LLONG_MAX) /\ 13 <= Z.of_nat (length (replicate 20 xff))
  /\ block_write fresh_fs fresh_bf (Some hello) 13 0 = (13, hello_fs)
  /\ 13 <> -1
  /\ block_read hello_fs fresh_bf (Some (replicate 20 xff)) 13 0
     = (13, Some (hello ++ replicate 7 xff)).
Proof.
  assert (H1 : 0 <= 13 <= INT_MAX) by (vm_compute; split; discriminate).
  assert (H2 : Z.of_nat (length hello) = 13) by reflexivity.
  assert (H3 : 0 <= 0 <= LLONG_MAX) by (vm_compute; split; discriminate).
  assert (H5 : 13 <= Z.of_nat (length (replicate 20 xff)))
    by (vm_compute; discriminate).
  assert (H6 : block_write fresh_fs (Some {| filename := TEST_FILE |})
                 (Some hello) 13 0 = (13, hello_fs)).
  { unfold hello_fs. change fresh_bf with (Some {| filename := TEST_FILE |}).
    rewrite (surjective_pairing (block_write _ _ _ _ _)) at 1.
    f_equal; vm_compute; reflexivity. }
  assert (H7 : 13 <> -1) by discriminate.
  do 6 (split; [assumption|]).
  exact (proj2 (write_read_round_trip fresh_fs {| filename := TEST_FILE |}
                  hello (replicate 20 xff) 13 0 13 hello_fs
                  H1 H2 H3 H5 H6 H7)).
Defined.

(** The round trip also holds for a request that runs past [LLONG_MAX],
    where the position wraps. *)
Example round_trip_across_wrap :
  let digits := bytes_of "0123456789" in
  let w := block_write fresh_fs fresh_bf (Some digits) 10 (LLONG_MAX - 5) in
  fst w = 10
  /\ block_read (snd w) fresh_bf (Some (replicate 10 xff)) 10 (LLONG_MAX - 5)
     = (10, Some digits).
Proof. cbv zeta. split; vm_compute; reflexivity. Qed.

(** C6: after a successful write every block file the request touched,
    through a whole-block or a partial sub-write, is a whole block of
    4096 bytes (and a write does succeed when the block paths fit, the
    block directory exists and no directory sits where a block file
    goes); writing the 13 bytes of "Hello, World!" at offset 0 of a
    fresh virtual file makes [block_file_size] report 4096, and reading
    50 bytes at offset 0 gives the 13 bytes and then 37 zeros. *)
Theorem partial_write_fills_block :
  (forall (fs : filesys) h b size offset r fs',
     0 <= size <= INT_MAX -> size <= Z.of_nat (length b) ->
     0 <= offset <= LLONG_MAX ->
     block_write fs (Some h) (Some b) size offset = (r, fs') -> r <> -1 ->
     forall pos, offset <= pos < offset + size ->
       exists d,
         fs' !! block_path (filename h) (to_int (pos / BLOCK_SIZE))
         = Some (File d)
         /\ Z.of_nat (length d) = BLOCK_SIZE)
  /\ (forall (fs : filesys) h b size offset,
        0 <= size <= INT_MAX -> size <= Z.of_nat (length b) ->
        0 <= offset <= LLONG_MAX ->
        paths_ok (filename h) offset size ->
        fs !! get_block_dir (filename h) = Some Dir ->
        (forall pos, offset <= pos < offset + size ->
           fs !! block_path (filename h) (to_int (pos / BLOCK_SIZE))
           <> Some Dir) ->
        fst (block_write fs (Some h) (Some b) size offset) = size)
  /\ fst fresh_open = (0, Some {| filename := TEST_FILE |})
  /\ block_write fresh_fs fresh_bf (Some hello) 13 0 = (13, hello_fs)
  /\ block_file_size hello_fs fresh_bf = 4096
  /\ block_read hello_fs fresh_bf (Some (replicate 13 xff)) 13 0
     = (13, Some hello)
  /\ block_read hello_fs fresh_bf (Some (replicate 50 xff)) 50 0
     = (50, Some (hello ++ replicate 37 x00)).
Proof.
  split.
  - intros fs h b size offset r fs' Hs Hb Ho Hrun Hr pos Hpos.
    destruct (block_write_spec fs h b size offset r fs')
      as (_ & _ & _ & Hblocks); try done.
    destruct (Hblocks pos Hpos) as (d & Hd & Hdl & _).
    exists d. split; [done|]. rewrite Hdl. done.
  - split.
    { intros fs h b size offset Hs Hb Ho Hok Hdir Hnd.
      by apply block_write_succeeds. }
    split; [reflexivity|]. split.
    { unfold hello_fs. rewrite (surjective_pairing (block_write _ _ _ _ _)) at 1.
      f_equal; vm_compute; reflexivity. }
    split; [vm_compute; reflexivity|].
    split; vm_compute; reflexivity.
Qed.

Lemma partial_write_fills_block_witness :
  (0 <= 13 <= INT_MAX) /\ 13 <= Z.of_nat (length hello)
  /\ (0 <= 0 <= LLONG_MAX)
  /\ block_write fresh_fs fresh_bf (Some hello) 13 0 = (13, hello_fs)
  /\ 13 <> -1 /\ 0 <= 5 < 0 + 13
  /\ exists d,
       hello_fs !! block_path TEST_FILE (to_int (5 / BLOCK_SIZE))
       = Some (File d)
       /\ Z.of_nat (length d) = BLOCK_SIZE.
Proof.
  assert (H1 : 0 <= 13 <= INT_MAX) by (vm_compute; split; discriminate).
  assert (H2 : 13 <= Z.of_nat (length hello)) by (vm_compute; discriminate).
  assert (H3 : 0 <= 0 <= LLONG_MAX) by (vm_compute; split; discriminate).
  assert (H6 : block_write fresh_fs (Some {| filename := TEST_FILE |})
                 (Some hello) 13 0 = (13, hello_fs)).
  { unfold hello_fs. change fresh_bf with (Some {| filename := TEST_FILE |}).
    rewrite (surjective_pairing (block_write _ _ _ _ _)) at 1.
    f_equal; vm_compute; reflexivity. }
  assert (H7 : 13 <> -1) by discriminate.
  assert (H8 : 0 <= 5 < 0 + 13) by lia.
  do 6 (split; [assumption|]).
  exact (proj1 partial_write_fills_block fresh_fs {| filename := TEST_FILE |}
           hello 13 0 13 hello_fs H1 H2 H3 H6 H7 5 H8).
Defined.


(** ** The frame of a write (C7) *)

(** While block indices fit an [int], a successful write changes the
    logical content inside its span only. *)
Lemma write_frame (fs : filesys) h buf size offset r fs' pos :
  0 <= size <= INT_MAX -> 0 <= offset ->
  size <= Z.of_nat (length buf) ->
  block_write fs (Some h) (Some buf) size offset = (r, fs') -> r <> -1 ->
  offset + size <= 2 ^ 31 * BLOCK_SIZE -> 0 <= pos < 2 ^ 31 * BLOCK_SIZE ->
  ~ (offset <= pos < offset + size) ->
  path_ok (filename h) (to_int (pos / BLOCK_SIZE)) ->
  logical_byte fs' (filename h) pos = logical_byte fs (filename h) pos.
Proof.
  intros Hs Ho Hbuf Hrun Hr Hfit Hpos Hout Hokp.
  destruct (block_write_spec fs h buf size offset r fs')
    as (_ & Hok & Hframe & Hblocks); try done.
  { change BLOCK_SIZE with 4096 in Hfit.
    change LLONG_MAX with (2 ^ 63 - 1). lia. }
  set (fname := filename h) in *.
  change BLOCK_SIZE with 4096 in *. change (2 ^ 31 * 4096) with 8796093022208 in *.
  pose proof (Z.mod_pos_bound pos 4096 ltac:(lia)) as Hmb.
  pose proof (Z.div_mod pos 4096 ltac:(lia)) as Hdm.
  assert (Hq : forall x, 0 <= x < 8796093022208 -> 0 <= x / 4096 < 2147483648).
  { intros x Hx. split; [apply Z.div_pos; lia|].
    apply Z.div_lt_upper_bound; lia. }
  assert (Hsame : forall pos', offset <= pos' < offset + size ->
            block_path fname (to_int (pos / 4096))
            = block_path fname (to_int (pos' / 4096)) ->
            pos / 4096 = pos' / 4096).
  { intros pos' Hp' Heq.
    apply block_path_inj in Heq;
      [| apply to_int_range | apply to_int_range | done | by apply Hok].
    pose proof (Hq pos Hpos). pose proof (Hq pos' ltac:(lia)).
    change (2 ^ 31) with 2147483648 in *.
    rewrite !to_int_id in Heq by (change (2 ^ 31) with 2147483648; lia).
    done. }
  destruct (decide (0 < size /\ offset / 4096 <= pos / 4096
                    <= (offset + size - 1) / 4096)) as [(Hsz & Hlo & Hhi)|Hun].
  - (* the block is touched, the position is not *)
    set (pos' := Z.max offset (pos / 4096 * 4096)).
    pose proof (Z.div_mod (offset + size - 1) 4096 ltac:(lia)).
    pose proof (Z.mod_pos_bound (offset + size - 1) 4096 ltac:(lia)).
    pose proof (Z.div_mod offset 4096 ltac:(lia)).
    pose proof (Z.mod_pos_bound offset 4096 ltac:(lia)).
    assert (Hp' : offset <= pos' < offset + size) by (unfold pos'; nia).
    assert (Hq' : pos' / 4096 = pos / 4096).
    { unfold pos'.
      destruct (Z.max_spec offset (pos / 4096 * 4096)) as [[_ ->]|[Hge ->]].
      - apply Z.div_mul. lia.
      - apply Z.le_antisymm; [done|].
        apply Z.div_le_lower_bound; lia. }
    destruct (Hblocks pos' Hp') as (d & Hd & Hdl & Hdb).
    rewrite Hq' in Hd, Hdb.
    unfold logical_byte at 1. unfold block_byte at 1, fopen_rb.
    change BLOCK_SIZE with 4096. rewrite Hd.
    rewrite Hdb by lia.
    replace (pos / 4096 * 4096 + pos mod 4096) with pos by lia.
    unfold in_span.
    destruct (Z.leb_spec offset pos), (Z.ltb_spec pos (offset + size));
      cbn [andb]; try done; lia.
  - (* the block is not touched *)
    unfold logical_byte, block_byte, fopen_rb. change BLOCK_SIZE with 4096.
    rewrite Hframe; [done|].
    intros pos' Hp' Heq. apply Hsame in Heq; [|done].
    apply Hun. split; [lia|]. rewrite Heq.
    split; apply Z.div_le_mono; lia.
Qed.

(** C7 at an input where it fails: one byte written at offset [2^44]
    lands in block file 0, because the block index [2^32] is stored in
    an [int]; the byte at offset 0, outside the span of the write, reads
    differently before and after.  (Writing 4 bytes at offset 100 and 4
    at offset 200 leaves bytes 104 to 108 zero.) *)
Theorem write_aliases_block_0_at_16TiB :
  let before := fresh_fs in
  let w := block_write before fresh_bf (Some [x41]) 1 (2 ^ 44) in
  fst w = 1
  /\ block_read before fresh_bf (Some [xff]) 1 0 = (1, Some [x00])
  /\ block_read (snd w) fresh_bf (Some [xff]) 1 0 = (1, Some [x41])
  /\ to_int (c_div (2 ^ 44) BLOCK_SIZE) = 0
  /\ (let w1 := block_write before fresh_bf (Some (bytes_of "AAAA")) 4 100 in
      let w2 := block_write (snd w1) fresh_bf (Some (bytes_of "CCCC")) 4 200 in
      fst w1 = 4 /\ fst w2 = 4
      /\ block_read (snd w2) fresh_bf (Some (replicate 4 xff)) 4 104
         = (4, Some (replicate 4 x00))).
Proof.
  cbv zeta.
  split; [vm_compute; reflexivity|]. split; [vm_compute; reflexivity|].
  split; [vm_compute; reflexivity|]. split; [vm_compute; reflexivity|].
  split; [vm_compute; reflexivity|]. split; vm_compute; reflexivity.
Qed.


(** ** Block files never exceed one block (C9) *)

Lemma bounded_insert_file (fs : filesys) p d :
  bounded_blocks fs -> Z.of_nat (length d) <= BLOCK_SIZE ->
  bounded_blocks (<[p := File d]> fs).
Proof.
  intros Hb Hd q e. rewrite lookup_insert. case_decide.
  - intros [= <-]. lia.
  - apply Hb.
Qed.

Lemma bounded_insert_dir (fs : filesys) p :
  bounded_blocks fs -> bounded_blocks (<[p := Dir]> fs).
Proof.
  intros Hb q e. rewrite lookup_insert. case_decide; [done | apply Hb].
Qed.

Lemma bounded_delete (fs : filesys) p :
  bounded_blocks fs -> bounded_blocks (delete p fs).
Proof.
  intros Hb q e. rewrite lookup_delete. case_decide; [done | apply Hb].
Qed.

Lemma length_take_Z (l : list byte) n :
  0 <= n -> Z.of_nat (length (take (Z.to_nat n) l)) <= n.
Proof. intros. rewrite length_take. lia. Qed.

Lemma write_loop_bounded fname fuel : forall (fs : filesys) buf size offset total,
  bounded_blocks fs ->
  bounded_blocks (snd (write_loop fuel fs fname buf size offset total)).
Proof.
  induction fuel as [|fuel IH]; intros fs buf size offset total Hb; [done|].
  cbn [write_loop]. destruct (size >? 0); [|done].
  destruct (get_block_path fname _) as [rc path].
  destruct (negb (rc =? 0)); [done|].
  destruct (negb _ || negb _) eqn:Hpart.
  - destruct (fopen_wb fs path) as [fs1|] eqn:Hwb; [|done].
    rewrite (fopen_wb_fwrite _ _ _ _ _ Hwb).
    match goal with
    | |- context [<[path := File ?D]> fs] =>
        assert (Hb2 : bounded_blocks (<[path := File D]> fs))
          by (apply bounded_insert_file; [done | by apply length_take_Z])
    end.
    match goal with
    | |- bounded_blocks (snd (if ?c then _ else _)) => destruct c
    end; cbn [snd]; [exact Hb2 | by apply IH].
  - apply orb_false_iff in Hpart as [_ Htw].
    apply negb_false_iff, Z.eqb_eq in Htw.
    destruct (fopen_wb fs path) as [fs1|] eqn:Hwb; [|done].
    rewrite (fopen_wb_fwrite _ _ _ _ _ Hwb). rewrite Htw.
    match goal with
    | |- context [<[path := File ?D]> fs] =>
        assert (Hb2 : bounded_blocks (<[path := File D]> fs))
          by (apply bounded_insert_file; [done | by apply length_take_Z])
    end.
    match goal with
    | |- bounded_blocks (snd (if ?c then _ else _)) => destruct c
    end; cbn [snd]; [exact Hb2 | by apply IH].
Qed.

Lemma truncate_loop_bounded fname fuel : forall (fs : filesys) n,
  bounded_blocks fs -> bounded_blocks (snd (truncate_loop fuel fs fname n)).
Proof.
  induction fuel as [|fuel IH]; intros fs n Hb; [done|].
  cbn [truncate_loop]. destruct (n <? SCAN_LIMIT); [|done].
  destruct (get_block_path fname n) as [rc path].
  destruct (negb (rc =? 0)); [done|].
  unfold unlink. destruct (fs !! path) as [[d|]|]; cbn -[truncate_loop].
  - apply IH. by apply bounded_delete.
  - done.
  - by apply IH.
Qed.

Lemma block_write_bounded (fs : filesys) bf buffer size offset :
  bounded_blocks fs ->
  bounded_blocks (snd (block_write fs bf buffer size offset)).
Proof.
  intros Hb. unfold block_write.
  destruct bf as [h|], buffer as [buf|]; try done.
  destruct (_ || _); [done|]. by apply write_loop_bounded.
Qed.

Lemma block_truncate_bounded (fs : filesys) bf size :
  bounded_blocks fs -> bounded_blocks (snd (block_truncate fs bf size)).
Proof.
  intros Hb. unfold block_truncate. destruct bf as [h|]; [|done].
  destruct (size <? 0); [done|].
  pose proof (truncate_loop_bounded (filename h)
    (Z.to_nat (SCAN_LIMIT - to_int (c_div (to_llong (to_llong (size + BLOCK_SIZE) - 1)) BLOCK_SIZE)))
    fs (to_int (c_div (to_llong (to_llong (size + BLOCK_SIZE) - 1)) BLOCK_SIZE)) Hb) as Hb1.
  destruct (truncate_loop _ _ _ _) as [returned fs1]. cbn [snd] in Hb1.
  destruct returned; [done|].
  destruct (_ && _); [|done].
  destruct (get_block_path _ _) as [rc path].
  destruct (fopen_wb fs1 path) as [fs2|] eqn:Hwb; [|done].
  rewrite (fopen_wb_fwrite _ _ _ _ _ Hwb). cbn [snd].
  apply bounded_insert_file; [done|].
  pose proof (c_mod_bound size) as Hm.
  change BLOCK_SIZE with 4096 in *.
  rewrite to_int_id by lia.
  rewrite length_take. lia.
Qed.

Lemma block_open_bounded (fs : filesys) fname :
  bounded_blocks fs -> bounded_blocks (snd (block_open fs fname)).
Proof.
  intros Hb. unfold block_open, ensure_block_dir.
  destruct (stat fs _); [done|].
  unfold mkdir. destruct (fs !! _); [done|].
  destruct (parent_exists _ _); [|done].
  cbn. by apply bounded_insert_dir.
Qed.

(** C9: in every state reached from the empty file system by
    [block_open], [block_read], [block_write] and [block_truncate],
    whatever their arguments, each block file present has a length
    between 0 and 4096. *)
Theorem reachable_blocks_bounded (fs : filesys) :
  reachable fs -> bounded_blocks fs.
Proof.
  induction 1 as [|fs o Hreach IH].
  - intros p d. by rewrite lookup_empty.
  - destruct o as [fname|bf buffer size offset|bf buffer size offset|bf size];
      cbn [run_op].
    + by apply block_open_bounded.
    + done.
    + by apply block_write_bounded.
    + by apply block_truncate_bounded.
Qed.

Lemma reachable_blocks_bounded_witness :
  reachable hello_fs /\ bounded_blocks hello_fs.
Proof.
  assert (H : reachable hello_fs).
  { exact (reach_step _ (OpWrite fresh_bf (Some hello) 13 0)
             (reach_step _ (OpOpen TEST_FILE) reach_empty)). }
  split; [exact H | exact (reachable_blocks_bounded hello_fs H)].
Defined.


(** ** [block_truncate] (C4, C10) *)

Lemma block_paths_differ fname a b :
  0 <= a < 2 ^ 31 -> 0 <= b < 2 ^ 31 -> path_ok fname a -> path_ok fname b ->
  a <> b -> block_path fname a <> block_path fname b.
Proof.
  intros Ha Hb Hoa Hob Hne Heq. apply Hne.
  apply (block_path_inj fname); try done; lia.
Qed.

Section Truncate.
Variable fname : string.

Local Abbreviation bp k := (block_path fname k).

(** The deletion loop never makes the function return when the paths
    fit.  It removes the block files from [n] up to the first block path
    that [unlink] refuses for another reason than absence (here: a
    directory), or up to the scan limit. *)
Lemma truncate_loop_spec fuel : forall (fs : filesys) n,
  0 <= n -> n + Z.of_nat fuel = SCAN_LIMIT ->
  (forall k, 0 <= k < SCAN_LIMIT -> path_ok fname k) ->
  exists fs' stop,
    truncate_loop fuel fs fname n = (false, fs')
    /\ n <= stop <= SCAN_LIMIT
    /\ (stop < SCAN_LIMIT -> fs !! bp stop = Some Dir)
    /\ (forall k, n <= k < stop -> fs !! bp k <> Some Dir /\ fs' !! bp k = None)
    /\ (forall p, (forall k, n <= k < stop -> p <> bp k) -> fs' !! p = fs !! p).
Proof.
  change SCAN_LIMIT with 10000.
  induction fuel as [|fuel IH]; intros fs n Hn Hf Hok.
  { exists fs, 10000. cbn. repeat split; try lia; try done; intros; lia. }
  cbn [truncate_loop]. change SCAN_LIMIT with 10000.
  destruct (Z.ltb_spec n 10000) as [_|]; [|lia].
  rewrite get_block_path_ok by (apply Hok; lia).
  change (negb (0 =? 0)) with false. cbv iota.
  rewrite (to_int_id (n + 1)) by lia.
  assert (Hdiff : forall k, n < k < 10000 -> bp n <> bp k).
  { intros k Hk. apply block_paths_differ; try (apply Hok); lia. }
  unfold unlink. destruct (fs !! bp n) as [[d|]|] eqn:Hn0.
  - (* a block file: removed *)
    cbn [negb Z.eqb andb].
    destruct (IH (delete (bp n) fs) (n + 1) ltac:(lia) ltac:(lia) Hok)
      as (fs' & stop & Hrun & Hstop & Hdir & Hdel & Hframe).
    exists fs', stop. split; [done|]. split; [lia|]. split; [|split].
    + intros Hlt. specialize (Hdir Hlt).
      apply lookup_delete_Some in Hdir as [_ ?]. done.
    + intros k Hk. destruct (Z.eq_dec k n) as [->|Hne].
      * split; [congruence|]. rewrite Hframe; [apply lookup_delete_eq|].
        intros k' Hk'. apply Hdiff. lia.
      * destruct (Hdel k ltac:(lia)) as [Hnd Hnone]. split; [|done].
        intros Hd. apply Hnd. rewrite lookup_delete_ne; [done|]. congruence.
    + intros p Hp. rewrite Hframe by (intros; apply Hp; lia).
      apply lookup_delete_ne. intros <-. by apply (Hp n ltac:(lia)).
  - (* a directory: unlink fails with EISDIR and the loop is left *)
    cbn. exists fs, n. repeat split; try lia; try done; intros; lia.
  - (* absent: ENOENT, the loop goes on *)
    cbn [negb Z.eqb andb]. change (ENOENT =? ENOENT) with true. cbn [negb andb].
    destruct (IH fs (n + 1) ltac:(lia) ltac:(lia) Hok)
      as (fs' & stop & Hrun & Hstop & Hdir & Hdel & Hframe).
    exists fs', stop. split; [done|]. split; [lia|]. split; [done|]. split.
    + intros k Hk. destruct (Z.eq_dec k n) as [->|Hne].
      * split; [congruence|]. rewrite Hframe; [done|].
        intros k' Hk'. apply Hdiff. lia.
      * apply Hdel. lia.
    + intros p Hp. apply Hframe. intros; apply Hp; lia.
Qed.

(** [block_truncate] on a valid handle, for a size whose block count
    fits an [int], where the paths of the scanned blocks and of the
    boundary block fit. *)
Lemma block_truncate_fit (fs : filesys) h newSize :
  filename h = fname ->
  (forall k, 0 <= k < SCAN_LIMIT -> path_ok fname k) ->
  (0 < newSize -> path_ok fname ((newSize - 1) / BLOCK_SIZE)) ->
  0 <= newSize <= INT_MAX * BLOCK_SIZE ->
  let K := (newSize + BLOCK_SIZE - 1) / BLOCK_SIZE in
  let kb := (newSize - 1) / BLOCK_SIZE in
  exists fs' stop,
    block_truncate fs (Some h) newSize = (0, fs')
    /\ stop <= SCAN_LIMIT
    /\ (stop < SCAN_LIMIT -> K <= stop /\ fs !! bp stop = Some Dir)
    /\ (forall k, K <= k < stop -> fs !! bp k <> Some Dir /\ fs' !! bp k = None)
    /\ (forall p, (forall k, K <= k < stop -> p <> bp k) ->
          newSize mod BLOCK_SIZE = 0 \/ p <> bp kb ->
          fs' !! p = fs !! p)
    /\ (newSize mod BLOCK_SIZE <> 0 ->
        fs !! get_block_dir fname = Some Dir -> fs !! bp kb <> Some Dir ->
        exists d,
          fs' !! bp kb = Some (File d)
          /\ Z.of_nat (length d) = newSize mod BLOCK_SIZE
          /\ forall i, 0 <= i < newSize mod BLOCK_SIZE ->
               byte_at d i = block_byte fs (bp kb) i).
Proof.
  intros Hh Hscan Hkbok Hs K kb. unfold block_truncate. rewrite Hh.
  change INT_MAX with 2147483647 in Hs.
  destruct (Z.ltb_spec newSize 0); [lia|].
  assert (HK : 0 <= K <= 2147483647 /\ (0 < newSize -> K = kb + 1)).
  { unfold K, kb. change BLOCK_SIZE with 4096 in *. split; [split|].
    - apply Z.div_pos; lia.
    - assert ((newSize + 4096 - 1) / 4096 < 2147483648); [|lia].
      apply Z.div_lt_upper_bound; lia.
    - intros Hpos. replace (newSize + 4096 - 1) with (newSize - 1 + 1 * 4096) by lia.
      rewrite Z.div_add by lia. done. }
  assert (Hkb : 0 < newSize -> 0 <= kb).
  { intros. unfold kb. apply Z.div_pos; [lia | done]. }
  assert (Hlast : to_int (c_div (to_llong (to_llong (newSize + BLOCK_SIZE) - 1))
                           BLOCK_SIZE) = K).
  { change BLOCK_SIZE with 4096 in *.
    rewrite (to_llong_id (newSize + 4096)) by lia.
    rewrite to_llong_id by lia. rewrite c_div_nonneg by lia.
    apply to_int_id. fold K. lia. }
  rewrite Hlast.
  assert (Hloop : exists fs1 stop,
            truncate_loop (Z.to_nat (SCAN_LIMIT - K)) fs fname K = (false, fs1)
            /\ stop <= SCAN_LIMIT
            /\ (stop < SCAN_LIMIT -> K <= stop /\ fs !! bp stop = Some Dir)
            /\ (forall k, K <= k < stop ->
                  fs !! bp k <> Some Dir /\ fs1 !! bp k = None)
            /\ (forall p, (forall k, K <= k < stop -> p <> bp k) ->
                  fs1 !! p = fs !! p)).
  { destruct (Z.lt_ge_cases K SCAN_LIMIT) as [Hlt|Hge].
    - destruct (truncate_loop_spec (Z.to_nat (SCAN_LIMIT - K)) fs K)
        as (fs1 & stop & Hrun & Hstop & Hdir & Hdel & Hframe);
        [lia | lia | exact Hscan |].
      exists fs1, stop. split; [done|]. split; [lia|].
      split; [intros; split; [lia | by apply Hdir]|]. split; done.
    - replace (Z.to_nat (SCAN_LIMIT - K)) with 0%nat by lia.
      exists fs, SCAN_LIMIT. split; [done|]. split; [lia|].
      split; [intros; lia|]. split; [intros; lia | done]. }
  destruct Hloop as (fs1 & stop & Hrun & Hstop & Hdir & Hdel & Hframe).
  rewrite Hrun.
  destruct (Z.gtb_spec newSize 0) as [Hpos|Hzero]; cbn [andb].
  2:{ assert (newSize = 0) as Hz by lia.
      exists fs1, stop. split; [done|]. split; [done|]. split; [done|].
      split; [done|]. split; [intros p Hp _; by apply Hframe|].
      intros Hm. rewrite Hz in Hm. done. }
  rewrite c_mod_nonneg by lia.
  destruct (Z.eqb_spec (newSize mod BLOCK_SIZE) 0) as [Hal|Hna]; cbn [negb].
  { exists fs1, stop. split; [done|]. split; [done|]. split; [done|].
    split; [done|]. split; [intros p Hp _; by apply Hframe | done]. }
  pose proof (Z.mod_pos_bound newSize BLOCK_SIZE ltac:(done)) as Hmb.
  rewrite c_div_nonneg by lia. fold kb.
  destruct HK as [HKr HKkb]. specialize (HKkb Hpos). specialize (Hkb Hpos).
  rewrite (to_int_id kb) by lia.
  rewrite (to_int_id (newSize mod BLOCK_SIZE))
    by (change BLOCK_SIZE with 4096 in *; lia).
  assert (Hokb : path_ok fname kb) by (by apply Hkbok).
  rewrite get_block_path_ok by done.
  change SCAN_LIMIT with 10000 in *.
  assert (Hoks : forall k, K <= k < stop -> path_ok fname k)
    by (intros k Hk; apply Hscan; lia).
  assert (Hbnd : fs1 !! bp kb = fs !! bp kb).
  { apply Hframe. intros k Hk.
    apply block_paths_differ; [lia | lia | done | by apply Hoks | lia]. }
  destruct (scratch_block fs1 (bp kb)) as [Hsl Hsb]. cbv zeta in Hsl, Hsb.
  set (scratch := match fopen_rb fs1 (bp kb) with
                  | Some existing =>
                      store_at (zeros BLOCK_SIZE) 0 (fread existing 0 BLOCK_SIZE)
                  | None => zeros BLOCK_SIZE
                  end) in *.
  destruct (fopen_wb fs1 (bp kb)) as [fs2|] eqn:Hwb.
  - rewrite (fopen_wb_fwrite _ _ _ _ _ Hwb). cbn [snd].
    eexists _, stop. split; [reflexivity|]. split; [done|]. split; [done|].
    split; [|split].
    + intros k Hk. split; [by apply Hdel|].
      rewrite lookup_insert_ne; [by apply Hdel|].
      apply block_paths_differ; [lia | lia | done | by apply Hoks | lia].
    + intros p Hp [Hal|Hne]; [done|].
      rewrite lookup_insert_ne by done. by apply Hframe.
    + intros _ _ _. eexists. split; [apply lookup_insert_eq|].
      split.
      * rewrite length_take. change BLOCK_SIZE with 4096 in *. lia.
      * intros i Hi. rewrite byte_at_take by lia.
        rewrite Hsb by lia. unfold block_byte, fopen_rb. by rewrite Hbnd.
  - exists fs1, stop. split; [done|]. split; [done|]. split; [done|].
    split; [done|]. split; [intros p Hp _; by apply Hframe|].
    intros _ Hdirx Hnd. exfalso.
    unfold fopen_wb in Hwb. rewrite Hbnd in Hwb.
    destruct (fs !! bp kb) as [[d|]|] eqn:Hb0; [done | done |].
    rewrite <- Hbnd in Hb0.
    rewrite parent_exists_block_path in Hwb; [done | done |].
    rewrite Hframe; [done|].
    intros k Hk Heq. destruct (Hdel k Hk) as [Hnd' _].
    rewrite <- Heq in Hnd'. done.
Qed.

(** In particular for a name of at most 997 characters, whose block
    paths all fit. *)
Lemma block_truncate_spec (fs : filesys) h newSize :
  filename h = fname -> strlen fname <= 997 ->
  0 <= newSize <= INT_MAX * BLOCK_SIZE ->
  let K := (newSize + BLOCK_SIZE - 1) / BLOCK_SIZE in
  let kb := (newSize - 1) / BLOCK_SIZE in
  exists fs' stop,
    block_truncate fs (Some h) newSize = (0, fs')
    /\ stop <= SCAN_LIMIT
    /\ (stop < SCAN_LIMIT -> K <= stop /\ fs !! bp stop = Some Dir)
    /\ (forall k, K <= k < stop -> fs !! bp k <> Some Dir /\ fs' !! bp k = None)
    /\ (forall p, (forall k, K <= k < stop -> p <> bp k) ->
          newSize mod BLOCK_SIZE = 0 \/ p <> bp kb ->
          fs' !! p = fs !! p)
    /\ (newSize mod BLOCK_SIZE <> 0 ->
        fs !! get_block_dir fname = Some Dir -> fs !! bp kb <> Some Dir ->
        exists d,
          fs' !! bp kb = Some (File d)
          /\ Z.of_nat (length d) = newSize mod BLOCK_SIZE
          /\ forall i, 0 <= i < newSize mod BLOCK_SIZE ->
               byte_at d i = block_byte fs (bp kb) i).
Proof.
  intros Hh Hlen Hs.
  apply block_truncate_fit; [done | | | done]; intros; by apply short_name_ok.
Qed.
End Truncate.





(** ** Truncate can grow the file (C10) *)

Lemma extent_lookup_None (fs : filesys) fname k :
  extent fs fname k = None <-> fs !! block_path fname k = None.
Proof.
  unfold extent, stat. destruct (fs !! block_path fname k) as [[d|]|]; by split.
Qed.

Lemma extent_bounds (fs : filesys) fname k e :
  0 <= k -> extent fs fname k = Some e ->
  k * BLOCK_SIZE <= e <= (k + 1) * BLOCK_SIZE.
Proof.
  unfold extent. intros Hk. destruct (stat fs _) as [st|] eqn:Hst; [|done].
  intros [= <-]. apply stat_nonneg in Hst. change BLOCK_SIZE with 4096. lia.
Qed.

(** C10, amended: for a size [n] that is not a multiple of 4096 and
    whose boundary block lies below the scan limit, on a handle whose
    name has at most 1003 characters (the scanned block paths fit), in a
    state of logical size less than [n] where the block directory is in
    place and no directory sits where the boundary block goes,
    [block_truncate(bf, n)] returns 0, leaves a boundary block file of
    length [n % 4096] whether or not one existed, and [block_file_size]
    then returns exactly [n]. *)
Theorem block_truncate_grows (fs : filesys) h n :
  strlen (filename h) <= 1003 ->
  0 < n < SCAN_LIMIT * BLOCK_SIZE -> n mod BLOCK_SIZE <> 0 ->
  block_file_size fs (Some h) < n ->
  fs !! get_block_dir (filename h) = Some Dir ->
  fs !! block_path (filename h) ((n - 1) / BLOCK_SIZE) <> Some Dir ->
  let res := block_truncate fs (Some h) n in
  fst res = 0
  /\ (exists d,
        snd res !! block_path (filename h) ((n - 1) / BLOCK_SIZE)
        = Some (File d)
        /\ Z.of_nat (length d) = n mod BLOCK_SIZE)
  /\ block_file_size (snd res) (Some h) = n.
Proof.
  intros Hlen Hn Hna Hsize Hdir Hnd res.
  set (fname := filename h) in *.
  change SCAN_LIMIT with 10000 in Hn. change BLOCK_SIZE with 4096 in Hn.
  assert (Hok : forall k, 0 <= k < SCAN_LIMIT -> path_ok fname k)
    by (intros; by apply scanned_paths_ok).
  pose proof (Z.mod_pos_bound n BLOCK_SIZE ltac:(done)) as Hmb.
  pose proof (Z.div_mod n BLOCK_SIZE ltac:(done)) as Hdm.
  assert (Hkb : (n - 1) / BLOCK_SIZE = n / BLOCK_SIZE).
  { symmetry.
    apply (Z.div_unique_pos (n - 1) BLOCK_SIZE (n / BLOCK_SIZE)
             (n mod BLOCK_SIZE - 1)); lia. }
  assert (Hkbr : 0 <= (n - 1) / BLOCK_SIZE < 10000).
  { rewrite Hkb. change BLOCK_SIZE with 4096. split.
    - apply Z.div_pos; lia.
    - apply Z.div_lt_upper_bound; lia. }
  destruct (block_truncate_fit fname fs h n eq_refl Hok)
    as (fs' & stop & Hrun & Hstop & Hstopdir & Hdel & Hframe & Hbnd).
  { intros _. apply Hok. change SCAN_LIMIT with 10000. lia. }
  { change INT_MAX with 2147483647. change BLOCK_SIZE with 4096. lia. }
  specialize (Hbnd Hna Hdir Hnd) as (d & Hd & Hdl & _).
  subst res. rewrite Hrun. cbn [fst snd].
  split; [done|]. split; [by exists d|].
  set (K := (n + BLOCK_SIZE - 1) / BLOCK_SIZE) in *.
  set (kb := (n - 1) / BLOCK_SIZE) in *.
  assert (HK : K = kb + 1).
  { unfold K, kb. change BLOCK_SIZE with 4096.
    replace (n + 4096 - 1) with (n - 1 + 1 * 4096) by lia.
    by rewrite Z.div_add. }
  assert (Hold : is_max_extent fs fname 0 SCAN_LIMIT (block_file_size fs (Some h)))
    by (by apply block_file_size_spec).
  assert (Hnew : is_max_extent fs' fname 0 SCAN_LIMIT (block_file_size fs' (Some h)))
    by (by apply block_file_size_spec).
  change SCAN_LIMIT with 10000 in *. change BLOCK_SIZE with 4096 in *.
  (* no block from [K] on in the old state *)
  assert (Habove : forall k, K <= k < 10000 -> fs !! block_path fname k = None).
  { intros k Hk. apply extent_lookup_None.
    destruct (extent fs fname k) as [e|] eqn:He; [|done]. exfalso.
    pose proof (proj1 Hold k e ltac:(lia) He).
    pose proof (extent_bounds fs fname k e ltac:(lia) He).
    change BLOCK_SIZE with 4096 in *. lia. }
  assert (Hstop' : stop = 10000).
  { destruct (Z.eq_dec stop 10000) as [|Hne]; [done|]. exfalso.
    destruct (Hstopdir ltac:(lia)) as [HKs Hsd].
    rewrite Habove in Hsd by lia. done. }
  subst stop.
  assert (Hebnd : extent fs' fname kb = Some n).
  { rewrite (extent_file _ _ _ _ Hd). f_equal.
    change BLOCK_SIZE with 4096. lia. }
  destruct Hnew as [Hub Hatt].
  pose proof (Hub kb n ltac:(lia) Hebnd) as Hge.
  destruct Hatt as [Hz|(k & Hk & He)]; [lia|].
  destruct (Z.lt_trichotomy k kb) as [Hlt|[->|Hgt]].
  - pose proof (extent_bounds fs' fname k _ ltac:(lia) He).
    change BLOCK_SIZE with 4096 in *. lia.
  - rewrite Hebnd in He. congruence.
  - destruct (Hdel k ltac:(lia)) as [_ Hnone].
    apply extent_lookup_None in Hnone. congruence.
Qed.

Lemma block_truncate_grows_witness :
  strlen TEST_FILE <= 1003 /\ 0 < 5000 < SCAN_LIMIT * BLOCK_SIZE
  /\ 5000 mod BLOCK_SIZE <> 0
  /\ block_file_size hello_fs fresh_bf < 5000
  /\ hello_fs !! get_block_dir TEST_FILE = Some Dir
  /\ hello_fs !! block_path TEST_FILE ((5000 - 1) / BLOCK_SIZE) <> Some Dir
  /\ block_file_size (snd (block_truncate hello_fs fresh_bf 5000)) fresh_bf
     = 5000.
Proof.
  assert (H1 : strlen TEST_FILE <= 1003) by (vm_compute; discriminate).
  assert (H2 : 0 < 5000 < SCAN_LIMIT * BLOCK_SIZE) by (vm_compute; done).
  assert (H3 : 5000 mod BLOCK_SIZE <> 0) by (vm_compute; discriminate).
  assert (H4 : block_file_size hello_fs (Some {| filename := TEST_FILE |}) < 5000)
    by (vm_compute; reflexivity).
  assert (H5 : hello_fs !! get_block_dir TEST_FILE = Some Dir)
    by (vm_compute; reflexivity).
  assert (H6 : hello_fs !! block_path TEST_FILE ((5000 - 1) / BLOCK_SIZE)
               <> Some Dir) by (vm_compute; discriminate).
  do 6 (split; [assumption|]).
  exact (proj2 (proj2 (block_truncate_grows hello_fs {| filename := TEST_FILE |}
                         5000 H1 H2 H3 H4 H5 H6))).
Defined.

(** C10 as it was stated fails where the boundary block cannot be
    written.  With a regular file at the block directory path
    [block_open] returns 0; the logical size is 0, less than 5000;
    [block_truncate(bf, 5000)] returns 0, having written nothing, since
    it does not look at what [fopen] returned; and [block_file_size]
    still returns 0. *)
Theorem block_truncate_cannot_grow :
  let fs : filesys := {[ "f.blocks" := File [] ]} in
  let bf := Some {| filename := "f" |} in
  block_open fs "f" = (0, bf, fs)
  /\ block_file_size fs bf = 0
  /\ 5000 mod BLOCK_SIZE <> 0
  /\ block_truncate fs bf 5000 = (0, fs)
  /\ block_file_size (snd (block_truncate fs bf 5000)) bf <> 5000.
Proof.
  cbv zeta.
  set (fs := ({[ "f.blocks" := File [] ]} : filesys)).
  assert (Hsize : block_file_size fs (Some {| filename := "f" |}) = 0).
  { apply block_file_size_no_blocks; [vm_compute; discriminate|].
    intros k Hk. cbn [filename]. apply lookup_singleton_ne.
    intros Heq. symmetry in Heq. revert Heq.
    apply (block_path_ne_dir "f" k). apply scanned_paths_ok; [|done].
    vm_compute. discriminate. }
  assert (Htr : block_truncate fs (Some {| filename := "f" |}) 5000 = (0, fs)).
  { assert (H1 : fst (block_truncate fs (Some {| filename := "f" |}) 5000) = 0)
      by (vm_compute; reflexivity).
    assert (H2 : snd (block_truncate fs (Some {| filename := "f" |}) 5000) = fs)
      by (vm_compute; reflexivity).
    rewrite (surjective_pairing (block_truncate _ _ _)). by rewrite H1, H2. }
  split; [vm_compute; reflexivity|]. split; [exact Hsize|].
  split; [vm_compute; discriminate|]. split; [exact Htr|].
  rewrite Htr. cbn [snd]. rewrite Hsize. discriminate.
Qed.


(** ** Paths that do not fit (C8) *)

(** C8 at inputs where it fails.  [get_block_dir] has no length check:
    [block_open] on a name of 1020 characters succeeds and creates the
    directory at the path cut to 1023 characters, ["<name>.bl"].  And
    [block_truncate] ignores the status of [get_block_path] for the
    boundary block: on a handle whose block paths do not fit, where
    [block_read] fails as it should, truncating to 40960001 bytes
    returns 0 and writes the boundary block 10000 to the cut path
    ["<name>.blocks/block_0100"]. *)
Theorem path_truncation_unchecked :
  (strlen (long_name +:+ ".blocks") = 1027
   /\ get_block_dir long_name = long_name +:+ ".bl"
   /\ fst (fst (block_open deep_fs long_name)) = 0
   /\ snd (block_open deep_fs long_name) !! (long_name +:+ ".bl") = Some Dir
   /\ snd (block_open deep_fs long_name) !! (long_name +:+ ".blocks") = None)
  /\ (let opened := block_open deep_fs edge_name in
      let bf := snd (fst opened) in
      let fs := snd opened in
      fst (fst opened) = 0
      /\ get_block_path edge_name 10000
         = (-1, edge_name +:+ ".blocks/block_0100")
      /\ fst (block_read fs bf (Some [xff]) 1 0) = -1
      /\ fst (block_truncate fs bf 40960001) = 0
      /\ fs !! (edge_name +:+ ".blocks/block_0100") = None
      /\ snd (block_truncate fs bf 40960001)
           !! (edge_name +:+ ".blocks/block_0100") = Some (File [x00])).
Proof.
  split.
  - split; [vm_compute; reflexivity|]. split; [vm_compute; reflexivity|].
    split; [vm_compute; reflexivity|]. split; vm_compute; reflexivity.
  - cbv zeta.
    split; [vm_compute; reflexivity|]. split; [vm_compute; reflexivity|].
    split; [vm_compute; reflexivity|]. split; [vm_compute; reflexivity|].
    split; vm_compute; reflexivity.
Qed.


(** * Further properties of [block.c] *)

(** ** Block paths ([get_block_dir], [get_block_path]) *)

Lemma str_app_inv_tail (a b c : string) : a +:+ c = b +:+ c -> a = b.
Proof.
  revert b. induction a as [|x a IH]; intros [|y b] H; [done | | |].
  - exfalso. apply (f_equal String.length) in H.
    rewrite !str_length_app in H. simpl in H. lia.
  - exfalso. apply (f_equal String.length) in H.
    rewrite !str_length_app in H. simpl in H. lia.
  - change (String x (a +:+ c) = String y (b +:+ c)) in H.
    injection H as -> H. f_equal. by apply IH.
Qed.

Lemma fmt_06d_length_ge n : (6 <= String.length (fmt_06d n))%nat.
Proof.
  unfold fmt_06d, fmt_unsigned.
  destruct (n <? 0); cbn [String.length]; rewrite digits_w_length;
    cbn [String.length]; lia.
Qed.

(** [get_block_path] returns 0 exactly when the whole path
    ["<name>.blocks/block_<%06d>"] has fewer than 1024 characters, and
    -1 otherwise; when it returns 0 the buffer holds that whole path. *)
Theorem get_block_path_fits (fname : string) (n : Z) :
  let full := fname +:+ ".blocks" +:+ "/block_" +:+ fmt_06d n in
  (fst (get_block_path fname n) = 0 <-> strlen full < MAX_PATH_LEN)
  /\ (fst (get_block_path fname n) = 0 \/ fst (get_block_path fname n) = -1)
  /\ (fst (get_block_path fname n) = 0 -> snd (get_block_path fname n) = full)
  /\ strlen (snd (get_block_path fname n)) < MAX_PATH_LEN.
Proof.
  cbv zeta.
  assert (Hlen : strlen (fname +:+ ".blocks" +:+ "/block_" +:+ fmt_06d n)
                 = strlen fname + 14 + strlen (fmt_06d n)).
  { rewrite !strlen_app. change (strlen ".blocks") with 7.
    change (strlen "/block_") with 7. lia. }
  split; [|split; [|split]].
  - rewrite Hlen. apply path_ok_iff.
  - destruct (path_ok_dec fname n) as [Hok|Hbad]; [by left|].
    right. by apply get_block_path_not_ok.
  - intros Hok. pose proof (path_ok_eq fname n Hok) as Heq.
    unfold block_path in Heq. rewrite Heq. by rewrite str_app_assoc.
  - unfold get_block_path, snprintf. cbn [snd]. unfold strlen.
    rewrite str_take_length. change MAX_PATH_LEN with 1024.
    change (Z.to_nat (1024 - 1)) with 1023%nat. lia.
Qed.

(** Block files are never shared: when the paths fit, two block paths
    are equal only for the same virtual file name and the same [int]
    block number. *)
Theorem block_paths_never_shared (name1 name2 : string) (a b : Z) :
  - 2 ^ 31 <= a < 2 ^ 31 -> - 2 ^ 31 <= b < 2 ^ 31 ->
  fst (get_block_path name1 a) = 0 -> fst (get_block_path name2 b) = 0 ->
  snd (get_block_path name1 a) = snd (get_block_path name2 b) ->
  name1 = name2 /\ a = b.
Proof.
  intros Ha Hb Hoa Hob Heq.
  assert (Hd : dirname (block_path name1 a) = dirname (block_path name2 b))
    by (unfold block_path; by rewrite Heq).
  rewrite !dirname_block_path in Hd by done.
  injection Hd as Hd.
  pose proof (proj1 (path_ok_iff name1 a) Hoa) as H1.
  pose proof (proj1 (path_ok_iff name2 b) Hob) as H2.
  pose proof (strlen_nonneg (fmt_06d a)). pose proof (strlen_nonneg (fmt_06d b)).
  rewrite !get_block_dir_short in Hd by lia.
  apply str_app_inv_tail in Hd. subst name2. split; [done|].
  by apply (block_path_inj name1).
Qed.

Lemma block_paths_never_shared_witness :
  (- 2 ^ 31 <= 3 < 2 ^ 31) /\ (- 2 ^ 31 <= 3 < 2 ^ 31)
  /\ fst (get_block_path "a.db" 3) = 0 /\ fst (get_block_path "a.db" 3) = 0
  /\ snd (get_block_path "a.db" 3) = snd (get_block_path "a.db" 3)
  /\ "a.db" = "a.db" /\ 3 = 3.
Proof.
  assert (H1 : - 2 ^ 31 <= 3 < 2 ^ 31) by lia.
  assert (H2 : fst (get_block_path "a.db" 3) = 0) by reflexivity.
  assert (H3 : snd (get_block_path "a.db" 3) = snd (get_block_path "a.db" 3))
    by reflexivity.
  do 2 (split; [exact H1|]). do 2 (split; [exact H2|]). split; [exact H3|].
  exact (block_paths_never_shared "a.db" "a.db" 3 3 H1 H1 H2 H2 H3).
Defined.


(** ** Opening a store ([ensure_block_dir], [block_open], [block_close]) *)

Lemma block_open_present (fs : filesys) fname :
  fs !! get_block_dir fname <> None ->
  block_open fs fname = (0, Some {| filename := fname |}, fs).
Proof.
  intros Hd. unfold block_open, ensure_block_dir, stat.
  by destruct (fs !! get_block_dir fname) as [[d|]|].
Qed.

(** [block_open] does not ask whether what sits at the block directory
    path is a directory: over a regular file it returns 0, and a write
    that has to create its first block file then returns -1 and writes
    nothing. *)
Theorem block_open_over_regular_file (fs : filesys) fname d buf size offset :
  fs !! get_block_dir fname = Some (File d) ->
  0 < size <= INT_MAX -> 0 <= offset <= LLONG_MAX ->
  size <= Z.of_nat (length buf) ->
  fst (get_block_path fname (to_int (offset / BLOCK_SIZE))) = 0 ->
  fs !! snd (get_block_path fname (to_int (offset / BLOCK_SIZE))) = None ->
  block_open fs fname = (0, Some {| filename := fname |}, fs)
  /\ block_write fs (Some {| filename := fname |}) (Some buf) size offset
     = (-1, fs).
Proof.
  intros Hd Hs Ho Hbuf Hok Habs.
  split; [apply block_open_present; by rewrite Hd|].
  unfold block_write. cbn [filename].
  destruct (Z.ltb_spec size 0); [lia|]. destruct (Z.ltb_spec offset 0); [lia|].
  cbn [orb].
  assert (Hfuel : Z.to_nat size = S (Z.to_nat (size - 1))) by lia.
  rewrite Hfuel.
  rewrite <- (to_llong_id offset) at 1
    by (change LLONG_MAX with (2 ^ 63 - 1) in Ho; lia).
  destruct (write_loop_step fname (Z.to_nat (size - 1)) fs buf size offset 0)
    as (D & _ & _ & Hstep); try done; try lia.
  { unfold cursor_ok. lia. }
  rewrite Hstep.
  fold (block_path fname (to_int (offset / BLOCK_SIZE))) in Habs.
  unfold fopen_wb. rewrite Habs.
  unfold parent_exists. rewrite dirname_block_path by done.
  destruct (get_block_dir fname) eqn:Hname.
  - exfalso. pose proof (strlen_get_block_dir fname) as Hl.
    rewrite Hname in Hl. pose proof (strlen_nonneg fname).
    unfold strlen in Hl at 1. simpl in Hl. lia.
  - by rewrite Hd.
Qed.

Lemma block_open_over_regular_file_witness :
  ({[ "f.blocks" := File [] ]} : filesys) !! get_block_dir "f" = Some (File [])
  /\ (0 < 1 <= INT_MAX) /\ (0 <= 0 <= LLONG_MAX)
  /\ 1 <= Z.of_nat (length [x41])
  /\ fst (get_block_path "f" (to_int (0 / BLOCK_SIZE))) = 0
  /\ ({[ "f.blocks" := File [] ]} : filesys)
       !! snd (get_block_path "f" (to_int (0 / BLOCK_SIZE))) = None
  /\ block_write {[ "f.blocks" := File [] ]} (Some {| filename := "f" |})
       (Some [x41]) 1 0
     = (-1, {[ "f.blocks" := File [] ]}).
Proof.
  assert (H1 : ({[ "f.blocks" := File [] ]} : filesys) !! get_block_dir "f"
               = Some (File [])) by reflexivity.
  assert (H2 : 0 < 1 <= INT_MAX) by (vm_compute; split; [done | discriminate]).
  assert (H3 : 0 <= 0 <= LLONG_MAX) by (vm_compute; split; discriminate).
  assert (H4 : 1 <= Z.of_nat (length [x41])) by (vm_compute; discriminate).
  assert (H5 : fst (get_block_path "f" (to_int (0 / BLOCK_SIZE))) = 0)
    by reflexivity.
  assert (H6 : ({[ "f.blocks" := File [] ]} : filesys)
                 !! snd (get_block_path "f" (to_int (0 / BLOCK_SIZE))) = None)
    by reflexivity.
  do 6 (split; [assumption|]).
  exact (proj2 (block_open_over_regular_file _ "f" [] [x41] 1 0
                  H1 H2 H3 H4 H5 H6)).
Defined.

(** Data written through one handle is there for the next: after a
    successful write on an opened store and [block_close], opening the
    same name again returns 0 without changing anything, and reading
    through the new handle returns the bytes written. *)
Theorem data_survives_reopen (fs : filesys) h b out size offset r fs' :
  0 <= size <= INT_MAX -> Z.of_nat (length b) = size ->
  0 <= offset <= LLONG_MAX -> size <= Z.of_nat (length out) ->
  fs !! get_block_dir (filename h) <> None ->
  block_write fs (Some h) (Some b) size offset = (r, fs') -> r <> -1 ->
  block_close (Some h) = 0
  /\ block_open fs' (filename h) = (0, Some h, fs')
  /\ block_read fs' (snd (fst (block_open fs' (filename h)))) (Some out)
       size offset
     = (size, Some (b ++ drop (Z.to_nat size) out)).
Proof.
  intros Hs Hb Ho Hout Hdir Hrun Hr.
  destruct (block_write_spec fs h b size offset r fs')
    as (_ & Hok & Hframe & _); try done; try lia.
  assert (Hdir' : fs' !! get_block_dir (filename h) <> None).
  { rewrite Hframe; [done|]. intros pos Hp Heq.
    symmetry in Heq. revert Heq. apply block_path_ne_dir. by apply Hok. }
  assert (Hopen : block_open fs' (filename h) = (0, Some h, fs')).
  { rewrite block_open_present by done. by destruct h. }
  split; [done|]. split; [done|].
  rewrite Hopen. cbn [fst snd].
  assert (Hrt : r = size /\ block_read fs' (Some h) (Some out) size offset
                    = (size, Some (b ++ drop (Z.to_nat size) out))).
  { destruct (block_read_run fs' h out size offset Hs Ho)
      as [[_ Hread]|[Hbad _]]; [|done].
    split; [by destruct (block_write_spec fs h b size offset r fs')
              as (-> & _); try done; lia|].
    rewrite Hread. do 3 f_equal. apply bytes_eq.
    - rewrite length_fmap, length_seqZ. lia.
    - intros i Hi. rewrite length_fmap, length_seqZ in Hi.
      rewrite byte_at_map_seqZ by lia.
      apply (written_bytes fs h b size offset r fs'); try done; lia. }
  apply Hrt.
Qed.

Lemma data_survives_reopen_witness :
  (0 <= 13 <= INT_MAX) /\ Z.of_nat (length hello) = 13
  /\ (0 <= 0 <= LLONG_MAX) /\ 13 <= Z.of_nat (length (replicate 13 xff))
  /\ fresh_fs !! get_block_dir TEST_FILE <> None
  /\ block_write fresh_fs fresh_bf (Some hello) 13 0 = (13, hello_fs)
  /\ 13 <> -1
  /\ block_open hello_fs TEST_FILE = (0, fresh_bf, hello_fs).
Proof.
  assert (H1 : 0 <= 13 <= INT_MAX) by (vm_compute; split; discriminate).
  assert (H2 : Z.of_nat (length hello) = 13) by reflexivity.
  assert (H3 : 0 <= 0 <= LLONG_MAX) by (vm_compute; split; discriminate).
  assert (H4 : 13 <= Z.of_nat (length (replicate 13 xff)))
    by (vm_compute; discriminate).
  assert (H5 : fresh_fs !! get_block_dir TEST_FILE <> None)
    by (vm_compute; discriminate).
  assert (H6 : block_write fresh_fs (Some {| filename := TEST_FILE |})
                 (Some hello) 13 0 = (13, hello_fs)).
  { unfold hello_fs. change fresh_bf with (Some {| filename := TEST_FILE |}).
    rewrite (surjective_pairing (block_write _ _ _ _ _)) at 1.
    f_equal; vm_compute; reflexivity. }
  assert (H7 : 13 <> -1) by discriminate.
  do 7 (split; [assumption|]).
  exact (proj1 (proj2 (data_survives_reopen fresh_fs {| filename := TEST_FILE |}
                         hello (replicate 13 xff) 13 0 13 hello_fs
                         H1 H2 H3 H4 H5 H6 H7))).
Defined.


(** ** Names too long for any block path *)

Lemma long_name_no_path fname n : 1004 <= strlen fname -> ~ path_ok fname n.
Proof.
  intros Hlen Hok. apply path_ok_iff in Hok.
  pose proof (fmt_06d_length_ge n). unfold strlen, MAX_PATH_LEN in *. lia.
Qed.

Lemma read_loop_bad_path fname fuel (fs : filesys) out size v total :
  0 < size -> 0 <= v -> v + size <= LLONG_MAX + INT_MAX -> cursor_ok v size ->
  ~ path_ok fname (to_int (v / BLOCK_SIZE)) ->
  read_loop (S fuel) fs fname out size (to_llong v) total = (-1, out).
Proof.
  intros Hs Hv Hmax Hcur Hbad. cbn [read_loop].
  destruct (Z.gtb_spec size 0) as [_|]; [|lia].
  destruct (cursor_block v) as [Hdiv _]; [lia | |].
  { destruct Hcur as [|]; [lia | done]. }
  rewrite Hdiv.
  rewrite (surjective_pairing (get_block_path _ _)).
  rewrite get_block_path_not_ok by done. done.
Qed.

(** On a handle whose name has 1004 characters or more no block path
    fits: every read and write of at least one byte, every size query
    and every truncation to a size within the scanned blocks returns -1
    and leaves the file system and the buffer as they were; reads and
    writes of zero bytes still return 0. *)
Theorem long_name_rejected (fs : filesys) h buf size offset :
  1004 <= strlen (filename h) ->
  0 < size <= INT_MAX -> 0 <= offset <= LLONG_MAX ->
  block_read fs (Some h) (Some buf) size offset = (-1, Some buf)
  /\ block_write fs (Some h) (Some buf) size offset = (-1, fs)
  /\ block_file_size fs (Some h) = -1
  /\ (forall n, 0 <= n <= (SCAN_LIMIT - 1) * BLOCK_SIZE ->
        block_truncate fs (Some h) n = (-1, fs))
  /\ block_read fs (Some h) (Some buf) 0 offset = (0, Some buf)
  /\ block_write fs (Some h) (Some buf) 0 offset = (0, fs).
Proof.
  intros Hlen Hs Ho.
  assert (Hbad : forall n, ~ path_ok (filename h) n)
    by (intros; by apply long_name_no_path).
  assert (Hfuel : Z.to_nat size = S (Z.to_nat (size - 1))) by lia.
  assert (Hoff : to_llong offset = offset).
  { apply to_llong_id. change LLONG_MAX with (2 ^ 63 - 1) in Ho. lia. }
  assert (Hcur : cursor_ok offset size) by (unfold cursor_ok; lia).
  split; [|split; [|split; [|split; [|split]]]].
  - unfold block_read.
    destruct (Z.ltb_spec size 0); [lia|]. destruct (Z.ltb_spec offset 0); [lia|].
    cbn [orb]. rewrite Hfuel, <- Hoff.
    rewrite read_loop_bad_path;
      [by rewrite drop_0 | lia | lia | lia | done | apply Hbad].
  - unfold block_write.
    destruct (Z.ltb_spec size 0); [lia|]. destruct (Z.ltb_spec offset 0); [lia|].
    cbn [orb]. rewrite Hfuel, <- Hoff.
    apply write_loop_bad_path; [lia | lia | lia | done | apply Hbad].
  - unfold block_file_size.
    assert (Hf : Z.to_nat SCAN_LIMIT = S (Z.to_nat (SCAN_LIMIT - 1)))
      by (change SCAN_LIMIT with 10000; lia).
    rewrite Hf. cbn [size_loop]. change (0 <? SCAN_LIMIT) with true. cbv iota.
    rewrite (surjective_pairing (get_block_path _ _)).
    rewrite get_block_path_not_ok by done. done.
  - intros n Hn. unfold block_truncate.
    change SCAN_LIMIT with 10000 in *. change BLOCK_SIZE with 4096 in *.
    destruct (Z.ltb_spec n 0); [lia|].
    rewrite (to_llong_id (n + 4096)) by lia.
    rewrite to_llong_id by lia. rewrite c_div_nonneg by lia.
    assert (HK : 0 <= (n + 4096 - 1) / 4096 < 10000).
    { split; [apply Z.div_pos; lia|]. apply Z.div_lt_upper_bound; lia. }
    rewrite to_int_id by lia.
    set (K := (n + 4096 - 1) / 4096) in *.
    assert (Hf : Z.to_nat (10000 - K) = S (Z.to_nat (10000 - K - 1))) by lia.
    rewrite Hf. cbn [truncate_loop]. change SCAN_LIMIT with 10000.
    destruct (Z.ltb_spec K 10000); [|lia].
    rewrite (surjective_pairing (get_block_path _ _)).
    rewrite get_block_path_not_ok by done. done.
  - unfold block_read.
    destruct (Z.ltb_spec offset 0); [lia|]. reflexivity.
  - unfold block_write.
    destruct (Z.ltb_spec offset 0); [lia|]. done.
Qed.

Lemma long_name_rejected_witness :
  1004 <= strlen edge_name /\ (0 < 1 <= INT_MAX) /\ (0 <= 0 <= LLONG_MAX)
  /\ block_write deep_fs (Some {| filename := edge_name |}) (Some [x41]) 1 0
     = (-1, deep_fs).
Proof.
  assert (H1 : 1004 <= strlen edge_name) by (vm_compute; discriminate).
  assert (H2 : 0 < 1 <= INT_MAX) by (vm_compute; split; [done | discriminate]).
  assert (H3 : 0 <= 0 <= LLONG_MAX) by (vm_compute; split; discriminate).
  do 3 (split; [assumption|]).
  exact (proj1 (proj2 (long_name_rejected deep_fs {| filename := edge_name |}
                         [x41] 1 0 H1 H2 H3))).
Defined.


(** ** How the logical size moves ([block_file_size] after
       [block_write] and [block_truncate]) *)

Lemma span_blocks offset size k :
  0 < size -> 0 <= offset ->
  (exists pos, offset <= pos < offset + size /\ pos / BLOCK_SIZE = k)
  <-> offset / BLOCK_SIZE <= k <= (offset + size - 1) / BLOCK_SIZE.
Proof.
  change BLOCK_SIZE with 4096. intros Hs Ho. split.
  - intros (pos & Hp & <-). split; apply Z.div_le_mono; lia.
  - intros [Hlo Hhi]. exists (Z.max offset (k * 4096)).
    pose proof (Z.div_mod (offset + size - 1) 4096 ltac:(lia)).
    pose proof (Z.mod_pos_bound (offset + size - 1) 4096 ltac:(lia)).
    pose proof (Z.div_mod offset 4096 ltac:(lia)).
    pose proof (Z.mod_pos_bound offset 4096 ltac:(lia)).
    destruct (Z.max_spec offset (k * 4096)) as [[Hlt ->]|[Hge ->]].
    + split; [lia|]. apply Z.div_mul. lia.
    + split; [lia|]. apply Z.le_antisymm; [done|].
      apply Z.div_le_lower_bound; lia.
Qed.

Lemma extent_same (fs fs' : filesys) fname k :
  fs' !! block_path fname k = fs !! block_path fname k ->
  extent fs' fname k = extent fs fname k.
Proof. intros H. unfold extent, stat. by rewrite H. Qed.

(** The size reported lies between 0 and 10000 blocks whenever the
    scanned paths fit. *)
Lemma block_file_size_range (fs : filesys) h :
  strlen (filename h) <= 1003 ->
  0 <= block_file_size fs (Some h) <= SCAN_LIMIT * BLOCK_SIZE.
Proof.
  intros Hlen.
  destruct (block_file_size_spec fs (filename h) h eq_refl)
    as [_ [Hz|(k & Hk & He)]]; [by intros; apply scanned_paths_ok | |].
  - rewrite Hz. done.
  - pose proof (extent_bounds fs (filename h) k _ ltac:(lia) He).
    change SCAN_LIMIT with 10000 in *. change BLOCK_SIZE with 4096 in *. lia.
Qed.

(** A successful write of at least one byte that ends within the
    scanned blocks makes the logical size the larger of the old size
    and the end of the last block written, a whole number of blocks:
    the size never shrinks under a write, and 5 bytes written at
    offset 0 of an empty store give size 4096. *)
Theorem write_extends_size (fs : filesys) h b size offset r fs' :
  strlen (filename h) <= 997 ->
  0 < size <= INT_MAX -> size <= Z.of_nat (length b) ->
  0 <= offset -> offset + size <= SCAN_LIMIT * BLOCK_SIZE ->
  block_write fs (Some h) (Some b) size offset = (r, fs') -> r <> -1 ->
  block_file_size fs' (Some h)
  = Z.max (block_file_size fs (Some h))
          (((offset + size - 1) / BLOCK_SIZE + 1) * BLOCK_SIZE).
Proof.
  intros Hlen Hs Hb Ho Hend Hrun Hr.
  set (fname := filename h) in *.
  assert (Hok : forall k, path_ok fname k) by (intros; by apply short_name_ok).
  destruct (block_write_spec fs h b size offset r fs')
    as (_ & _ & Hframe & Hblocks); try done; try lia.
  { change SCAN_LIMIT with 10000 in Hend. change BLOCK_SIZE with 4096 in Hend.
    change LLONG_MAX with (2 ^ 63 - 1). lia. }
  fold fname in Hframe, Hblocks.
  pose proof (block_file_size_spec fs fname h eq_refl
                ltac:(intros; apply Hok)) as [Hub Hatt].
  pose proof (block_file_size_spec fs' fname h eq_refl
                ltac:(intros; apply Hok)) as [Hub' Hatt'].
  set (r0 := block_file_size fs (Some h)) in *.
  set (r1 := block_file_size fs' (Some h)) in *.
  set (F := offset / BLOCK_SIZE). set (L := (offset + size - 1) / BLOCK_SIZE).
  assert (HFL : 0 <= F <= L /\ L < SCAN_LIMIT).
  { unfold F, L. change SCAN_LIMIT with 10000 in *.
    change BLOCK_SIZE with 4096 in *. split; [split|].
    - apply Z.div_pos; lia.
    - apply Z.div_le_mono; lia.
    - apply Z.div_lt_upper_bound; lia. }
  change SCAN_LIMIT with 10000 in *.
  assert (Hin : forall k, F <= k <= L ->
                  extent fs' fname k = Some ((k + 1) * BLOCK_SIZE)).
  { intros k Hk.
    destruct (proj2 (span_blocks offset size k ltac:(lia) Ho) Hk)
      as (pos & Hp & Hq).
    destruct (Hblocks pos Hp) as (d & Hd & Hdl & _).
    rewrite Hq, to_int_id in Hd by lia.
    rewrite (extent_file _ _ _ _ Hd), Hdl. f_equal.
    change BLOCK_SIZE with 4096. lia. }
  assert (Hout : forall k, 0 <= k < 10000 -> ~ (F <= k <= L) ->
                   extent fs' fname k = extent fs fname k).
  { intros k Hk Hnot. apply extent_same, Hframe. intros pos Hp.
    assert (Hq : F <= pos / BLOCK_SIZE <= L)
      by (apply (span_blocks offset size); [lia | done | by exists pos]).
    rewrite to_int_id by lia.
    apply block_paths_differ; try done; lia. }
  assert (Hr0 : 0 <= r0) by (apply block_file_size_range; unfold fname in *; lia).
  pose proof (Hub' L _ ltac:(lia) (Hin L ltac:(lia))) as HgeL.
  apply Z.le_antisymm.
  - destruct Hatt' as [Hz|(k & Hk & He)].
    { change BLOCK_SIZE with 4096 in *. lia. }
    destruct (decide (F <= k <= L)) as [Hkin|Hkout].
    + rewrite Hin in He by done. injection He as <-.
      change BLOCK_SIZE with 4096. lia.
    + rewrite Hout in He by done. pose proof (Hub k _ Hk He). lia.
  - apply Z.max_lub; [|done].
    destruct Hatt as [Hz|(k & Hk & He)]; [change BLOCK_SIZE with 4096 in *; lia|].
    destruct (decide (F <= k <= L)) as [Hkin|Hkout].
    + pose proof (extent_bounds fs fname k _ ltac:(lia) He).
      change BLOCK_SIZE with 4096 in *. lia.
    + rewrite <- Hout in He by done. apply (Hub' k); done.
Qed.

Lemma write_extends_size_witness :
  strlen TEST_FILE <= 997 /\ (0 < 13 <= INT_MAX)
  /\ 13 <= Z.of_nat (length hello) /\ 0 <= 0
  /\ 0 + 13 <= SCAN_LIMIT * BLOCK_SIZE
  /\ block_write fresh_fs fresh_bf (Some hello) 13 0 = (13, hello_fs)
  /\ 13 <> -1
  /\ block_file_size hello_fs fresh_bf
     = Z.max (block_file_size fresh_fs fresh_bf)
             (((0 + 13 - 1) / BLOCK_SIZE + 1) * BLOCK_SIZE).
Proof.
  assert (H1 : strlen TEST_FILE <= 997) by (vm_compute; discriminate).
  assert (H2 : 0 < 13 <= INT_MAX) by (vm_compute; split; [done | discriminate]).
  assert (H3 : 13 <= Z.of_nat (length hello)) by (vm_compute; discriminate).
  assert (H4 : 0 <= 0) by lia.
  assert (H5 : 0 + 13 <= SCAN_LIMIT * BLOCK_SIZE) by (vm_compute; discriminate).
  assert (H6 : block_write fresh_fs (Some {| filename := TEST_FILE |})
                 (Some hello) 13 0 = (13, hello_fs)).
  { unfold hello_fs. change fresh_bf with (Some {| filename := TEST_FILE |}).
    rewrite (surjective_pairing (block_write _ _ _ _ _)) at 1.
    f_equal; vm_compute; reflexivity. }
  assert (H7 : 13 <> -1) by discriminate.
  do 7 (split; [assumption|]).
  exact (write_extends_size fresh_fs {| filename := TEST_FILE |} hello 13 0 13
           hello_fs H1 H2 H3 H4 H5 H6 H7).
Defined.


(** ** What [block_truncate] leaves behind

    For a name of at most 997 characters, a store whose block directory
    exists and whose block paths below the scan limit hold no
    directory, and a new size within the scanned blocks. *)

Lemma truncate_clean (fs : filesys) h n :
  strlen (filename h) <= 997 -> 0 <= n <= SCAN_LIMIT * BLOCK_SIZE ->
  (forall k, 0 <= k < SCAN_LIMIT ->
     fs !! block_path (filename h) k <> Some Dir) ->
  fs !! get_block_dir (filename h) = Some Dir ->
  let bp := block_path (filename h) in
  let K := (n + BLOCK_SIZE - 1) / BLOCK_SIZE in
  exists fs',
    block_truncate fs (Some h) n = (0, fs')
    /\ (forall k, K <= k < SCAN_LIMIT -> fs' !! bp k = None)
    /\ (forall k, 0 <= k < K -> n mod BLOCK_SIZE = 0 \/ k <> K - 1 ->
          fs' !! bp k = fs !! bp k)
    /\ (n mod BLOCK_SIZE <> 0 ->
        exists d,
          fs' !! bp (K - 1) = Some (File d)
          /\ Z.of_nat (length d) = n mod BLOCK_SIZE
          /\ forall i, 0 <= i < n mod BLOCK_SIZE ->
               byte_at d i = block_byte fs (bp (K - 1)) i).
Proof.
  intros Hlen Hn Hnd Hdir bp K.
  assert (Hok : forall k, path_ok (filename h) k)
    by (intros; by apply short_name_ok).
  destruct (block_truncate_spec (filename h) fs h n eq_refl Hlen)
    as (fs' & stop & Hrun & Hstop & Hstopdir & Hdel & Hframe & Hbnd).
  { change SCAN_LIMIT with 10000 in Hn. change INT_MAX with 2147483647.
    change BLOCK_SIZE with 4096 in *. lia. }
  fold K in Hstopdir, Hdel, Hframe.
  assert (HK : 0 <= K <= SCAN_LIMIT).
  { unfold K. change SCAN_LIMIT with 10000 in *.
    change BLOCK_SIZE with 4096 in *. split.
    - apply Z.div_pos; lia.
    - assert ((n + 4096 - 1) / 4096 < 10001); [|lia].
      apply Z.div_lt_upper_bound; lia. }
  assert (Hkb : 0 < n -> (n - 1) / BLOCK_SIZE = K - 1).
  { intros Hpos. unfold K. change BLOCK_SIZE with 4096.
    replace (n + 4096 - 1) with (n - 1 + 1 * 4096) by lia.
    rewrite Z.div_add by lia. lia. }
  assert (Hst : stop = SCAN_LIMIT).
  { destruct (decide (stop < SCAN_LIMIT)) as [Hlt|]; [|lia].
    destruct (Hstopdir Hlt) as [HKs Hd]. by apply Hnd in Hd; [|lia]. }
  subst stop. exists fs'. split; [done|].
  assert (Hpos : n mod BLOCK_SIZE <> 0 -> 0 < n).
  { intros Hm. destruct (decide (n = 0)) as [->|]; [done|lia]. }
  split; [|split].
  - intros k Hk. by apply Hdel.
  - intros k Hk Hal. apply Hframe.
    + intros k' Hk'. change SCAN_LIMIT with 10000 in *.
      apply block_paths_differ; try done; lia.
    + destruct Hal as [Hal|Hne]; [by left|right].
      destruct (decide (n = 0)) as [->|Hn0]; [change K with 0 in Hk; lia|].
      rewrite Hkb by lia. change SCAN_LIMIT with 10000 in *.
      apply block_paths_differ; try done; lia.
  - intros Hm. rewrite Hkb in Hbnd by auto. apply Hbnd; [done..|].
    apply Hnd. change SCAN_LIMIT with 10000 in *.
    pose proof (Hpos Hm). assert (0 < K); [|lia].
    unfold K. change BLOCK_SIZE with 4096 in *.
    apply Z.div_str_pos. lia.
Qed.

(** Truncating cuts the content at the new size.  For a name of at
    most 997 characters, a new size [n] with [0 <= n <= 10000 * 4096],
    and a store whose block directory exists and whose block paths
    below 10000 hold no directory: [block_truncate] returns 0, and
    every position below the scan limit keeps its byte when it lies
    before [n] and reads as zero from [n] on, also inside the block
    [n] falls into. *)
Theorem truncate_cuts_content (fs : filesys) h n :
  strlen (filename h) <= 997 -> 0 <= n <= SCAN_LIMIT * BLOCK_SIZE ->
  (forall k, 0 <= k < SCAN_LIMIT ->
     fs !! block_path (filename h) k <> Some Dir) ->
  fs !! get_block_dir (filename h) = Some Dir ->
  let res := block_truncate fs (Some h) n in
  fst res = 0
  /\ forall pos, 0 <= pos < SCAN_LIMIT * BLOCK_SIZE ->
       logical_byte (snd res) (filename h) pos
       = if pos <? n then logical_byte fs (filename h) pos else x00.
Proof.
  intros Hlen Hn Hnd Hdir res.
  destruct (truncate_clean fs h n Hlen Hn Hnd Hdir)
    as (fs' & Hrun & Hgone & Hkept & Hbnd).
  subst res. rewrite Hrun. cbn [fst snd]. split; [done|].
  intros pos Hp.
  set (K := (n + BLOCK_SIZE - 1) / BLOCK_SIZE) in *.
  set (k := pos / BLOCK_SIZE).
  change SCAN_LIMIT with 10000 in *.
  assert (Hk : 0 <= k < 10000).
  { unfold k. change BLOCK_SIZE with 4096 in *. split.
    - apply Z.div_pos; lia.
    - apply Z.div_lt_upper_bound; lia. }
  pose proof (Z.div_mod pos BLOCK_SIZE ltac:(done)) as Hpdm.
  pose proof (Z.mod_pos_bound pos BLOCK_SIZE ltac:(done)) as Hpm.
  fold k in Hpdm.
  pose proof (Z.div_mod (n + BLOCK_SIZE - 1) BLOCK_SIZE ltac:(done)) as HKdm.
  pose proof (Z.mod_pos_bound (n + BLOCK_SIZE - 1) BLOCK_SIZE ltac:(done)) as HKm.
  fold K in HKdm.
  pose proof (Z.div_mod n BLOCK_SIZE ltac:(done)) as Hndm.
  pose proof (Z.mod_pos_bound n BLOCK_SIZE ltac:(done)) as Hnm.
  destruct (decide (K <= k)) as [Hge|Hlt].
  - rewrite logical_byte_absent
      by (fold k; rewrite to_int_id by lia; apply Hgone; lia).
    destruct (Z.ltb_spec pos n); [|done].
    change BLOCK_SIZE with 4096 in *. lia.
  - destruct (decide (n mod BLOCK_SIZE = 0 \/ k <> K - 1)) as [Hal|Hlast].
    + assert (Hsame : fs' !! block_path (filename h) k
                      = fs !! block_path (filename h) k)
        by (apply Hkept; [lia|done]).
      assert (Hlt' : pos < n).
      { change BLOCK_SIZE with 4096 in *. destruct Hal as [Hal|Hne]; [|nia].
        rewrite Hal in Hndm. nia. }
      destruct (Z.ltb_spec pos n); [|lia].
      unfold logical_byte, block_byte, fopen_rb. fold k.
      rewrite to_int_id by lia. by rewrite Hsame.
    + assert (Hm : n mod BLOCK_SIZE <> 0) by tauto.
      assert (Hk1 : k = K - 1) by (destruct (decide (k = K - 1)); tauto).
      destruct (Hbnd Hm) as (d & Hd & Hdl & Hbytes).
      rewrite <- Hk1 in Hd, Hbytes.
      rewrite (logical_byte_file fs' _ pos d)
        by (fold k; by rewrite to_int_id by lia).
      rewrite Hdl.
      assert (HnK : n = k * BLOCK_SIZE + n mod BLOCK_SIZE).
      { assert (n / BLOCK_SIZE = k); [|lia].
        symmetry. apply (Z.div_unique n BLOCK_SIZE k (n - k * BLOCK_SIZE)); [|lia].
        left. change BLOCK_SIZE with 4096 in *. nia. }
      destruct (Z.ltb_spec (pos mod BLOCK_SIZE) (n mod BLOCK_SIZE));
        destruct (Z.ltb_spec pos n); try done;
        try (change BLOCK_SIZE with 4096 in *; lia).
      rewrite Hbytes by lia. unfold logical_byte. fold k.
      by rewrite to_int_id by lia.
Qed.

(** The store of the "Hello, World!" example holds one directory, the
    block directory. *)
Lemma hello_fs_blocks_regular k :
  0 <= k < SCAN_LIMIT -> hello_fs !! block_path TEST_FILE k <> Some Dir.
Proof.
  intros Hk Hd.
  assert (Hfs : exists d, hello_fs
            = <[block_path TEST_FILE 0 := File d]>
                {[get_block_dir TEST_FILE := Dir]})
    by (eexists; vm_compute; reflexivity).
  destruct Hfs as [d Hfs]. rewrite Hfs in Hd.
  assert (Hok : path_ok TEST_FILE k)
    by (apply scanned_paths_ok; [vm_compute; discriminate | done]).
  destruct (decide (block_path TEST_FILE k = block_path TEST_FILE 0)) as [He|Hne].
  - by rewrite He, lookup_insert_eq in Hd.
  - rewrite lookup_insert_ne in Hd by done.
    apply lookup_singleton_Some in Hd as [Hp _].
    by apply (block_path_ne_dir TEST_FILE k).
Qed.

Lemma truncate_cuts_content_witness :
  strlen TEST_FILE <= 997 /\ 0 <= 5 <= SCAN_LIMIT * BLOCK_SIZE
  /\ (forall k, 0 <= k < SCAN_LIMIT ->
        hello_fs !! block_path TEST_FILE k <> Some Dir)
  /\ hello_fs !! get_block_dir TEST_FILE = Some Dir
  /\ logical_byte (snd (block_truncate hello_fs fresh_bf 5)) TEST_FILE 4 = x6f
  /\ logical_byte (snd (block_truncate hello_fs fresh_bf 5)) TEST_FILE 5 = x00.
Proof.
  assert (H1 : strlen TEST_FILE <= 997) by (vm_compute; discriminate).
  assert (H2 : 0 <= 5 <= SCAN_LIMIT * BLOCK_SIZE)
    by (vm_compute; split; discriminate).
  assert (H4 : hello_fs !! get_block_dir TEST_FILE = Some Dir)
    by (vm_compute; reflexivity).
  pose proof (truncate_cuts_content hello_fs {| filename := TEST_FILE |} 5
                H1 H2 hello_fs_blocks_regular H4) as [_ Hc].
  split; [assumption|]. split; [assumption|].
  split; [exact hello_fs_blocks_regular|]. split; [assumption|].
  cbn [filename] in Hc. change fresh_bf with (Some {| filename := TEST_FILE |}).
  split.
  - rewrite (Hc 4) by (vm_compute; split; [discriminate | reflexivity]).
    vm_compute. reflexivity.
  - rewrite (Hc 5) by (vm_compute; split; [discriminate | reflexivity]).
    reflexivity.
Defined.

(** The size after truncating, for a name of at most 997 characters,
    a new size [n] with [0 <= n <= 10000 * 4096], and a store whose
    block directory exists and whose block paths below 10000 hold no
    directory: [block_truncate] returns 0 and [block_file_size] is then
    exactly [n] when [n] is not a multiple of 4096, whether the virtual
    file was longer or shorter; for a multiple of 4096 it is at most
    [n] and at most the old size, so that such a truncate never
    extends. *)
Theorem truncate_sets_size (fs : filesys) h n :
  strlen (filename h) <= 997 -> 0 <= n <= SCAN_LIMIT * BLOCK_SIZE ->
  (forall k, 0 <= k < SCAN_LIMIT ->
     fs !! block_path (filename h) k <> Some Dir) ->
  fs !! get_block_dir (filename h) = Some Dir ->
  let res := block_truncate fs (Some h) n in
  fst res = 0
  /\ (n mod BLOCK_SIZE <> 0 -> block_file_size (snd res) (Some h) = n)
  /\ (n mod BLOCK_SIZE = 0 ->
        block_file_size (snd res) (Some h)
        <= Z.min n (block_file_size fs (Some h))).
Proof.
  intros Hlen Hn Hnd Hdir res.
  destruct (truncate_clean fs h n Hlen Hn Hnd Hdir)
    as (fs' & Hrun & Hgone & Hkept & Hbnd).
  subst res. rewrite Hrun. cbn [fst snd]. split; [done|].
  set (fname := filename h) in *.
  set (K := (n + BLOCK_SIZE - 1) / BLOCK_SIZE) in *.
  assert (Hok : forall k, path_ok fname k) by (intros; by apply short_name_ok).
  pose proof (block_file_size_spec fs fname h eq_refl
                ltac:(intros; apply Hok)) as [Hub Hatt].
  pose proof (block_file_size_spec fs' fname h eq_refl
                ltac:(intros; apply Hok)) as [Hub' Hatt'].
  set (r0 := block_file_size fs (Some h)) in *.
  set (r1 := block_file_size fs' (Some h)) in *.
  assert (Hr0 : 0 <= r0) by (apply block_file_size_range; unfold fname in *; lia).
  change SCAN_LIMIT with 10000 in *.
  pose proof (Z.div_mod (n + BLOCK_SIZE - 1) BLOCK_SIZE ltac:(done)) as HKdm.
  pose proof (Z.mod_pos_bound (n + BLOCK_SIZE - 1) BLOCK_SIZE ltac:(done)) as HKm.
  fold K in HKdm.
  pose proof (Z.div_mod n BLOCK_SIZE ltac:(done)) as Hndm.
  pose proof (Z.mod_pos_bound n BLOCK_SIZE ltac:(done)) as Hnm.
  assert (Hlow : forall k e, 0 <= k < K ->
            n mod BLOCK_SIZE = 0 \/ k <> K - 1 ->
            extent fs' fname k = Some e -> e <= n /\ e <= r0).
  { intros k e Hk Hal He.
    assert (Hk' : k < 10000) by (change BLOCK_SIZE with 4096 in *; lia).
    rewrite (extent_same fs fs') in He by (by apply Hkept).
    split; [|apply (Hub k); [lia|done]].
    pose proof (extent_bounds fs fname k e ltac:(lia) He).
    change BLOCK_SIZE with 4096 in *. destruct Hal as [Hal|Hne]; [|nia].
    rewrite Hal in Hndm. nia. }
  split.
  - intros Hm. destruct (Hbnd Hm) as (d & Hd & Hdl & _).
    assert (HnK : n = (K - 1) * BLOCK_SIZE + n mod BLOCK_SIZE).
    { assert (n / BLOCK_SIZE = K - 1); [|lia]. symmetry.
      apply (Z.div_unique n BLOCK_SIZE (K - 1) (n - (K - 1) * BLOCK_SIZE)); [|lia].
      left. change BLOCK_SIZE with 4096 in *. nia. }
    assert (HK : 1 <= K <= 10000) by (change BLOCK_SIZE with 4096 in *; lia).
    assert (Hlast : extent fs' fname (K - 1) = Some n).
    { rewrite (extent_file _ _ _ _ Hd), Hdl. f_equal.
      change BLOCK_SIZE with 4096 in *. lia. }
    apply Z.le_antisymm; [|apply (Hub' (K - 1)); [lia|done]].
    destruct Hatt' as [->|(k & Hk & He)]; [lia|].
    destruct (decide (K <= k)) as [Hge|Hlt].
    { rewrite extent_absent in He by (apply Hgone; lia). done. }
    destruct (decide (k = K - 1)) as [->|Hne].
    { rewrite Hlast in He. apply (inj Some) in He. lia. }
    apply (Hlow k); [lia | by right | done].
  - intros Hm. destruct Hatt' as [->|(k & Hk & He)]; [lia|].
    destruct (decide (K <= k)) as [Hge|Hlt].
    { rewrite extent_absent in He by (apply Hgone; lia). done. }
    pose proof (Hlow k r1 ltac:(lia) (or_introl Hm) He). lia.
Qed.

Lemma truncate_sets_size_witness :
  strlen TEST_FILE <= 997 /\ 0 <= 5 <= SCAN_LIMIT * BLOCK_SIZE
  /\ (forall k, 0 <= k < SCAN_LIMIT ->
        hello_fs !! block_path TEST_FILE k <> Some Dir)
  /\ hello_fs !! get_block_dir TEST_FILE = Some Dir
  /\ 5 mod BLOCK_SIZE <> 0
  /\ block_file_size (snd (block_truncate hello_fs fresh_bf 5)) fresh_bf = 5.
Proof.
  assert (H1 : strlen TEST_FILE <= 997) by (vm_compute; discriminate).
  assert (H2 : 0 <= 5 <= SCAN_LIMIT * BLOCK_SIZE)
    by (vm_compute; split; discriminate).
  assert (H4 : hello_fs !! get_block_dir TEST_FILE = Some Dir)
    by (vm_compute; reflexivity).
  assert (H5 : 5 mod BLOCK_SIZE <> 0) by (vm_compute; discriminate).
  do 2 (split; [assumption|]).
  split; [exact hello_fs_blocks_regular|]. do 2 (split; [assumption|]).
  exact (proj1 (proj2 (truncate_sets_size hello_fs {| filename := TEST_FILE |} 5
                         H1 H2 hello_fs_blocks_regular H4)) H5).
Defined.


(** ** Reading after a write *)

(** For a name of at most 997 characters: after a successful write
    whose span lies within the first [2^31] blocks (the blocks an [int]
    numbers), a read of any range within those blocks returns the bytes
    just written where the range meets the written span and the former
    content everywhere else. *)
Theorem read_after_write_overlay (fs : filesys) h b size offset r fs'
    out rsize roff :
  strlen (filename h) <= 997 ->
  0 <= size <= INT_MAX -> size <= Z.of_nat (length b) ->
  0 <= offset -> offset + size <= 2 ^ 31 * BLOCK_SIZE ->
  block_write fs (Some h) (Some b) size offset = (r, fs') -> r <> -1 ->
  0 <= rsize <= INT_MAX -> 0 <= roff -> roff + rsize <= 2 ^ 31 * BLOCK_SIZE ->
  block_read fs' (Some h) (Some out) rsize roff
  = (rsize, Some ((overlay fs (filename h) b size offset <$> seqZ roff rsize)
                  ++ drop (Z.to_nat rsize) out)).
Proof.
  intros Hlen Hs Hb Ho Hend Hrun Hr Hrs Hro Hrend.
  assert (Hok : forall k, path_ok (filename h) k)
    by (intros; by apply short_name_ok).
  assert (Hll : 2 ^ 31 * BLOCK_SIZE <= LLONG_MAX) by (vm_compute; discriminate).
  destruct (block_read_run fs' h out rsize roff Hrs ltac:(lia))
    as [[_ Hread]|[Hbad _]]; [|exfalso; apply Hbad; intros pos _; apply Hok].
  rewrite Hread. do 2 f_equal. f_equal.
  apply Forall_fmap_ext, Forall_forall. intros pos Hpos.
  apply elem_of_seqZ in Hpos. unfold overlay, in_span.
  destruct (Z.leb_spec offset pos); destruct (Z.ltb_spec pos (offset + size));
    cbn [andb].
  - replace pos with (offset + (pos - offset)) at 1 by lia.
    apply (written_bytes fs h b size offset r fs'); try done; lia.
  - apply (write_frame fs h b size offset r fs');
      solve [done | lia | apply Hok].
  - apply (write_frame fs h b size offset r fs');
      solve [done | lia | apply Hok].
  - apply (write_frame fs h b size offset r fs');
      solve [done | lia | apply Hok].
Qed.

Lemma read_after_write_overlay_witness :
  strlen TEST_FILE <= 997 /\ (0 <= 13 <= INT_MAX)
  /\ 13 <= Z.of_nat (length hello) /\ 0 <= 0
  /\ 0 + 13 <= 2 ^ 31 * BLOCK_SIZE
  /\ block_write fresh_fs fresh_bf (Some hello) 13 0 = (13, hello_fs)
  /\ 13 <> -1 /\ (0 <= 8 <= INT_MAX) /\ 0 <= 7
  /\ 7 + 8 <= 2 ^ 31 * BLOCK_SIZE
  /\ block_read hello_fs fresh_bf (Some (bytes_of "????????")) 8 7
     = (8, Some (bytes_of "World!" ++ [x00; x00])).
Proof.
  assert (H1 : strlen TEST_FILE <= 997) by (vm_compute; discriminate).
  assert (H2 : 0 <= 13 <= INT_MAX) by (vm_compute; split; discriminate).
  assert (H3 : 13 <= Z.of_nat (length hello)) by (vm_compute; discriminate).
  assert (H4 : 0 <= 0) by lia.
  assert (H5 : 0 + 13 <= 2 ^ 31 * BLOCK_SIZE) by (vm_compute; discriminate).
  assert (H6 : block_write fresh_fs (Some {| filename := TEST_FILE |})
                 (Some hello) 13 0 = (13, hello_fs)).
  { unfold hello_fs. change fresh_bf with (Some {| filename := TEST_FILE |}).
    rewrite (surjective_pairing (block_write _ _ _ _ _)) at 1.
    f_equal; vm_compute; reflexivity. }
  assert (H7 : 13 <> -1) by discriminate.
  assert (H8 : 0 <= 8 <= INT_MAX) by (vm_compute; split; discriminate).
  assert (H9 : 0 <= 7) by lia.
  assert (H10 : 7 + 8 <= 2 ^ 31 * BLOCK_SIZE) by (vm_compute; discriminate).
  do 10 (split; [assumption|]).
  change fresh_bf with (Some {| filename := TEST_FILE |}).
  rewrite (read_after_write_overlay fresh_fs {| filename := TEST_FILE |} hello
             13 0 13 hello_fs (bytes_of "????????") 8 7
             H1 H2 H3 H4 H5 H6 H7 H8 H9 H10).
  vm_compute. reflexivity.
Defined.

(** ** What the operations never touch *)

Lemma touched_refl own (fs : filesys) : touched_within own fs fs.
Proof. intros p. by left. Qed.

Lemma touched_trans own (fs fs1 fs2 : filesys) :
  touched_within own fs fs1 -> touched_within own fs1 fs2 ->
  touched_within own fs fs2.
Proof.
  intros H1 H2 p. destruct (H1 p) as [E1|(Ho & Ha & Hb)];
    destruct (H2 p) as [E2|(Ho' & Ha' & Hb')].
  - left. congruence.
  - right. rewrite <- E1. done.
  - right. rewrite E2. done.
  - right. done.
Qed.

Lemma touched_mono (own own' : string -> Prop) (fs fs' : filesys) :
  (forall p, own p -> own' p) ->
  touched_within own fs fs' -> touched_within own' fs fs'.
Proof.
  intros Hsub H p. destruct (H p) as [E|(Ho & Ha & Hb)]; [by left|].
  right. split; [by apply Hsub | done].
Qed.

Lemma touched_insert_file (own : string -> Prop) (fs : filesys) p d :
  own p -> fs !! p <> Some Dir ->
  touched_within own fs (<[p := File d]> fs).
Proof.
  intros Ho Hnd q. destruct (decide (q = p)) as [->|Hne].
  - right. rewrite lookup_insert_eq. done.
  - left. by rewrite lookup_insert_ne.
Qed.

Lemma touched_delete (own : string -> Prop) (fs : filesys) p :
  own p -> fs !! p <> Some Dir ->
  touched_within own fs (delete p fs).
Proof.
  intros Ho Hnd q. destruct (decide (q = p)) as [->|Hne].
  - right. rewrite lookup_delete_eq. done.
  - left. by rewrite lookup_delete_ne.
Qed.

Lemma fopen_wb_not_dir (fs fs1 : filesys) p :
  fopen_wb fs p = Some fs1 -> fs !! p <> Some Dir.
Proof. unfold fopen_wb. by destruct (fs !! p) as [[d|]|]. Qed.

Lemma get_block_path_own fname n rc path :
  get_block_path fname n = (rc, path) -> negb (rc =? 0) = false ->
  own_path fname path.
Proof.
  intros Hg Hrc. apply negb_false_iff, Z.eqb_eq in Hrc. subst rc.
  exists n. unfold path_ok, block_path. by rewrite Hg.
Qed.

Lemma write_loop_footprint fname fuel :
  forall (fs : filesys) buf size offset total,
  touched_within (own_path fname) fs (snd (write_loop fuel fs fname buf size offset total)).
Proof.
  induction fuel as [|fuel IH]; intros fs buf size offset total;
    [apply touched_refl|].
  cbn [write_loop]. destruct (size >? 0); [|apply touched_refl].
  destruct (get_block_path fname _) as [rc path] eqn:Hg.
  destruct (negb (rc =? 0)) eqn:Hrc; [apply touched_refl|].
  pose proof (get_block_path_own _ _ _ _ Hg Hrc) as Hown.
  destruct (negb _ || negb _).
  - destruct (fopen_wb fs path) as [fs1|] eqn:Hwb; [|apply touched_refl].
    rewrite (fopen_wb_fwrite _ _ _ _ _ Hwb).
    match goal with
    | |- context [<[path := File ?D]> fs] =>
        assert (Ht : touched_within (own_path fname) fs (<[path := File D]> fs))
          by (apply touched_insert_file;
              [done | by apply (fopen_wb_not_dir _ fs1)])
    end.
    match goal with
    | |- touched_within _ _ (snd (if ?c then _ else _)) => destruct c
    end; cbn [snd]; [exact Ht |].
    eapply touched_trans; [exact Ht | apply IH].
  - destruct (fopen_wb fs path) as [fs1|] eqn:Hwb; [|apply touched_refl].
    rewrite (fopen_wb_fwrite _ _ _ _ _ Hwb).
    match goal with
    | |- context [<[path := File ?D]> fs] =>
        assert (Ht : touched_within (own_path fname) fs (<[path := File D]> fs))
          by (apply touched_insert_file;
              [done | by apply (fopen_wb_not_dir _ fs1)])
    end.
    match goal with
    | |- touched_within _ _ (snd (if ?c then _ else _)) => destruct c
    end; cbn [snd]; [exact Ht |].
    eapply touched_trans; [exact Ht | apply IH].
Qed.

Lemma truncate_loop_footprint fname fuel : forall (fs : filesys) n,
  touched_within (own_path fname) fs (snd (truncate_loop fuel fs fname n)).
Proof.
  induction fuel as [|fuel IH]; intros fs n; [apply touched_refl|].
  cbn [truncate_loop]. destruct (n <? SCAN_LIMIT); [|apply touched_refl].
  destruct (get_block_path fname n) as [rc path] eqn:Hg.
  destruct (negb (rc =? 0)) eqn:Hrc; [apply touched_refl|].
  pose proof (get_block_path_own _ _ _ _ Hg Hrc) as Hown.
  unfold unlink. destruct (fs !! path) as [[d|]|] eqn:Hp; cbn -[truncate_loop].
  - eapply touched_trans; [|apply IH].
    apply touched_delete; [done | by rewrite Hp].
  - apply touched_refl.
  - apply IH.
Qed.

Lemma block_write_touches (fs : filesys) h buffer size offset :
  touched_within (own_path (filename h)) fs
    (snd (block_write fs (Some h) buffer size offset)).
Proof.
  unfold block_write. destruct buffer as [buf|]; [|apply touched_refl].
  destruct (_ || _); [apply touched_refl|]. apply write_loop_footprint.
Qed.

Lemma own_path_buffer fname p : own_path fname p -> buffer_path fname p.
Proof. intros (k & _ & ->). by exists k. Qed.

Lemma block_truncate_touches (fs : filesys) h size :
  touched_within (buffer_path (filename h)) fs
    (snd (block_truncate fs (Some h) size)).
Proof.
  unfold block_truncate. destruct (size <? 0); [apply touched_refl|].
  pose proof (truncate_loop_footprint (filename h)
    (Z.to_nat (SCAN_LIMIT - to_int (c_div (to_llong (to_llong (size + BLOCK_SIZE) - 1)) BLOCK_SIZE)))
    fs (to_int (c_div (to_llong (to_llong (size + BLOCK_SIZE) - 1)) BLOCK_SIZE))) as Ht.
  apply (touched_mono _ _ _ _ (own_path_buffer (filename h))) in Ht.
  destruct (truncate_loop _ _ _ _) as [returned fs1]. cbn [snd] in Ht.
  destruct returned; [done|].
  destruct (_ && _); [|done].
  destruct (get_block_path _ _) as [rc path] eqn:Hg.
  destruct (fopen_wb fs1 path) as [fs2|] eqn:Hwb; [|done].
  rewrite (fopen_wb_fwrite _ _ _ _ _ Hwb). cbn [snd].
  eapply touched_trans; [exact Ht|].
  apply touched_insert_file; [|by apply (fopen_wb_not_dir _ fs2)].
  eexists. unfold block_path. by rewrite Hg.
Qed.

Lemma buffer_path_own fname p :
  strlen fname <= 997 -> buffer_path fname p -> own_path fname p.
Proof. intros Hlen [k ->]. exists k. split; [by apply short_name_ok | done]. Qed.

Lemma own_path_length fname p :
  own_path fname p -> strlen fname + 20 <= strlen p.
Proof.
  intros (k & Hok & ->). rewrite path_ok_eq by done.
  rewrite !strlen_app. change (strlen ".blocks") with 7.
  change (strlen "/block_") with 7.
  pose proof (fmt_06d_length_ge k). unfold strlen at 3. lia.
Qed.

Lemma own_path_names name1 name2 p :
  own_path name1 p -> own_path name2 p -> name1 = name2.
Proof.
  intros (a & Hoa & ->) (b & Hob & Heq).
  apply (f_equal dirname) in Heq.
  rewrite !dirname_block_path in Heq by done.
  injection Heq as Hd.
  pose proof (proj1 (path_ok_iff name1 a) Hoa) as H1.
  pose proof (proj1 (path_ok_iff name2 b) Hob) as H2.
  pose proof (strlen_nonneg (fmt_06d a)). pose proof (strlen_nonneg (fmt_06d b)).
  rewrite !get_block_dir_short in Hd by lia.
  by apply str_app_inv_tail in Hd.
Qed.

(** Whatever its arguments and its outcome, [block_write] changes the
    file system only at block paths of its own virtual file that
    [get_block_path] accepted, and it neither removes or replaces a
    directory nor creates one; the path of the virtual file itself is
    left alone. *)
Theorem block_write_footprint (fs : filesys) h buffer size offset :
  let fs' := snd (block_write fs (Some h) buffer size offset) in
  touched_within (own_path (filename h)) fs fs'
  /\ fs' !! filename h = fs !! filename h
  /\ fs' !! get_block_dir (filename h) = fs !! get_block_dir (filename h).
Proof.
  cbv zeta. pose proof (block_write_touches fs h buffer size offset) as Ht.
  split; [done|]. split.
  - destruct (Ht (filename h)) as [E|[Ho _]]; [done|].
    apply own_path_length in Ho. lia.
  - destruct (Ht (get_block_dir (filename h))) as [E|[(k & Hok & Ho) _]]; [done|].
    symmetry in Ho. by apply block_path_ne_dir in Ho.
Qed.

(** For a name of at most 997 characters, so that every block path
    fits, [block_truncate], whatever its size argument and its outcome,
    changes the file system only at block paths of its own virtual file,
    and it neither removes or replaces a directory nor creates one; the
    path of the virtual file and the block directory are left alone. *)
Theorem block_truncate_footprint (fs : filesys) h size :
  strlen (filename h) <= 997 ->
  let fs' := snd (block_truncate fs (Some h) size) in
  touched_within (own_path (filename h)) fs fs'
  /\ fs' !! filename h = fs !! filename h
  /\ fs' !! get_block_dir (filename h) = fs !! get_block_dir (filename h).
Proof.
  intros Hlen. cbv zeta. pose proof (block_truncate_touches fs h size) as Ht.
  apply (touched_mono _ _ _ _
           (fun p => buffer_path_own (filename h) p Hlen)) in Ht.
  split; [done|]. split.
  - destruct (Ht (filename h)) as [E|[Ho _]]; [done|].
    apply own_path_length in Ho. lia.
  - destruct (Ht (get_block_dir (filename h))) as [E|[(k & Hok & Ho) _]]; [done|].
    symmetry in Ho. by apply block_path_ne_dir in Ho.
Qed.

Lemma block_truncate_footprint_witness :
  strlen TEST_FILE <= 997
  /\ snd (block_truncate hello_fs fresh_bf 5) !! get_block_dir TEST_FILE
     = hello_fs !! get_block_dir TEST_FILE.
Proof.
  assert (H1 : strlen TEST_FILE <= 997) by (vm_compute; discriminate).
  split; [assumption|].
  exact (proj2 (proj2 (block_truncate_footprint hello_fs
                         {| filename := TEST_FILE |} 5 H1))).
Defined.


(** ** Two virtual files side by side *)

Lemma read_loop_ext fname fuel :
  forall (fs fs' : filesys) out size offset total,
  (forall p, own_path fname p -> fs' !! p = fs !! p) ->
  read_loop fuel fs' fname out size offset total
  = read_loop fuel fs fname out size offset total.
Proof.
  induction fuel as [|fuel IH]; intros fs fs' out size offset total Hsame; [done|].
  cbn [read_loop]. destruct (size >? 0); [|done].
  destruct (get_block_path fname _) as [rc path] eqn:Hg.
  destruct (negb (rc =? 0)) eqn:Hrc; [done|].
  pose proof (get_block_path_own _ _ _ _ Hg Hrc) as Hown.
  unfold fopen_rb. rewrite (Hsame path Hown).
  destruct (fs !! path) as [[d|]|].
  - destruct (negb (fseek _ =? 0)); [done|]. by apply IH.
  - destruct (negb (fseek _ =? 0)); [done|]. by apply IH.
  - by apply IH.
Qed.

Lemma size_loop_ext fname fuel :
  forall (fs fs' : filesys) n m,
  (forall p, own_path fname p -> fs' !! p = fs !! p) ->
  size_loop fuel fs' fname n m = size_loop fuel fs fname n m.
Proof.
  induction fuel as [|fuel IH]; intros fs fs' n m Hsame; [done|].
  cbn [size_loop]. destruct (n <? SCAN_LIMIT); [|done].
  destruct (get_block_path fname n) as [rc path] eqn:Hg.
  destruct (negb (rc =? 0)) eqn:Hrc; [done|].
  pose proof (get_block_path_own _ _ _ _ Hg Hrc) as Hown.
  unfold stat. rewrite (Hsame path Hown).
  destruct (fs !! path) as [[d|]|]; by apply IH.
Qed.

Lemma untouched_read (fs fs' : filesys) h out size offset :
  (forall p, own_path (filename h) p -> fs' !! p = fs !! p) ->
  block_read fs' (Some h) out size offset = block_read fs (Some h) out size offset.
Proof.
  intros Hsame. unfold block_read. destruct out as [buf|]; [|done].
  destruct (_ || _); [done|]. by rewrite (read_loop_ext _ _ fs fs').
Qed.

Lemma untouched_size (fs fs' : filesys) h :
  (forall p, own_path (filename h) p -> fs' !! p = fs !! p) ->
  block_file_size fs' (Some h) = block_file_size fs (Some h).
Proof. intros Hsame. unfold block_file_size. by apply size_loop_ext. Qed.

Lemma touched_other name1 name2 (fs fs' : filesys) :
  name1 <> name2 -> touched_within (own_path name1) fs fs' ->
  forall p, own_path name2 p -> fs' !! p = fs !! p.
Proof.
  intros Hne Ht p Ho2. destruct (Ht p) as [E|[Ho1 _]]; [done|].
  destruct Hne. by apply (own_path_names name1 name2 p).
Qed.

(** Virtual files under different plain names do not see each other.
    For two different names without ['/'], which name different entries
    of the working directory, the first of at most 997 characters:
    whatever [block_write] or [block_truncate] do through a handle on
    the first, with whatever outcome, every [block_read] and
    [block_file_size] through a handle on the second returns what it
    returned before.  (With a ['/'] two different strings, as ["f"] and
    ["./f"], can name one store.) *)
Theorem virtual_files_independent (fs : filesys) h1 h2 buffer size offset n :
  dirname (filename h1) = None -> dirname (filename h2) = None ->
  filename h1 <> filename h2 -> strlen (filename h1) <= 997 ->
  let fs_w := snd (block_write fs (Some h1) buffer size offset) in
  let fs_t := snd (block_truncate fs (Some h1) n) in
  (forall out rsize roff,
     block_read fs_w (Some h2) out rsize roff
     = block_read fs (Some h2) out rsize roff)
  /\ block_file_size fs_w (Some h2) = block_file_size fs (Some h2)
  /\ (forall out rsize roff,
        block_read fs_t (Some h2) out rsize roff
        = block_read fs (Some h2) out rsize roff)
  /\ block_file_size fs_t (Some h2) = block_file_size fs (Some h2).
Proof.
  intros _ _ Hne Hlen. cbv zeta.
  pose proof (touched_other _ _ _ _ Hne
                (block_write_touches fs h1 buffer size offset)) as Hw.
  pose proof (touched_other _ _ _ _ Hne
                (touched_mono _ _ _ _
                   (fun p => buffer_path_own (filename h1) p Hlen)
                   (block_truncate_touches fs h1 n))) as Ht.
  split; [intros; by apply untouched_read|].
  split; [by apply untouched_size|].
  split; [intros; by apply untouched_read|].
  by apply untouched_size.
Qed.

Lemma virtual_files_independent_witness :
  dirname "other.db" = None /\ dirname TEST_FILE = None
  /\ "other.db" <> TEST_FILE /\ strlen "other.db" <= 997
  /\ block_file_size
       (snd (block_write (snd (block_open hello_fs "other.db"))
               (snd (fst (block_open hello_fs "other.db")))
               (Some hello) 13 4096)) fresh_bf
     = block_file_size (snd (block_open hello_fs "other.db")) fresh_bf.
Proof.
  assert (Ha : dirname "other.db" = None) by reflexivity.
  assert (Hb : dirname TEST_FILE = None) by reflexivity.
  assert (H1 : "other.db" <> TEST_FILE) by discriminate.
  assert (H2 : strlen "other.db" <= 997) by (vm_compute; discriminate).
  split; [exact Ha|]. split; [exact Hb|]. split; [exact H1|].
  split; [exact H2|].
  exact (proj1 (proj2 (virtual_files_independent
                         (snd (block_open hello_fs "other.db"))
                         {| filename := "other.db" |}
                         {| filename := TEST_FILE |}
                         (Some hello) 13 4096 0 Ha Hb H1 H2))).
Defined.


(** ** Content and size together *)

Lemma block_file_size_long (fs : filesys) h :
  1004 <= strlen (filename h) -> block_file_size fs (Some h) = -1.
Proof.
  intros Hlen. unfold block_file_size.
  assert (Hf : Z.to_nat SCAN_LIMIT = S (Z.to_nat (SCAN_LIMIT - 1)))
    by (change SCAN_LIMIT with 10000; lia).
  rewrite Hf. cbn [size_loop]. change (0 <? SCAN_LIMIT) with true. cbv iota.
  rewrite (surjective_pairing (get_block_path _ _)).
  rewrite get_block_path_not_ok by (by apply long_name_no_path). done.
Qed.

Lemma zero_after_size (fs : filesys) h pos :
  strlen (filename h) <= 1003 ->
  block_file_size fs (Some h) <= pos < SCAN_LIMIT * BLOCK_SIZE ->
  logical_byte fs (filename h) pos = x00.
Proof.
  intros Hlen Hp. set (fname := filename h) in *.
  pose proof (block_file_size_range fs h Hlen) as Hr.
  destruct (block_file_size_spec fs fname h eq_refl
              ltac:(intros; by apply scanned_paths_ok)) as [Hub _].
  set (r := block_file_size fs (Some h)) in *.
  set (k := pos / BLOCK_SIZE).
  change SCAN_LIMIT with 10000 in *.
  assert (Hk : 0 <= k < 10000).
  { unfold k. change BLOCK_SIZE with 4096 in *. split.
    - apply Z.div_pos; lia.
    - apply Z.div_lt_upper_bound; lia. }
  pose proof (Z.div_mod pos BLOCK_SIZE ltac:(done)) as Hdm. fold k in Hdm.
  pose proof (Z.mod_pos_bound pos BLOCK_SIZE ltac:(done)) as Hmb.
  destruct (fs !! block_path fname k) as [[d|]|] eqn:Hlk.
  - rewrite (logical_byte_file fs fname pos d)
      by (fold k; by rewrite to_int_id by lia).
    destruct (Z.ltb_spec (pos mod BLOCK_SIZE) (Z.of_nat (length d))); [|done].
    pose proof (Hub k _ ltac:(lia) (extent_file _ _ _ _ Hlk)).
    change BLOCK_SIZE with 4096 in *. lia.
  - assert (He : extent fs fname k = Some (k * BLOCK_SIZE + BLOCK_SIZE))
      by (unfold extent, stat; by rewrite Hlk).
    pose proof (Hub k _ ltac:(lia) He). change BLOCK_SIZE with 4096 in *. lia.
  - apply logical_byte_absent. fold k. by rewrite to_int_id by lia.
Qed.

Lemma block_read_past_size (fs : filesys) h out size offset :
  strlen (filename h) <= 1003 ->
  0 <= size <= INT_MAX ->
  block_file_size fs (Some h) <= offset ->
  offset + size <= SCAN_LIMIT * BLOCK_SIZE ->
  block_read fs (Some h) (Some out) size offset
  = (size, Some (zeros size ++ drop (Z.to_nat size) out)).
Proof.
  intros Hlen Hs Hoff Hend.
  pose proof (block_file_size_range fs h Hlen) as Hr.
  assert (Ho : 0 <= offset <= LLONG_MAX).
  { change SCAN_LIMIT with 10000 in *. change BLOCK_SIZE with 4096 in *.
    change LLONG_MAX with (2 ^ 63 - 1). lia. }
  destruct (block_read_run fs h out size offset Hs Ho) as [[_ ->]|[Hbad _]].
  2:{ exfalso. apply Hbad. intros pos Hp. apply scanned_paths_ok; [done|].
      change SCAN_LIMIT with 10000 in *. change BLOCK_SIZE with 4096 in *.
      rewrite to_int_id.
      - split; [apply Z.div_pos; lia | apply Z.div_lt_upper_bound; lia].
      - split; [|apply Z.div_lt_upper_bound; lia].
        assert (0 <= pos / 4096) by (apply Z.div_pos; lia). lia. }
  do 3 f_equal. apply bytes_eq.
  - by rewrite length_fmap, length_seqZ, length_zeros.
  - intros i Hi. rewrite length_fmap, length_seqZ in Hi.
    rewrite byte_at_map_seqZ, byte_at_zeros by lia.
    apply zero_after_size; [done | lia].
Qed.

(** Nothing is stored from the logical size on: a read that starts at or
    after [block_file_size] and ends within the scanned blocks succeeds
    and returns zeros only. *)
Theorem read_past_size_gives_zeros (fs : filesys) h out size offset :
  strlen (filename h) <= 1003 ->
  0 <= size <= INT_MAX ->
  block_file_size fs (Some h) <= offset ->
  offset + size <= SCAN_LIMIT * BLOCK_SIZE ->
  block_read fs (Some h) (Some out) size offset
  = (size, Some (zeros size ++ drop (Z.to_nat size) out)).
Proof. apply block_read_past_size. Qed.

Lemma read_past_size_gives_zeros_witness :
  strlen TEST_FILE <= 1003 /\ (0 <= 3 <= INT_MAX)
  /\ block_file_size hello_fs fresh_bf <= 4096
  /\ 4096 + 3 <= SCAN_LIMIT * BLOCK_SIZE
  /\ block_read hello_fs fresh_bf (Some (bytes_of "abcde")) 3 4096
     = (3, Some ([x00; x00; x00] ++ bytes_of "de")).
Proof.
  assert (H1 : strlen TEST_FILE <= 1003) by (vm_compute; discriminate).
  assert (H2 : 0 <= 3 <= INT_MAX) by (vm_compute; split; discriminate).
  assert (H3 : block_file_size hello_fs (Some {| filename := TEST_FILE |})
               <= 4096) by (vm_compute; discriminate).
  assert (H4 : 4096 + 3 <= SCAN_LIMIT * BLOCK_SIZE) by (vm_compute; discriminate).
  split; [exact H1|]. split; [exact H2|]. split; [exact H3|].
  split; [exact H4|].
  exact (read_past_size_gives_zeros hello_fs {| filename := TEST_FILE |}
           (bytes_of "abcde") 3 4096 H1 H2 H3 H4).
Defined.


(** * Properties of [logging_vfs.c] *)

(** ** Deleting a database ([remove_directory_recursive],
       [loggingDelete]) *)

Lemma dirname_split k d :
  dirname k = Some d -> k = d +:+ "/" +:+ str_drop (S (String.length d)) k.
Proof.
  revert d. induction k as [|c r IH]; intros d; [done|].
  cbn [dirname]. destruct (dirname r) as [d'|] eqn:Hr.
  - intros [= <-]. specialize (IH d' eq_refl).
    change (String c r = String c (d' +:+ "/" +:+ str_drop (S (String.length d')) r)).
    by rewrite <- IH.
  - destruct (Ascii.eqb_spec c "/") as [->|]; [|done]. by intros [= <-].
Qed.

Lemma dirname_shorter k d :
  dirname k = Some d -> (String.length d < String.length k)%nat.
Proof.
  intros H. apply dirname_split in H. apply (f_equal String.length) in H.
  rewrite !str_length_app in H. simpl in H. lia.
Qed.

Lemma str_drop_slash d s :
  str_drop (S (String.length d)) (d +:+ String "/" s) = s.
Proof.
  induction d as [|c d IH]; [done|].
  change (str_drop (S (String.length d)) (d +:+ String "/" s) = s). done.
Qed.

Lemma own_path_entry fname p :
  own_path fname p ->
  dirname p = Some (get_block_dir fname)
  /\ strlen p < 1024
  /\ exists s, str_drop (S (String.length (get_block_dir fname))) p
               = String "b" s.
Proof.
  intros (k & Hok & ->). split; [by apply dirname_block_path|].
  pose proof (proj1 (path_ok_iff fname k) Hok) as Hfit.
  pose proof (strlen_nonneg (fmt_06d k)) as Hnn.
  rewrite path_ok_eq by done. split.
  - rewrite !strlen_app. change (strlen ".blocks") with 7.
    change (strlen "/block_") with 7. unfold MAX_PATH_LEN in Hfit. lia.
  - rewrite get_block_dir_short by lia.
    exists ("lock_" +:+ fmt_06d k).
    apply (str_drop_slash (fname +:+ ".blocks") ("block_" +:+ fmt_06d k)).
Qed.

(** The loop over the entries found in the list [l] of the file
    system's bindings: every entry that is a regular file, whose path
    fits the buffer and whose name is no dot entry, is unlinked. *)
Lemma remove_entries_spec path : forall (l : list (string * node)) (fs : filesys) res,
  NoDup l.*1 ->
  (forall k, k ∈ l.*1 -> dirname k = Some path ->
     (exists d, fs !! k = Some (File d)) /\ strlen k < 1024
     /\ exists c s, str_drop (S (String.length path)) k = String c s
                    /\ c <> "."%char) ->
  exists fs',
    remove_entries fs path (omap (fun kv => d_name_of path (fst kv)) l) res
    = (res, fs')
    /\ forall q, fs' !! q
         = if decide (q ∈ l.*1 /\ dirname q = Some path) then None else fs !! q.
Proof.
  induction l as [|[k v] l IH]; intros fs res Hnd Hall.
  { exists fs. split; [done|]. intros q. case_decide as Hq; [|done].
    destruct Hq as [Hq _]. by apply elem_of_nil in Hq. }
  cbn [fmap list_fmap fst] in Hnd. apply NoDup_cons in Hnd as [Hk Hnd].
  cbn [omap list_omap fst]. unfold d_name_of at 1.
  destruct (decide (dirname k = Some path)) as [Hdk|Hdk].
  - destruct (Hall k ltac:(left) Hdk) as ((d & Hfile) & Hfit & (c & s & Hname & Hc)).
    cbn [remove_entries]. rewrite Hname.
    assert (Hdot : String.eqb (String c s) "." || String.eqb (String c s) ".."
                   = false).
    { apply orb_false_iff. split; apply String.eqb_neq; intros [= ? ?]; done. }
    rewrite Hdot. rewrite <- Hname.
    assert (Hfull : fst (snprintf 1024
                           (path +:+ "/" +:+ str_drop (S (String.length path)) k))
                    = k).
    { rewrite <- (dirname_split k path Hdk). unfold snprintf. cbn [fst].
      apply str_take_all. unfold strlen in Hfit. lia. }
    rewrite Hfull. unfold unlink. rewrite Hfile.
    change (negb (0 =? 0)) with false. cbv iota.
    destruct (IH (delete k fs) res Hnd) as (fs' & Hrun & Hfs').
    { intros k' Hk' Hdk'. rewrite lookup_delete_ne by (intros ->; done).
      apply Hall; [by right | done]. }
    exists fs'. split; [done|]. intros q. rewrite Hfs'.
    destruct (decide (q = k)) as [->|Hne].
    + rewrite lookup_delete_eq.
      rewrite (decide_True (P := k ∈ ((k, v) :: l).*1 /\ _)) by (split; [left | done]).
      by case_decide.
    + rewrite lookup_delete_ne by done.
      destruct (decide (q ∈ l.*1 /\ dirname q = Some path)) as [[Ha Hb]|Hn].
      * by rewrite decide_True by (split; [by right | done]).
      * rewrite decide_False; [done|]. intros [Ha Hb]. apply Hn.
        split; [|done]. cbn [fmap list_fmap fst] in Ha.
        apply elem_of_cons in Ha as [?|?]; done.
  - destruct (IH fs res Hnd) as (fs' & Hrun & Hfs').
    { intros k' Hk' Hdk'. apply Hall; [by right | done]. }
    exists fs'. split; [done|]. intros q. rewrite Hfs'.
    destruct (decide (q ∈ l.*1 /\ dirname q = Some path)) as [[Ha Hb]|Hn].
    + by rewrite decide_True by (split; [by right | done]).
    + rewrite decide_False; [done|]. intros [Ha Hb]. apply Hn.
      split; [|done]. cbn [fmap list_fmap fst] in Ha.
      apply elem_of_cons in Ha as [->|?]; done.
Qed.

Lemma dir_entries_empty (fs : filesys) path :
  (forall k, dirname k = Some path -> fs !! k = None) ->
  dir_entries fs path = [].
Proof.
  intros Hnone. apply elem_of_nil_inv. intros e He.
  apply list_elem_of_omap in He as ([k v] & Hkv & Hd).
  apply elem_of_map_to_list in Hkv. cbn [fst] in Hd. unfold d_name_of in Hd.
  destruct (decide (dirname k = Some path)) as [Hdk|]; [|done].
  by rewrite (Hnone k Hdk) in Hkv.
Qed.

(** A directory that holds regular files only, under paths that fit the
    buffer, goes with everything in it, and nothing else changes. *)
Lemma remove_directory_spec (fs : filesys) path :
  fs !! path = Some Dir ->
  (forall k, is_Some (fs !! k) -> dirname k = Some path ->
     (exists d, fs !! k = Some (File d)) /\ strlen k < 1024
     /\ exists c s, str_drop (S (String.length path)) k = String c s
                    /\ c <> "."%char) ->
  exists fs',
    remove_directory_recursive fs path = (0, fs')
    /\ forall q, fs' !! q
         = if decide (q = path \/ dirname q = Some path) then None else fs !! q.
Proof.
  intros Hdir Hall. unfold remove_directory_recursive, opendir. rewrite Hdir.
  change (remove_entries fs path ("." :: ".." :: dir_entries fs path) 0)
    with (remove_entries fs path (dir_entries fs path) 0).
  destruct (remove_entries_spec path (map_to_list fs) fs 0) as (fs1 & Hrun & Hfs1).
  { apply NoDup_fst_map_to_list. }
  { intros k Hk Hdk. apply Hall; [|done].
    apply list_elem_of_fmap in Hk as ([k' v] & -> & Hkv).
    apply elem_of_map_to_list in Hkv. by exists v. }
  unfold dir_entries. rewrite Hrun.
  assert (Hin : forall q, q ∈ (map_to_list fs).*1 <-> is_Some (fs !! q)).
  { intros q. split.
    - intros Hq. apply list_elem_of_fmap in Hq as ([k' v] & -> & Hkv).
      apply elem_of_map_to_list in Hkv. by exists v.
    - intros [v Hv]. apply list_elem_of_fmap. exists (q, v).
      split; [done|]. by apply elem_of_map_to_list. }
  assert (Hself : dirname path <> Some path).
  { intros H. apply dirname_shorter in H. lia. }
  assert (Hgone : forall k, dirname k = Some path -> fs1 !! k = None).
  { intros k Hdk. rewrite Hfs1. case_decide as Hc; [done|].
    destruct (fs !! k) as [v|] eqn:Hk; [|done].
    destruct Hc. split; [|done]. apply Hin. by exists v. }
  unfold rmdir. rewrite Hfs1.
  rewrite decide_False by (intros [_ ?]; done). rewrite Hdir.
  fold (dir_entries fs1 path). rewrite (dir_entries_empty fs1 path Hgone).
  exists (delete path fs1). split; [done|]. intros q.
  destruct (decide (q = path)) as [->|Hne].
  - rewrite lookup_delete_eq. by rewrite decide_True by (by left).
  - rewrite lookup_delete_ne by done.
    destruct (decide (dirname q = Some path)) as [Hdq|Hdq].
    + rewrite decide_True by (by right). by apply Hgone.
    + rewrite decide_False by (intros [?|?]; done).
      rewrite Hfs1. rewrite decide_False; [done|]. intros [_ ?]. done.
Qed.

Lemma loggingDelete_block_dir (xDelete : filesys -> string -> Z -> Z * filesys)
    (fs : filesys) zPath syncDir :
  loggingDelete xDelete true fs zPath syncDir
  = (if fst (remove_directory_recursive fs (get_block_dir zPath)) =? 0
     then SQLITE_OK else SQLITE_IOERR_DELETE,
     snd (xDelete (snd (remove_directory_recursive fs (get_block_dir zPath)))
            zPath syncDir)).
Proof.
  unfold loggingDelete.
  change (fst (snprintf 1024 (zPath +:+ ".blocks"))) with (get_block_dir zPath).
  destruct (remove_directory_recursive fs (get_block_dir zPath)) as [dir_rc fs1].
  cbn [fst snd]. by destruct (xDelete fs1 zPath syncDir).
Qed.

(** Deleting a database in block-storage mode, for a name of at most
    997 characters, where the block directory exists and holds nothing
    but block files of this database, and the default VFS's [xDelete]
    touches no path but the one it is given: [loggingDelete] returns
    [SQLITE_OK] whatever
    [xDelete] returned, the block directory and every block file are
    gone, also those numbered 10000 and up that [block_truncate] leaves
    behind, no other path but the database path itself has changed, and
    [block_file_size] through a handle on the name gives 0. *)
Theorem loggingDelete_removes_every_block
    (xDelete : filesys -> string -> Z -> Z * filesys)
    (fs : filesys) zPath syncDir :
  (forall fs0 q, q <> zPath ->
     snd (xDelete fs0 zPath syncDir) !! q = fs0 !! q) ->
  strlen zPath <= 997 ->
  fs !! get_block_dir zPath = Some Dir ->
  (forall p, is_Some (fs !! p) -> dirname p = Some (get_block_dir zPath) ->
     own_path zPath p /\ exists d, fs !! p = Some (File d)) ->
  let res := loggingDelete xDelete true fs zPath syncDir in
  fst res = SQLITE_OK
  /\ snd res !! get_block_dir zPath = None
  /\ (forall k, snd res !! block_path zPath k = None)
  /\ (forall q, q <> zPath -> q <> get_block_dir zPath ->
        dirname q <> Some (get_block_dir zPath) -> snd res !! q = fs !! q)
  /\ block_file_size (snd res) (Some {| filename := zPath |}) = 0.
Proof.
  intros Hx Hlen Hdir Hall res. subst res. rewrite loggingDelete_block_dir.
  set (dir := get_block_dir zPath) in *.
  destruct (remove_directory_spec fs dir Hdir) as (fs1 & Hrun & Hfs1).
  { intros p Hp Hdp. destruct (Hall p Hp Hdp) as [Hown Hfile].
    split; [done|]. destruct (own_path_entry zPath p Hown) as (_ & Hfit & s & Hs).
    split; [done|]. exists "b"%char, s. split; [done | discriminate]. }
  rewrite Hrun. cbn [fst snd]. change (0 =? 0) with true. cbv iota.
  assert (Hne : dir <> zPath).
  { intros He. apply (f_equal strlen) in He. unfold dir in He.
    rewrite strlen_get_block_dir in He. lia. }
  assert (Hbp : forall k, block_path zPath k <> zPath).
  { intros k He.
    assert (Ho : own_path zPath (block_path zPath k))
      by (exists k; split; [by apply short_name_ok | done]).
    apply own_path_length in Ho. rewrite He in Ho. lia. }
  assert (Hblocks : forall k,
            snd (xDelete fs1 zPath syncDir) !! block_path zPath k = None).
  { intros k. rewrite Hx by apply Hbp. rewrite Hfs1.
    rewrite decide_True; [done|]. right.
    apply dirname_block_path. by apply short_name_ok. }
  split; [done|]. split; [|split; [|split]].
  - rewrite Hx by done. rewrite Hfs1. by rewrite decide_True by (by left).
  - exact Hblocks.
  - intros q Hq Hqd Hqc. rewrite Hx by done. rewrite Hfs1.
    by rewrite decide_False by (intros [?|?]; done).
  - apply block_file_size_no_blocks; [cbn [filename]; lia|].
    intros k _. apply Hblocks.
Qed.

Lemma unlink_xDelete_frame (fs : filesys) zPath syncDir q :
  q <> zPath -> snd (unlink_xDelete fs zPath syncDir) !! q = fs !! q.
Proof.
  intros Hq. unfold unlink_xDelete, unlink.
  destruct (fs !! zPath) as [[d|]|]; cbn [snd]; [|done..].
  by rewrite lookup_delete_ne.
Qed.

Lemma far_fs_entries p :
  is_Some (far_fs !! p) -> dirname p = Some (get_block_dir TEST_FILE) ->
  own_path TEST_FILE p /\ exists d, far_fs !! p = Some (File d).
Proof.
  assert (Hfs : exists d, far_fs
            = <[block_path TEST_FILE 10000 := File d]>
                {[get_block_dir TEST_FILE := Dir]})
    by (eexists; vm_compute; reflexivity).
  destruct Hfs as [d Hfs]. rewrite Hfs. intros [v Hp] Hdp.
  destruct (decide (p = block_path TEST_FILE 10000)) as [->|Hne].
  - split; [|exists d; by rewrite lookup_insert_eq].
    exists 10000. split; [|done]. apply short_name_ok. vm_compute. discriminate.
  - rewrite lookup_insert_ne in Hp by done.
    apply lookup_singleton_Some in Hp as [<- _].
    apply dirname_shorter in Hdp. lia.
Qed.

Lemma loggingDelete_removes_every_block_witness :
  (forall fs0 q, q <> TEST_FILE ->
     snd (unlink_xDelete fs0 TEST_FILE 0) !! q = fs0 !! q)
  /\ strlen TEST_FILE <= 997
  /\ far_fs !! get_block_dir TEST_FILE = Some Dir
  /\ (forall p, is_Some (far_fs !! p) ->
        dirname p = Some (get_block_dir TEST_FILE) ->
        own_path TEST_FILE p /\ exists d, far_fs !! p = Some (File d))
  /\ is_Some (far_fs !! block_path TEST_FILE 10000)
  /\ snd (loggingDelete unlink_xDelete true far_fs TEST_FILE 0)
       !! block_path TEST_FILE 10000 = None.
Proof.
  assert (H1 : forall fs0 q, q <> TEST_FILE ->
                 snd (unlink_xDelete fs0 TEST_FILE 0) !! q = fs0 !! q)
    by (intros; by apply unlink_xDelete_frame).
  assert (H2 : strlen TEST_FILE <= 997) by (vm_compute; discriminate).
  assert (H3 : far_fs !! get_block_dir TEST_FILE = Some Dir)
    by (vm_compute; reflexivity).
  assert (H5 : is_Some (far_fs !! block_path TEST_FILE 10000))
    by (eexists; vm_compute; reflexivity).
  split; [exact H1|]. split; [exact H2|]. split; [exact H3|].
  split; [exact far_fs_entries|]. split; [exact H5|].
  exact (proj1 (proj2 (proj2 (loggingDelete_removes_every_block unlink_xDelete
                  far_fs TEST_FILE 0 H1 H2 H3 far_fs_entries))) 10000).
Defined.

(** Where the block directory path is absent or names a regular file,
    [loggingDelete] in block-storage mode reports [SQLITE_OK], whatever
    the default VFS's [xDelete] returns, and does nothing but call it:
    [opendir] gives no directory and that counts as success. *)
Theorem loggingDelete_without_directory
    (xDelete : filesys -> string -> Z -> Z * filesys)
    (fs : filesys) zPath syncDir :
  fs !! get_block_dir zPath <> Some Dir ->
  loggingDelete xDelete true fs zPath syncDir
  = (SQLITE_OK, snd (xDelete fs zPath syncDir)).
Proof.
  intros Hnd. rewrite loggingDelete_block_dir.
  unfold remove_directory_recursive, opendir.
  by destruct (fs !! get_block_dir zPath) as [[d|]|].
Qed.

Lemma loggingDelete_without_directory_witness :
  ({[ "f.blocks" := File [x41] ]} : filesys) !! get_block_dir "f" <> Some Dir
  /\ loggingDelete unlink_xDelete true {[ "f.blocks" := File [x41] ]} "f" 0
     = (SQLITE_OK, {[ "f.blocks" := File [x41] ]}).
Proof.
  assert (H1 : ({[ "f.blocks" := File [x41] ]} : filesys) !! get_block_dir "f"
               <> Some Dir) by (vm_compute; discriminate).
  split; [exact H1|].
  exact (loggingDelete_without_directory unlink_xDelete
           {[ "f.blocks" := File [x41] ]} "f" 0 H1).
Defined.

Lemma remove_entries_keeps_dirs path : forall entries (fs : filesys) res q,
  fs !! q = Some Dir ->
  snd (remove_entries fs path entries res) !! q = Some Dir.
Proof.
  induction entries as [|e rest IH]; intros fs res q Hq; [done|].
  cbn [remove_entries]. destruct (_ || _); [by apply IH|].
  unfold unlink. destruct (fs !! fst _) as [[d|]|] eqn:Hf.
  - apply IH. rewrite lookup_delete_ne; [done|]. intros He. congruence.
  - by apply IH.
  - by apply IH.
Qed.

(** A directory inside the block directory stops the deletion:
    [unlink] does not remove it, [rmdir] then refuses the block
    directory, and [loggingDelete] returns [SQLITE_IOERR_DELETE] with
    both directories still there. *)
Theorem loggingDelete_stopped_by_subdirectory
    (xDelete : filesys -> string -> Z -> Z * filesys)
    (fs : filesys) zPath syncDir sub :
  fs !! get_block_dir zPath = Some Dir ->
  dirname sub = Some (get_block_dir zPath) -> fs !! sub = Some Dir ->
  let fs1 := snd (remove_directory_recursive fs (get_block_dir zPath)) in
  loggingDelete xDelete true fs zPath syncDir
  = (SQLITE_IOERR_DELETE, snd (xDelete fs1 zPath syncDir))
  /\ fs1 !! get_block_dir zPath = Some Dir /\ fs1 !! sub = Some Dir.
Proof.
  intros Hdir Hsub Hsd. cbv zeta. rewrite loggingDelete_block_dir.
  set (dir := get_block_dir zPath) in *.
  unfold remove_directory_recursive, opendir. rewrite Hdir.
  pose proof (remove_entries_keeps_dirs dir ("." :: ".." :: dir_entries fs dir)
                fs 0) as Hkeep.
  destruct (remove_entries fs dir _ 0) as [result fs1]. cbn [snd] in Hkeep.
  assert (Hempty : dir_entries fs1 dir <> []).
  { intros He.
    assert (Hin : str_drop (S (String.length dir)) sub ∈ dir_entries fs1 dir).
    { apply list_elem_of_omap. exists (sub, Dir). split.
      - apply elem_of_map_to_list. by apply Hkeep.
      - cbn [fst]. unfold d_name_of. by rewrite decide_True. }
    rewrite He in Hin. by apply elem_of_nil in Hin. }
  unfold rmdir. rewrite (Hkeep dir Hdir).
  destruct (dir_entries fs1 dir) as [|e l]; [done|]. cbn [fst snd].
  split; [done|]. split; by apply Hkeep.
Qed.

Lemma loggingDelete_stopped_by_subdirectory_witness :
  let fs : filesys := {[ "f.blocks" := Dir; "f.blocks/lost+found" := Dir ]} in
  fs !! get_block_dir "f" = Some Dir
  /\ dirname "f.blocks/lost+found" = Some (get_block_dir "f")
  /\ fs !! "f.blocks/lost+found" = Some Dir
  /\ fst (loggingDelete unlink_xDelete true fs "f" 0) = SQLITE_IOERR_DELETE.
Proof.
  cbv zeta.
  set (fs := ({[ "f.blocks" := Dir; "f.blocks/lost+found" := Dir ]} : filesys)).
  assert (H1 : fs !! get_block_dir "f" = Some Dir) by (vm_compute; reflexivity).
  assert (H2 : dirname "f.blocks/lost+found" = Some (get_block_dir "f"))
    by (vm_compute; reflexivity).
  assert (H3 : fs !! "f.blocks/lost+found" = Some Dir) by (vm_compute; reflexivity).
  do 3 (split; [assumption|]).
  exact (f_equal fst (proj1 (loggingDelete_stopped_by_subdirectory unlink_xDelete
                                fs "f" 0 "f.blocks/lost+found" H1 H2 H3))).
Defined.


(** ** The file methods in block-storage mode *)

Lemma block_mode_handle {R} (p : LoggingFile R) h :
  pBlock p = Some h -> block_mode true p = true.
Proof. intros H. unfold block_mode. by rewrite H. Qed.

Lemma block_mode_off {R} (p : LoggingFile R) : block_mode false p = false.
Proof. done. Qed.

(** In block-storage mode a read at or after the end is no short read:
    [loggingRead] returns [SQLITE_OK] and the buffer is filled with
    zeros. *)
Theorem loggingRead_past_end {R}
    (xRead : filesys -> R -> option (list byte) -> Z -> Z
             -> Z * option (list byte))
    (fs : filesys) (p : LoggingFile R) h out iAmt iOfst :
  pBlock p = Some h -> strlen (filename h) <= 1003 ->
  0 <= iAmt <= INT_MAX ->
  block_file_size fs (Some h) <= iOfst ->
  iOfst + iAmt <= SCAN_LIMIT * BLOCK_SIZE ->
  loggingRead xRead true fs p (Some out) iAmt iOfst
  = Some (SQLITE_OK, Some (zeros iAmt ++ drop (Z.to_nat iAmt) out)).
Proof.
  intros Hp Hlen Hs Hoff Hend. unfold loggingRead.
  rewrite (block_mode_handle p h Hp), Hp.
  rewrite (block_read_past_size fs h out iAmt iOfst) by done.
  destruct (Z.ltb_spec iAmt 0); [lia | done].
Qed.

Lemma loggingRead_past_end_witness :
  let p : LoggingFile unit :=
    {| pReal := None; pBlock := fresh_bf; zName := Some TEST_FILE |} in
  pBlock p = Some {| filename := TEST_FILE |}
  /\ strlen TEST_FILE <= 1003 /\ (0 <= 3 <= INT_MAX)
  /\ block_file_size fresh_fs (Some {| filename := TEST_FILE |}) <= 0
  /\ 0 + 3 <= SCAN_LIMIT * BLOCK_SIZE
  /\ loggingRead (fun _ _ buf _ _ => (SQLITE_OK, buf)) true fresh_fs p
       (Some (bytes_of "abcde")) 3 0
     = Some (SQLITE_OK, Some ([x00; x00; x00] ++ bytes_of "de")).
Proof.
  cbv zeta.
  set (p := {| pReal := None; pBlock := fresh_bf; zName := Some TEST_FILE |}
            : LoggingFile unit).
  assert (H0 : pBlock p = Some {| filename := TEST_FILE |}) by reflexivity.
  assert (H1 : strlen TEST_FILE <= 1003) by (vm_compute; discriminate).
  assert (H2 : 0 <= 3 <= INT_MAX) by (vm_compute; split; discriminate).
  assert (H3 : block_file_size fresh_fs (Some {| filename := TEST_FILE |}) <= 0)
    by (vm_compute; discriminate).
  assert (H4 : 0 + 3 <= SCAN_LIMIT * BLOCK_SIZE) by (vm_compute; discriminate).
  split; [exact H0|]. split; [exact H1|]. split; [exact H2|].
  split; [exact H3|]. split; [exact H4|].
  exact (loggingRead_past_end (fun _ _ buf _ _ => (SQLITE_OK, buf)) fresh_fs p
           {| filename := TEST_FILE |} (bytes_of "abcde") 3 0 H0 H1 H2 H3 H4).
Defined.

(** Through the VFS in block-storage mode: what [loggingWrite] stored
    with [SQLITE_OK], [loggingRead] of the same range returns with
    [SQLITE_OK]. *)
Theorem loggingWrite_then_loggingRead {R}
    (xWrite : filesys -> R -> option (list byte) -> Z -> Z -> Z * filesys)
    (xRead : filesys -> R -> option (list byte) -> Z -> Z
             -> Z * option (list byte))
    (fs : filesys) (p : LoggingFile R) h b out iAmt iOfst fs' :
  pBlock p = Some h ->
  0 <= iAmt <= INT_MAX -> Z.of_nat (length b) = iAmt ->
  0 <= iOfst <= LLONG_MAX -> iAmt <= Z.of_nat (length out) ->
  loggingWrite xWrite true fs p (Some b) iAmt iOfst = Some (SQLITE_OK, fs') ->
  loggingRead xRead true fs' p (Some out) iAmt iOfst
  = Some (SQLITE_OK, Some (b ++ drop (Z.to_nat iAmt) out)).
Proof.
  intros Hp Hs Hb Ho Hout Hw. unfold loggingWrite in Hw. unfold loggingRead.
  rewrite (block_mode_handle p h Hp), Hp in *.
  destruct (block_write fs (Some h) (Some b) iAmt iOfst) as [r fs1] eqn:Hrun.
  destruct (Z.eqb_spec r iAmt) as [->|]; [|done].
  assert (fs1 = fs') as -> by congruence.
  destruct (block_write_spec fs h b iAmt iOfst iAmt fs')
    as (_ & Hok & _); try done; try lia.
  destruct (block_read_run fs' h out iAmt iOfst Hs Ho)
    as [[_ Hread]|[Hbad _]]; [|done].
  rewrite Hread. destruct (Z.ltb_spec iAmt 0); [lia|].
  do 4 f_equal. apply bytes_eq.
  - rewrite length_fmap, length_seqZ. lia.
  - intros i Hi. rewrite length_fmap, length_seqZ in Hi.
    rewrite byte_at_map_seqZ by lia.
    apply (written_bytes fs h b iAmt iOfst iAmt fs'); try done; lia.
Qed.

Lemma loggingWrite_then_loggingRead_witness :
  let p : LoggingFile unit :=
    {| pReal := None; pBlock := fresh_bf; zName := Some TEST_FILE |} in
  pBlock p = Some {| filename := TEST_FILE |}
  /\ (0 <= 13 <= INT_MAX) /\ Z.of_nat (length hello) = 13
  /\ (0 <= 0 <= LLONG_MAX) /\ 13 <= Z.of_nat (length (replicate 20 xff))
  /\ loggingWrite (fun fs _ _ _ _ => (SQLITE_OK, fs)) true fresh_fs p
       (Some hello) 13 0 = Some (SQLITE_OK, hello_fs)
  /\ loggingRead (fun _ _ buf _ _ => (SQLITE_OK, buf)) true hello_fs p
       (Some (replicate 20 xff)) 13 0
     = Some (SQLITE_OK, Some (hello ++ replicate 7 xff)).
Proof.
  cbv zeta.
  set (p := {| pReal := None; pBlock := fresh_bf; zName := Some TEST_FILE |}
            : LoggingFile unit).
  assert (H0 : pBlock p = Some {| filename := TEST_FILE |}) by reflexivity.
  assert (H1 : 0 <= 13 <= INT_MAX) by (vm_compute; split; discriminate).
  assert (H2 : Z.of_nat (length hello) = 13) by reflexivity.
  assert (H3 : 0 <= 0 <= LLONG_MAX) by (vm_compute; split; discriminate).
  assert (H4 : 13 <= Z.of_nat (length (replicate 20 xff)))
    by (vm_compute; discriminate).
  assert (H5 : loggingWrite (fun fs _ _ _ _ => (SQLITE_OK, fs)) true fresh_fs p
                 (Some hello) 13 0 = Some (SQLITE_OK, hello_fs)).
  { assert (Hbw : block_write fresh_fs fresh_bf (Some hello) 13 0
                  = (13, hello_fs)).
    { unfold hello_fs. rewrite (surjective_pairing (block_write _ _ _ _ _)) at 1.
      f_equal; vm_compute; reflexivity. }
    unfold loggingWrite. change (block_mode true p) with true.
    cbv iota. change (pBlock p) with fresh_bf. rewrite Hbw. reflexivity. }
  do 5 (split; [assumption|]). split; [exact H5|].
  exact (loggingWrite_then_loggingRead (fun fs _ _ _ _ => (SQLITE_OK, fs))
           (fun _ _ buf _ _ => (SQLITE_OK, buf)) fresh_fs p
           {| filename := TEST_FILE |} hello (replicate 20 xff) 13 0 hello_fs
           H0 H1 H2 H3 H4 H5).
Defined.

(** [loggingWrite] compares the count [block_write] returns with [iAmt]:
    for the amount -1 the -1 by which [block_write] rejects a negative
    size passes for a complete write, and the method returns
    [SQLITE_OK] with nothing written; any other negative amount gives
    [SQLITE_IOERR_WRITE]. *)
Theorem loggingWrite_negative_amount {R}
    (xWrite : filesys -> R -> option (list byte) -> Z -> Z -> Z * filesys)
    (fs : filesys) (p : LoggingFile R) h zBuf iAmt iOfst :
  pBlock p = Some h -> iAmt < 0 ->
  loggingWrite xWrite true fs p zBuf iAmt iOfst
  = Some (if iAmt =? -1 then SQLITE_OK else SQLITE_IOERR_WRITE, fs).
Proof.
  intros Hp Hneg. unfold loggingWrite.
  rewrite (block_mode_handle p h Hp), Hp. unfold block_write.
  destruct zBuf as [buf|].
  - destruct (Z.ltb_spec iAmt 0); [|lia]. cbn [orb].
    by rewrite (Z.eqb_sym (-1) iAmt).
  - by rewrite (Z.eqb_sym (-1) iAmt).
Qed.

Lemma loggingWrite_negative_amount_witness :
  let p : LoggingFile unit :=
    {| pReal := None; pBlock := fresh_bf; zName := Some TEST_FILE |} in
  pBlock p = Some {| filename := TEST_FILE |} /\ -1 < 0
  /\ loggingWrite (fun fs _ _ _ _ => (SQLITE_IOERR_WRITE, fs)) true hello_fs p
       (Some hello) (-1) 0 = Some (SQLITE_OK, hello_fs).
Proof.
  cbv zeta.
  set (p := {| pReal := None; pBlock := fresh_bf; zName := Some TEST_FILE |}
            : LoggingFile unit).
  assert (H0 : pBlock p = Some {| filename := TEST_FILE |}) by reflexivity.
  assert (H1 : -1 < 0) by lia.
  do 2 (split; [assumption|]).
  exact (loggingWrite_negative_amount (fun fs _ _ _ _ => (SQLITE_IOERR_WRITE, fs))
           hello_fs p {| filename := TEST_FILE |} (Some hello) (-1) 0 H0 H1).
Defined.

(** [loggingFileSize] in block-storage mode: for a name of at most 1003
    characters it returns [SQLITE_OK] and a size between 0 and 10000
    blocks; for a longer name, whose block paths do not fit, it returns
    [SQLITE_IOERR_FSTAT] and sets the size to 0. *)
Theorem loggingFileSize_status {R} (xFileSize : filesys -> R -> Z -> Z * Z)
    (fs : filesys) (p : LoggingFile R) h pSize :
  pBlock p = Some h ->
  loggingFileSize xFileSize true fs p pSize
  = Some (if bool_decide (strlen (filename h) <= 1003)
          then (SQLITE_OK, block_file_size fs (Some h))
          else (SQLITE_IOERR_FSTAT, 0))
  /\ (strlen (filename h) <= 1003 ->
      0 <= block_file_size fs (Some h) <= SCAN_LIMIT * BLOCK_SIZE).
Proof.
  intros Hp. split; [|apply block_file_size_range].
  unfold loggingFileSize. rewrite (block_mode_handle p h Hp), Hp.
  case_bool_decide as Hlen.
  - pose proof (block_file_size_range fs h Hlen) as Hr.
    destruct (Z.geb_spec (block_file_size fs (Some h)) 0); [done | lia].
  - rewrite block_file_size_long by lia. done.
Qed.

Lemma loggingFileSize_status_witness :
  let p : LoggingFile unit :=
    {| pReal := None; pBlock := Some {| filename := edge_name |};
       zName := Some edge_name |} in
  pBlock p = Some {| filename := edge_name |}
  /\ loggingFileSize (fun _ _ sz => (SQLITE_OK, sz)) true deep_fs p 77
     = Some (SQLITE_IOERR_FSTAT, 0).
Proof.
  cbv zeta.
  set (p := {| pReal := None; pBlock := Some {| filename := edge_name |};
               zName := Some edge_name |} : LoggingFile unit).
  assert (H0 : pBlock p = Some {| filename := edge_name |}) by reflexivity.
  split; [assumption|].
  exact (proj1 (loggingFileSize_status (fun _ _ sz => (SQLITE_OK, sz))
                  deep_fs p {| filename := edge_name |} 77 H0)).
Defined.

(** [loggingTruncate] in block-storage mode returns [SQLITE_OK] for
    every size from 0 on (up to the largest whose block count is an
    [int]), also where [block_truncate] leaves block files behind, and
    [SQLITE_IOERR_TRUNCATE] for a negative size. *)
Theorem loggingTruncate_status {R} (xTruncate : filesys -> R -> Z -> Z * filesys)
    (fs : filesys) (p : LoggingFile R) h size :
  pBlock p = Some h -> strlen (filename h) <= 997 ->
  size <= INT_MAX * BLOCK_SIZE ->
  loggingTruncate xTruncate true fs p size
  = Some (if size <? 0 then SQLITE_IOERR_TRUNCATE else SQLITE_OK,
          snd (block_truncate fs (Some h) size)).
Proof.
  intros Hp Hlen Hs. unfold loggingTruncate.
  rewrite (block_mode_handle p h Hp), Hp.
  destruct (Z.ltb_spec size 0) as [Hneg|Hpos].
  - unfold block_truncate. destruct (Z.ltb_spec size 0); [done | lia].
  - destruct (block_truncate_spec (filename h) fs h size eq_refl Hlen
                ltac:(lia)) as (fs' & stop & -> & _).
    done.
Qed.

Lemma loggingTruncate_status_witness :
  let p : LoggingFile unit :=
    {| pReal := None; pBlock := fresh_bf; zName := Some TEST_FILE |} in
  pBlock p = Some {| filename := TEST_FILE |}
  /\ strlen TEST_FILE <= 997 /\ 0 <= INT_MAX * BLOCK_SIZE
  /\ loggingTruncate (fun fs _ _ => (SQLITE_OK, fs)) true far_fs p 0
     = Some (SQLITE_OK,
             snd (block_truncate far_fs (Some {| filename := TEST_FILE |}) 0)).
Proof.
  cbv zeta.
  set (p := {| pReal := None; pBlock := fresh_bf; zName := Some TEST_FILE |}
            : LoggingFile unit).
  assert (H0 : pBlock p = Some {| filename := TEST_FILE |}) by reflexivity.
  assert (H1 : strlen TEST_FILE <= 997) by (vm_compute; discriminate).
  assert (H2 : 0 <= INT_MAX * BLOCK_SIZE) by (vm_compute; discriminate).
  split; [exact H0|]. split; [exact H1|]. split; [exact H2|].
  exact (loggingTruncate_status (fun fs _ _ => (SQLITE_OK, fs)) far_fs p
           {| filename := TEST_FILE |} 0 H0 H1 H2).
Defined.

(** A file opened in block-storage mode has no real file.  When
    [useBlockStorage] is switched off while it is open, [loggingRead],
    [loggingWrite], [loggingTruncate] and [loggingFileSize] go for the
    methods of [pReal], which is null, and [loggingClose] returns
    [SQLITE_OK] without closing anything. *)
Theorem mode_switch_leaves_no_real_file {R}
    (xOpen : filesys -> option string -> Z -> option Z
             -> Z * R * option Z * filesys)
    (xRead : filesys -> R -> option (list byte) -> Z -> Z
             -> Z * option (list byte))
    (xWrite : filesys -> R -> option (list byte) -> Z -> Z -> Z * filesys)
    (xTruncate : filesys -> R -> Z -> Z * filesys)
    (xFileSize : filesys -> R -> Z -> Z * Z)
    (xClose : filesys -> R -> Z * filesys)
    (temp_file_name : string) (fs : filesys) zName0 (p0 p : LoggingFile R)
    flags pOutFlags out fs1 :
  loggingOpen xOpen temp_file_name true fs zName0 p0 flags pOutFlags
  = (SQLITE_OK, p, out, fs1) ->
  forall fs2 zBuf iAmt iOfst,
    loggingRead xRead false fs2 p zBuf iAmt iOfst = None
    /\ loggingWrite xWrite false fs2 p zBuf iAmt iOfst = None
    /\ loggingTruncate xTruncate false fs2 p iOfst = None
    /\ loggingFileSize xFileSize false fs2 p iOfst = None
    /\ loggingClose xClose false fs2 p = (SQLITE_OK, fs2).
Proof.
  intros Hopen fs2 zBuf iAmt iOfst.
  assert (Hreal : pReal p = None).
  { unfold loggingOpen in Hopen.
    destruct (block_open fs _) as [[rc bf] fs']. destruct (negb (rc =? 0)).
    - by injection Hopen.
    - by injection Hopen as <- _ _. }
  unfold loggingRead, loggingWrite, loggingTruncate, loggingFileSize,
    loggingClose.
  rewrite !block_mode_off, Hreal. done.
Qed.

Lemma mode_switch_leaves_no_real_file_witness :
  let p : LoggingFile unit :=
    {| pReal := None; pBlock := Some {| filename := TEST_FILE |};
       zName := Some TEST_FILE |} in
  loggingOpen (fun fs _ _ o => (SQLITE_OK, tt, o, fs)) "temp_file_0x1" true ∅
    (Some TEST_FILE) {| pReal := None; pBlock := None; zName := None |}
    6 (Some 0)
  = (SQLITE_OK, p, Some 6, fresh_fs)
  /\ loggingRead (fun _ _ buf _ _ => (SQLITE_OK, buf)) false fresh_fs p
       (Some [x00]) 1 0 = None.
Proof.
  cbv zeta.
  assert (H0 : loggingOpen (fun fs _ _ o => (SQLITE_OK, tt, o, fs))
                 "temp_file_0x1" true ∅ (Some TEST_FILE)
                 {| pReal := None; pBlock := None; zName := None |} 6 (Some 0)
               = (SQLITE_OK,
                  {| pReal := None; pBlock := Some {| filename := TEST_FILE |};
                     zName := Some TEST_FILE |}, Some 6, fresh_fs))
    by (vm_compute; reflexivity).
  split; [exact H0|].
  exact (proj1 (mode_switch_leaves_no_real_file
                  (fun fs _ _ o => (SQLITE_OK, tt, o, fs))
                  (fun _ _ buf _ _ => (SQLITE_OK, buf))
                  (fun fs _ _ _ _ => (SQLITE_OK, fs))
                  (fun fs _ _ => (SQLITE_OK, fs))
                  (fun _ _ sz => (SQLITE_OK, sz))
                  (fun fs _ => (SQLITE_OK, fs))
                  "temp_file_0x1" ∅ (Some TEST_FILE)
                  {| pReal := None; pBlock := None; zName := None |} _
                  6 (Some 0) (Some 6) fresh_fs H0 fresh_fs (Some [x00]) 1 0)).
Defined.

